(** * Garbo: job pipeline workers and company write routes

    A shallow embedding of

    - [src/workers/guessWikidata.ts]: the Entity Resolver (search retry loop,
      candidate ranking, request to the Extraction Service);
    - the [diffEqualities] worker (diff, then conditional enqueue of a save job);
    - the company write routes (goals, initiatives, equalities, reporting
      periods, per-year emissions and economy) with their zod schemas.

    The first part of the file holds the embedding and the notions used to
    state its properties; the second part, the properties and their proofs.

    JavaScript values are modelled by the type [value]; objects are
    association lists in insertion order.  Strings are sequences of UTF-16
    code units, as in the language: [trim], [split] and the class [\s] are
    defined on them with the whitespace of ECMA-262, while the case mappings
    [toLowerCase] and [toUpperCase], which follow the Unicode tables of the
    runtime, are parameters of the functions that call them.  Numbers are
    rationals (request bodies are JSON, which has neither NaN nor infinities). *)

From Stdlib Require Import List NArith ZArith QArith Bool Lia Arith.
From Stdlib Require Import Permutation.
From Stdlib.Strings Require Byte.
From Equations Require Import Equations.
Import ListNotations.
Close Scope Q_scope.
Set Warnings "-register-all".

(** ** Strings *)

(** The String type of the language: a finite sequence of 16-bit code
    units, each given by its number. *)
Inductive string : Type :=
| EmptyString
| String (c : N) (r : string).

Module Str.

(** [s + t]. *)
Fixpoint append (s t : string) : string :=
  match s with
  | EmptyString => t
  | String c r => String c (append r t)
  end.

(** [s.length]: the number of code units. *)
Fixpoint length (s : string) : nat :=
  match s with
  | EmptyString => 0
  | String _ r => S (length r)
  end.

(** [s === t]. *)
Fixpoint eqb (s t : string) : bool :=
  match s, t with
  | EmptyString, EmptyString => true
  | String c r, String d u => (c =? d)%N && eqb r u
  | _, _ => false
  end.

(** The pieces [l] with [sep] between them. *)
Fixpoint concat (sep : string) (l : list string) : string :=
  match l with
  | [] => EmptyString
  | [x] => x
  | x :: rest => append x (append sep (concat sep rest))
  end.

(** String literals of this file are ASCII text: one code unit for each
    byte. *)
Fixpoint of_bytes (l : list Byte.byte) : option string :=
  match l with
  | [] => Some EmptyString
  | b :: r =>
      if (Byte.to_N b <? 128)%N then option_map (String (Byte.to_N b)) (of_bytes r)
      else None
  end.

Fixpoint to_bytes (s : string) : option (list Byte.byte) :=
  match s with
  | EmptyString => Some []
  | String c r =>
      if (c <? 128)%N then
        match Byte.of_N c, to_bytes r with
        | Some b, Some l => Some (b :: l)
        | _, _ => None
        end
      else None
  end.

End Str.

Declare Scope js_scope.
Delimit Scope js_scope with js.
Bind Scope js_scope with string.
String Notation string Str.of_bytes Str.to_bytes : js_scope.
Infix "++" := Str.append (right associativity, at level 60) : js_scope.
Infix "=?" := Str.eqb (at level 70) : js_scope.
Local Open Scope js_scope.

(** ** JavaScript values *)

Module JS.

Inductive value : Type :=
| VUndefined
| VNull
| VBool (b : bool)
| VNum (q : Q)
| VStr (s : string)
| VDate (t : Z)
| VArr (items : list value)
| VObj (props : list (string * value)).

Definition obj : Type := list (string * value).

(** [Boolean(v)]. *)
Definition truthy (v : value) : bool :=
  match v with
  | VUndefined | VNull => false
  | VBool b => b
  | VNum q => negb (Qeq_bool q 0)
  | VStr s => negb (s =? "")
  | VDate _ | VArr _ | VObj _ => true
  end.

Fixpoint lookup (k : string) (o : obj) : option value :=
  match o with
  | [] => None
  | (k', v) :: rest => if k =? k' then Some v else lookup k rest
  end.

(** [k in o]. *)
Definition has_key (k : string) (o : obj) : bool :=
  match lookup k o with Some _ => true | None => false end.

(** Property read [v?.k]: [undefined] on [undefined], [null] and on values
    without such an own property. *)
Definition get (k : string) (v : value) : value :=
  match v with
  | VObj o => match lookup k o with Some x => x | None => VUndefined end
  | _ => VUndefined
  end.

(** Property write in an object literal or by assignment: an existing key
    keeps its position, a new key is appended. *)
Fixpoint set (k : string) (v : value) (o : obj) : obj :=
  match o with
  | [] => [(k, v)]
  | (k', v') :: rest =>
      if k =? k' then (k, v) :: rest else (k', v') :: set k v rest
  end.

(** [{...v}] for an object [v]; the callers spread objects only. *)
Definition spread (v : value) : obj :=
  match v with
  | VObj o => o
  | _ => []
  end.

(** [v?.length] for arrays and strings. *)
Definition length_of (v : value) : value :=
  match v with
  | VArr l => VNum (inject_Z (Z.of_nat (List.length l)))
  | VStr s => VNum (inject_Z (Z.of_nat (Str.length s)))
  | _ => VUndefined
  end.

(** *** Strings *)

(** The class [\s] of a regular expression, which is also what [trim]
    removes: WhiteSpace and LineTerminator of ECMA-262.  These are the
    code units U+0009 to U+000D, U+0020, U+00A0, U+1680, U+2000 to U+200A,
    U+2028, U+2029, U+202F, U+205F, U+3000 and U+FEFF (the runtime has
    [toSorted], so its Unicode is later than 6.3 and U+180E is not among
    them).  All of them are single code units. *)
Definition is_space (c : N) : bool :=
  (((9 <=? c) && (c <=? 13)) || (c =? 32) || (c =? 160) || (c =? 5760)
   || ((8192 <=? c) && (c <=? 8202)) || (c =? 8232) || (c =? 8233)
   || (c =? 8239) || (c =? 8287) || (c =? 12288) || (c =? 65279))%N.

(** ASCII text: every code unit is below 128. *)
Fixpoint isASCII (s : string) : bool :=
  match s with
  | EmptyString => true
  | String c r => (c <? 128)%N && isASCII r
  end.

Definition lower_char (c : N) : N :=
  if ((65 <=? c) && (c <=? 90))%N then (c + 32)%N else c.

Definition upper_char (c : N) : N :=
  if ((97 <=? c) && (c <=? 122))%N then (c - 32)%N else c.

Fixpoint map_string (f : N -> N) (s : string) : string :=
  match s with
  | EmptyString => EmptyString
  | String c r => String (f c) (map_string f r)
  end.

(** What [toLowerCase] and [toUpperCase] do to ASCII text: the letters A-Z
    and a-z are mapped, every other character is kept.  On other text the
    runtime follows the Unicode case mappings, which are not modelled: the
    functions that call [toLowerCase] or [toUpperCase] take it as a
    parameter, and these two serve for examples and for what is stated about
    ASCII text. *)
Definition asciiLowerCase : string -> string := map_string lower_char.
Definition asciiUpperCase : string -> string := map_string upper_char.

(** [s.trimStart()]. *)
Fixpoint trimStart (s : string) : string :=
  match s with
  | EmptyString => EmptyString
  | String c r => if is_space c then trimStart r else s
  end.

(** [s.trimEnd()]. *)
Fixpoint trimEnd (s : string) : string :=
  match s with
  | EmptyString => EmptyString
  | String c r =>
      match trimEnd r with
      | EmptyString => if is_space c then EmptyString else String c EmptyString
      | r' => String c r'
      end
  end.

(** [s.trim()]. *)
Definition trim (s : string) : string := trimEnd (trimStart s).

Definition starts_with_space (s : string) : bool :=
  match s with
  | EmptyString => false
  | String c _ => is_space c
  end.

(** Prepend a character to the first piece of a split. *)
Definition cons_char (c : N) (pieces : list string) : list string :=
  match pieces with
  | [] => [String c EmptyString]
  | t :: ts => String c t :: ts
  end.

(** [s.split(/\s+/)]: every maximal run of whitespace is one separator, so a
    leading or trailing run leaves an empty first or last piece. *)
Fixpoint split_whitespace (s : string) : list string :=
  match s with
  | EmptyString => [EmptyString]
  | String c r =>
      if is_space c then
        if starts_with_space r then split_whitespace r
        else EmptyString :: split_whitespace r
      else cons_char c (split_whitespace r)
  end.

(** [s.split(sep)] for a separator of one code unit. *)
Fixpoint split_char (sep : N) (s : string) : list string :=
  match s with
  | EmptyString => [EmptyString]
  | String c r =>
      if (c =? sep)%N then EmptyString :: split_char sep r
      else cons_char c (split_char sep r)
  end.

(** [l.join(sep)]. *)
Definition join (sep : string) (l : list string) : string := Str.concat sep l.

(** [l.slice(0, -1)]. *)
Definition slice_0_m1 {A : Type} (l : list A) : list A := removelast l.

(** [l.toSorted(cmp)]: the sort is stable; for a consistent comparator the
    result is the one of a stable insertion sort. *)
Section Sorting.
Context {A : Type} (cmp : A -> A -> Z).

Fixpoint insert_sorted (x : A) (l : list A) : list A :=
  match l with
  | [] => [x]
  | y :: r => if (cmp x y <=? 0)%Z then x :: y :: r else y :: insert_sorted x r
  end.

Definition toSorted (l : list A) : list A := fold_right insert_sorted [] l.
End Sorting.

End JS.
Import JS.

(** ** The Entity Resolver: [src/workers/guessWikidata.ts] *)

Module GuessWikidata.

Definition insignificantWords : list string :=
  ["ab"; "the"; "and"; "inc"; "co"; "publ"].

(** [insignificantWords.has(word)]. *)
Definition has (words : list string) (word : string) : bool :=
  existsb (Str.eqb word) words.

(** Line 51: [companyName.split(' ').slice(0, -1).join(' ')]. *)
Definition dropLastWord (companyName : string) : string :=
  join " " (slice_0_m1 (split_char 32 companyName)).

Record message : Type := { role : string; content : string }.

Definition newline : string := String 10 "".

(** Lines 102-104: the turn built from [job.stacktrace]. *)
Definition stacktraceTurn (lines : list string) : message :=
  {| role := "user"; content := join newline lines |}.

Section Worker.
(** [String.prototype.toLowerCase] of the runtime; the collaborators of the
    worker, from [../lib/wikidata], [../lib/openai] and [../prompts/wikidata];
    and the runtime's JSON printer. *)
Variable toLowerCase : string -> string.
Variable searchCompany : string -> list value.
Variable getWikidataEntities : list value -> list value.
Variable wikidata_prompt : string.
Variable JSON_stringify : value -> string.

(** Lines 38-42: lower-case, split on whitespace, drop the insignificant
    words, join with single spaces. *)
Definition simplify (companyName : string) : string :=
  join " "
    (filter (fun word => negb (has insignificantWords word))
       (split_whitespace (toLowerCase companyName))).

(** Lines 22-58.  The first component records, in order, the queries handed
    to [searchCompany] (line 32); the second is the value returned. *)
Equations? getWikidataSearchResults (companyName : string) (retry : nat)
  : list string * list value by wf (4 - retry) lt :=
getWikidataSearchResults companyName retry with le_lt_dec retry 3 => {
  | right _ := ([], []);
  | left Hle :=
      match searchCompany companyName with
      | (_ :: _) as results => ([companyName], results)
      | [] =>
          if (retry =? 0)%nat then
            let simplifiedCompanyName := simplify companyName in
            let '(queries, results) :=
              getWikidataSearchResults simplifiedCompanyName (retry + 1) in
            (companyName :: queries, results)
          else
            let name := dropLastWord companyName in
            if negb (name =? "") then
              let '(queries, results) :=
                getWikidataSearchResults name (retry + 1) in
              (companyName :: queries, results)
            else ([companyName], [])
      end }.
Proof. all: destruct retry as [|[|[|[|?]]]]; simpl; lia. Qed.

(** Line 78. *)
Definition hasEmissions (e : value) : bool :=
  truthy (get "P5991" (get "claims" e)).

(** Line 79. *)
Definition byEmissions (a b : value) : Z :=
  ((if hasEmissions a then 0 else 1) - (if hasEmissions b then 0 else 1))%Z.

(** Line 84: [{ ...e, claims: undefined }]. *)
Definition withoutClaims (e : value) : value :=
  VObj (set "claims" VUndefined (spread e)).

(** Lines 73-85. *)
Definition orderedResults (results : list value) : list value :=
  map withoutClaims (toSorted byEmissions results).

(** Lines 88-105: the turns handed to [ask].  [stacktrace] is [None] when
    [job.stacktrace] is not an array. *)
Definition turns (companyName : string) (ordered : list value)
    (stacktrace : option (list string)) : list (option message) :=
  [ Some {| role := "system";
            content := "I have a company named " ++ companyName ++
              " and I am looking for the wikidata entry related to this company. Be helpful and try to be accurate." |};
    Some {| role := "user"; content := wikidata_prompt |};
    Some {| role := "assistant";
            content := "OK. Just send me the wikidata search results?" |};
    Some {| role := "user"; content := JSON_stringify (VArr ordered) |};
    match stacktrace with
    | Some lines => Some (stacktraceTurn lines)
    | None => None
    end ].

(** Line 105: [.filter((m) => m && m.content?.length > 0)]. *)
Definition keepTurn (m : option message) : bool :=
  match m with
  | Some t => (0 <? Str.length (content t))%nat
  | None => false
  end.

Fixpoint present (ms : list (option message)) : list message :=
  match ms with
  | [] => []
  | Some t :: rest => if keepTurn (Some t) then t :: present rest else present rest
  | None :: rest => present rest
  end.

Definition askMessages (companyName : string) (ordered : list value)
    (stacktrace : option (list string)) : list message :=
  present (turns companyName ordered stacktrace).

(** Lines 60-109: what the job does up to its request to the Extraction
    Service: it fails before the request when no name was given or no
    entity was found, and otherwise sends [askMessages]. *)
Inductive progress : Type :=
| Threw (error : string)
| Asked (request : list message).

Definition guessWikidata (companyName : string)
    (stacktrace : option (list string)) : progress :=
  if companyName =? "" then Threw "No company name was provided"
  else
    let searchResults := snd (getWikidataSearchResults companyName 0) in
    let results := getWikidataEntities (map (get "id") searchResults) in
    match results with
    | [] => Threw ("No Wikidata entry for " ++ String 34 companyName ++ String 34 "")
    | _ => Asked (askMessages companyName (orderedResults results) stacktrace)
    end.
End Worker.

End GuessWikidata.

(** ** The [diffEqualities] worker *)

Module DiffEqualities.

Record DiffArgs : Type :=
  { existingCompany : value; before : value; after : value }.

Record DiffResult : Type := { diff : value; requiresApproval : value }.

Record QueueJob : Type := { jobName : string; jobData : value }.

(** What a run of the worker leaves: the lines given to [job.log], the jobs
    added to [saveToAPI.queue], and the value returned. *)
Record Outcome : Type :=
  { logged : list string; enqueued : list QueueJob; returned : value }.

Section Worker.
(** [defaultMetadata] and [diffChanges] come from [../lib/saveUtils];
    [ToString] is the runtime's coercion of a value that is not a string
    when it is concatenated with one. *)
Variable defaultMetadata : value -> value.
Variable diffChanges : DiffArgs -> DiffResult.
Variable ToString : value -> string.

Definition concat (a b : value) : string :=
  let text v := match v with VStr s => s | _ => ToString v end in
  text a ++ text b.

(** Lines 149-152. *)
Definition body (data : value) : value :=
  VObj [("equalities", get "equalities" data);
        ("metadata", defaultMetadata (get "url" data))].

(** Lines 154-158: the argument of [diffChanges]. *)
Definition diffArgs (data : value) : DiffArgs :=
  {| existingCompany := get "existingCompany" data;
     before := get "goals" (get "existingCompany" data);
     after := get "equalities" data |}.

(** Lines 164-173: the payload of the save job. *)
Definition savePayload (data : value) (r : DiffResult) : value :=
  VObj (set "equalities" VUndefined
       (set "apiSubEndpoint" (VStr "equalities")
       (set "requiresApproval" (requiresApproval r)
       (set "diff" (diff r)
       (set "body" (body data)
       (spread data)))))).

(** Lines 145-177, on [job.data]. *)
Definition diffEqualities (data : value) : Outcome :=
  let r := diffChanges (diffArgs data) in
  {| logged := [concat (VStr "Diff:") (diff r)];
     enqueued :=
       if truthy (diff r) then
         [ {| jobName := concat (get "companyName" data) (VStr " equalities");
              jobData := savePayload data r |} ]
       else [];
     returned := VObj [("body", body data); ("diff", diff r);
                       ("requiresApproval", requiresApproval r)] |}.
End Worker.

End DiffEqualities.

(** ** Request validation: the zod schemas of the routes *)

Module Zod.

Inductive schema : Type :=
| number
| int_between (lo hi : Z)
| string_
| coerce_date
| object (shape : list (string * schema))
| array (item : schema)
| optional (inner : schema)
| nullable (inner : schema)
| refine (inner : schema) (check : value -> bool).

Definition is_integer (q : Q) : bool := (Qnum q mod Zpos (Qden q) =? 0)%Z.

Section Parse.
(** [new Date(v).getTime()], [None] for an invalid date. *)
Variable newDate : value -> option Z.

(** [schema.safeParse(v)]: the parsed data, or [None] for a ZodError.
    Objects keep the keys of their shape only; a key is set when it was in
    the input or its parsed value is not [undefined]. *)
Fixpoint parse (s : schema) (v : value) {struct s} : option value :=
  match s with
  | number => match v with VNum _ => Some v | _ => None end
  | int_between lo hi =>
      match v with
      | VNum q =>
          if is_integer q && Qle_bool (inject_Z lo) q && Qle_bool q (inject_Z hi)
          then Some v else None
      | _ => None
      end
  | string_ => match v with VStr _ => Some v | _ => None end
  | coerce_date => option_map VDate (newDate v)
  | object shape =>
      match v with
      | VObj o =>
          option_map VObj
            ((fix fields (sh : list (string * schema)) : option obj :=
                match sh with
                | [] => Some []
                | (k, sk) :: rest =>
                    match parse sk (get k v), fields rest with
                    | Some x, Some r =>
                        Some (if has_key k o
                                 || negb match x with VUndefined => true | _ => false end
                              then (k, x) :: r else r)
                    | _, _ => None
                    end
                end) shape)
      | _ => None
      end
  | array item =>
      match v with
      | VArr l =>
          option_map VArr
            ((fix items (l : list value) : option (list value) :=
                match l with
                | [] => Some []
                | x :: r =>
                    match parse item x, items r with
                    | Some x', Some r' => Some (x' :: r')
                    | _, _ => None
                    end
                end) l)
      | _ => None
      end
  | optional inner =>
      match v with VUndefined => Some VUndefined | _ => parse inner v end
  | nullable inner =>
      match v with VNull => Some VNull | _ => parse inner v end
  | refine inner check =>
      match parse inner v with
      | Some v' => if check v' then Some v' else None
      | None => None
      end
  end.
End Parse.

End Zod.

(** ** The Persistence Gateway and asynchronous calls *)

Module Async.

(** The operations of [../lib/prisma] that the write routes call.  They are
    awaited or joined wherever they are called: each is taken to return a
    promise, so that its failure is a rejection and never an exception
    thrown while the arguments of the join are evaluated.  A promise is run
    to its settlement when it is created, in the order of the source; the
    interleaving of independent calls is not modelled. *)
Inductive operation : Type :=
| upsertReportingPeriod | upsertEmissions | upsertEconomy
| upsertScope1 | upsertScope2 | upsertScope3 | upsertStatedTotalEmissions
| upsertBiogenic | upsertScope1And2 | upsertTurnover | upsertEmployees
| createGoals | createInitiatives | createEqualities.

Record call : Type := { fn : operation; args : list value }.

(** The calls made to the gateway so far, oldest first. *)
Definition history : Type := list call.

Inductive settled (A : Type) : Type :=
| fulfilled (result : A)
| rejected (reason : value).
Arguments fulfilled {A} result.
Arguments rejected {A} reason.

(** A promise run to its settlement: its outcome and the calls it added. *)
Definition promise (A : Type) : Type := history -> settled A * history.

Definition ret {A : Type} (a : A) : promise A := fun h => (fulfilled a, h).

Definition throw {A : Type} (reason : value) : promise A :=
  fun h => (rejected reason, h).

(** [await m], then [k]. *)
Definition bind {A B : Type} (m : promise A) (k : A -> promise B) : promise B :=
  fun h =>
    match m h with
    | (fulfilled a, h') => k a h'
    | (rejected e, h') => (rejected e, h')
    end.

(** [try { await m } catch (error) { handler(error) }]. *)
Definition try_catch {A : Type} (m : promise A) (handler : value -> promise A)
  : promise A :=
  fun h =>
    match m h with
    | (fulfilled a, h') => (fulfilled a, h')
    | (rejected e, h') => handler e h'
    end.

(** Every promise of the list is run, whatever the others settle to. *)
Fixpoint settle_all {A : Type} (ps : list (promise A)) (h : history)
  : list (settled A) * history :=
  match ps with
  | [] => ([], h)
  | p :: rest =>
      let (r, h1) := p h in
      let (rs, h2) := settle_all rest h1 in
      (r :: rs, h2)
  end.

(** [Promise.allSettled(ps)]: never rejects. *)
Definition allSettled {A : Type} (ps : list (promise A))
  : promise (list (settled A)) :=
  fun h => let (rs, h') := settle_all ps h in (fulfilled rs, h').

Fixpoint first_rejection {A : Type} (rs : list (settled A)) : settled (list A) :=
  match rs with
  | [] => fulfilled []
  | rejected e :: _ => rejected e
  | fulfilled a :: rest =>
      match first_rejection rest with
      | fulfilled l => fulfilled (a :: l)
      | rejected e => rejected e
      end
  end.

(** [Promise.all(ps)]: the promises were all started; the first rejection,
    if any, is the outcome. *)
Definition all {A : Type} (ps : list (promise A)) : promise (list A) :=
  fun h => let (rs, h') := settle_all ps h in (first_rejection rs, h').

Section Gateway.
(** How the gateway settles a call, given the calls made before it. *)
Variable gateway : history -> call -> settled value.

Definition invoke (f : operation) (a : list value) : promise value :=
  fun h =>
    let c := {| fn := f; args := a |} in
    (gateway h c, (h ++ [c])%list).
End Gateway.

End Async.

Declare Scope async_scope.
Delimit Scope async_scope with async.
Notation "x <- m ;; k" := (Async.bind m (fun x => k))
  (at level 61, m at next level, right associativity) : async_scope.
Notation "m ;; k" := (Async.bind m (fun _ => k))
  (at level 61, right associativity) : async_scope.

(** ** The company write routes *)

Module Routes.
Import Zod Async.
Local Open Scope async_scope.

Definition is_undefined (v : value) : bool :=
  match v with VUndefined => true | _ => false end.

(** A destructuring default, [x = d]. *)
Definition orDefault (v d : value) : value := if is_undefined v then d else v.

(** [v ?? d]. *)
Definition nullish (v d : value) : value :=
  match v with VUndefined | VNull => d | _ => v end.

(** *** Schemas (lines 112-117, 189-194, 266-283, 406-515, 656-658, 709-711) *)

Definition goalSchema : schema :=
  object [("description", string_); ("year", optional string_);
          ("target", optional number); ("baseYear", optional string_)].

Definition initiativeSchema : schema :=
  object [("title", string_); ("description", optional string_);
          ("year", optional string_); ("scope", optional string_)].

Definition equalityItemSchema : schema :=
  object [("description", string_); ("year", optional number);
          ("target", optional string_); ("baseYear", optional number)].

Definition equalitySchema : schema :=
  object [("initiatives", optional (array equalityItemSchema));
          ("goals", optional (array equalityItemSchema))].

Definition postGoalsBodySchema : schema := object [("goals", array goalSchema)].
Definition postInitiativesBodySchema : schema :=
  object [("initiatives", array initiativeSchema)].
Definition postEqualitiesBodySchema : schema :=
  object [("equalities", array equalitySchema)].

Definition totalSchema : schema := nullable (optional (object [("total", number)])).

Definition statedTotalEmissionsSchema : schema := totalSchema.

Definition scope2Defined (scope2 : value) : bool :=
  negb (is_undefined (get "mb" scope2))
  || negb (is_undefined (get "lb" scope2))
  || negb (is_undefined (get "unknown" scope2)).

Definition scope2Schema : schema :=
  nullable (optional (refine
    (object [("mb", nullable (optional number));
             ("lb", nullable (optional number));
             ("unknown", nullable (optional number))])
    scope2Defined)).

Definition scope3Schema : schema :=
  optional (object
    [("categories",
       optional (array (object [("category", int_between 1 16);
                                ("total", nullable number)])));
     ("statedTotalEmissions", statedTotalEmissionsSchema)]).

Definition emissionsShape : list (string * schema) :=
  [("scope1", totalSchema);
   ("scope2", scope2Schema);
   ("scope3", scope3Schema);
   ("biogenic", totalSchema);
   ("statedTotalEmissions", statedTotalEmissionsSchema);
   ("scope1And2", totalSchema)].

Definition emissionsSchema : schema := optional (object emissionsShape).

Definition turnoverSchema : schema :=
  nullable (optional (object [("value", optional number);
                              ("currency", optional string_)])).

Definition employeesSchema : schema :=
  nullable (optional (object [("value", optional number);
                              ("unit", optional string_)])).

Definition economyShape : list (string * schema) :=
  [("turnover", turnoverSchema); ("employees", employeesSchema)].

Definition economySchema : schema := optional (object economyShape).

(** Line 509: [startDate.getTime() < endDate.getTime()]. *)
Definition startsBeforeEnd (period : value) : bool :=
  match get "startDate" period, get "endDate" period with
  | VDate s, VDate e => (s <? e)%Z
  | _, _ => false
  end.

Definition reportingPeriodShape : list (string * schema) :=
  [("startDate", coerce_date); ("endDate", coerce_date);
   ("reportURL", optional string_);
   ("emissions", emissionsSchema); ("economy", economySchema)].

Definition reportingPeriodSchema : schema :=
  refine (object reportingPeriodShape) startsBeforeEnd.

Definition postReportingPeriodsSchema : schema :=
  object [("reportingPeriods", array reportingPeriodSchema)].

Definition postEmissionsBodySchema : schema := object [("emissions", emissionsSchema)].
Definition postEconomyBodySchema : schema := object [("economy", economySchema)].

(** *** Handlers *)

Record request : Type := { params : value; body : value }.

Definition ok : value := VObj [("ok", VBool true)].

Definition ZodError : value := VObj [("name", VStr "ZodError")].
Definition TypeError : value := VObj [("name", VStr "TypeError")].

Definition GarboAPIError (message : string) (original : value) : value :=
  VObj [("name", VStr "GarboAPIError"); ("message", VStr message);
        ("original", original); ("statusCode", VNum (inject_Z 500))].

(** An element of an array handed to [Promise.allSettled]: a plain value, or
    the promise of a gateway call. *)
Inductive entry : Type :=
| plain (v : value)
| pending (c : call).

(** [x !== undefined && f(...)]. *)
Definition whenDefined (x : value) (f : operation) (a : list value) : entry :=
  if is_undefined x then plain (VBool false) else pending {| fn := f; args := a |}.

(** [x && f(...)]. *)
Definition whenTruthy (x : value) (f : operation) (a : list value) : entry :=
  if truthy x then pending {| fn := f; args := a |} else plain x.

(** Lines 575-595; [turnover] is the turnover after lines 570-573. *)
Definition periodFieldGroups (dbEmissions dbEconomy emissions economy turnover
    metadata : value) : list entry :=
  let scope1 := get "scope1" emissions in
  let scope2 := get "scope2" emissions in
  let scope3 := get "scope3" emissions in
  let statedTotalEmissions := get "statedTotalEmissions" emissions in
  let biogenic := get "biogenic" emissions in
  let scope1And2 := get "scope1And2" emissions in
  let employees := get "employees" economy in
  [ whenDefined scope1 upsertScope1 [dbEmissions; scope1; metadata];
    whenDefined scope2 upsertScope2 [dbEmissions; scope2; metadata];
    whenTruthy scope3 upsertScope3 [dbEmissions; scope3; metadata];
    whenDefined statedTotalEmissions upsertStatedTotalEmissions
      [dbEmissions; statedTotalEmissions; metadata];
    whenDefined biogenic upsertBiogenic [dbEmissions; biogenic; metadata];
    whenDefined scope1And2 upsertScope1And2 [dbEmissions; scope1And2; metadata];
    whenDefined turnover upsertTurnover [dbEconomy; turnover; metadata];
    whenDefined employees upsertEmployees [dbEconomy; employees; metadata] ].

(** Lines 683-697. *)
Definition emissionsFieldGroups (dbEmissions emissions metadata : value)
  : list entry :=
  let scope1 := get "scope1" emissions in
  let scope2 := get "scope2" emissions in
  let scope3 := get "scope3" emissions in
  let scope1And2 := get "scope1And2" emissions in
  let statedTotalEmissions := get "statedTotalEmissions" emissions in
  let biogenic := get "biogenic" emissions in
  [ whenDefined scope1 upsertScope1 [dbEmissions; scope1; metadata];
    whenDefined scope2 upsertScope2 [dbEmissions; scope2; metadata];
    whenTruthy scope3 upsertScope3 [dbEmissions; scope3; metadata];
    whenDefined scope1And2 upsertScope1And2 [dbEmissions; scope1And2; metadata];
    whenDefined statedTotalEmissions upsertStatedTotalEmissions
      [dbEmissions; statedTotalEmissions; metadata];
    whenDefined biogenic upsertBiogenic [dbEmissions; biogenic; metadata] ].

(** Lines 730-734. *)
Definition economyFieldGroups (economy turnover employees metadata : value)
  : list entry :=
  [ whenDefined turnover upsertTurnover [economy; turnover; metadata];
    whenDefined employees upsertEmployees [economy; employees; metadata] ].

(** Lines 570-573: [if (turnover?.currency) turnover.currency =
    turnover.currency.trim().toUpperCase()].  [toUpperCase] is
    [String.prototype.toUpperCase] of the runtime. *)
Definition normalisePeriodTurnover (toUpperCase : string -> string)
    (turnover : value) : promise value :=
  if truthy (get "currency" turnover) then
    match get "currency" turnover with
    | VStr c =>
        ret (VObj (set "currency" (VStr (toUpperCase (trim c))) (spread turnover)))
    | _ => throw TypeError
    end
  else ret turnover.

(** Lines 723-726: [if (turnover) turnover.currency =
    turnover?.currency?.trim()?.toUpperCase()]. *)
Definition normaliseEconomyTurnover (toUpperCase : string -> string)
    (turnover : value) : promise value :=
  if truthy turnover then
    match get "currency" turnover with
    | VUndefined | VNull =>
        ret (VObj (set "currency" VUndefined (spread turnover)))
    | VStr c =>
        ret (VObj (set "currency" (VStr (toUpperCase (trim c))) (spread turnover)))
    | _ => throw TypeError
    end
  else ret turnover.

Section Handlers.
(** [String.prototype.toUpperCase], [new Date(v).getTime()] and
    [d.getFullYear().toString()] are the runtime's; [gateway] is the
    behaviour of [../lib/prisma]. *)
Variable toUpperCase : string -> string.
Variable newDate : value -> option Z.
Variable yearOf : Z -> string.
Variable gateway : history -> call -> settled value.

Definition run (e : entry) : promise value :=
  match e with
  | plain v => ret v
  | pending c => invoke gateway (fn c) (args c)
  end.

(** Lines 127-137, 204-214, 293-303. *)
Definition postCollection (field : string) (create : operation)
    (req : request) (locals : value) : promise value :=
  let items := get field (body req) in
  (if truthy (length_of items) then
     invoke gateway create
       [get "wikidataId" (params req); items; get "metadata" locals]
   else ret VUndefined) ;;
  ret ok.

Definition postGoals := postCollection "goals" createGoals.
Definition postInitiatives := postCollection "initiatives" createInitiatives.
Definition postEqualities := postCollection "equalities" createEqualities.

(** Lines 528-596: what is done for one reporting period. *)
Definition savePeriod (company metadata period : value) : promise value :=
  let emissions := orDefault (get "emissions" period) (VObj []) in
  let economy := orDefault (get "economy" period) (VObj []) in
  let startDate := get "startDate" period in
  let endDate := get "endDate" period in
  let reportURL := get "reportURL" period in
  match endDate with
  | VDate t =>
      let year := VStr (yearOf t) in
      reportingPeriod <-
        invoke gateway upsertReportingPeriod
          [company; metadata;
           VObj [("startDate", startDate); ("endDate", endDate);
                 ("reportURL", reportURL); ("year", year)]] ;;
      dbs <-
        all [ invoke gateway upsertEmissions
                [VObj [("emissionsId",
                         nullish (get "emissionsId" reportingPeriod) (VNum 0));
                       ("companyId", get "wikidataId" company);
                       ("year", year)]];
              invoke gateway upsertEconomy
                [VObj [("economyId",
                         nullish (get "economyId" reportingPeriod) (VNum 0));
                       ("companyId", get "wikidataId" company);
                       ("year", year)]] ] ;;
      let dbEmissions := nth 0 dbs VUndefined in
      let dbEconomy := nth 1 dbs VUndefined in
      turnover <- normalisePeriodTurnover toUpperCase (get "turnover" economy) ;;
      allSettled
        (map run
           (periodFieldGroups dbEmissions dbEconomy emissions economy turnover
              metadata)) ;;
      ret VUndefined
  | _ => throw TypeError
  end.

(** Lines 520-607. *)
Definition postReportingPeriods (req : request) (locals : value)
  : promise value :=
  match parse newDate postReportingPeriodsSchema (body req) with
  | None => throw ZodError
  | Some parsed =>
      let metadata := get "metadata" locals in
      let company := get "company" locals in
      match get "reportingPeriods" parsed with
      | VArr reportingPeriods =>
          try_catch
            (allSettled (map (savePeriod company metadata) reportingPeriods) ;;
             ret VUndefined)
            (fun error =>
               throw (GarboAPIError "Failed to update reporting periods" error)) ;;
          ret ok
      | _ => throw TypeError
      end
  end.

(** Lines 664-706. *)
Definition postEmissions (req : request) (locals : value) : promise value :=
  match parse newDate postEmissionsBodySchema (body req) with
  | None => throw ZodError
  | Some parsed =>
      let emissions := orDefault (get "emissions" parsed) (VObj []) in
      let metadata := get "metadata" locals in
      let dbEmissions := get "emissions" locals in
      try_catch
        (allSettled (map run (emissionsFieldGroups dbEmissions emissions metadata)) ;;
         ret VUndefined)
        (fun error => throw (GarboAPIError "Failed to update emissions" error)) ;;
      ret ok
  end.

(** Lines 716-743. *)
Definition postEconomy (req : request) (locals : value) : promise value :=
  match parse newDate postEconomyBodySchema (body req) with
  | None => throw ZodError
  | Some parsedBody =>
      let economyBody := nullish (get "economy" parsedBody) (VObj []) in
      let employees := get "employees" economyBody in
      let metadata := get "metadata" locals in
      let economy := get "economy" locals in
      turnover <- normaliseEconomyTurnover toUpperCase (get "turnover" economyBody) ;;
      try_catch
        (allSettled (map run (economyFieldGroups economy turnover employees metadata)) ;;
         ret VUndefined)
        (fun error => throw (GarboAPIError "Failed to update economy" error)) ;;
      ret ok
  end.
End Handlers.

End Routes.

(** ** Pieces of a split *)

Module Pieces.

(** No character of [s] is whitespace. *)
Fixpoint no_space (s : string) : bool :=
  match s with
  | EmptyString => true
  | String c r => negb (is_space c) && no_space r
  end.

(** Every piece but the last one is non-empty. *)
Fixpoint inner_nonempty (l : list string) : bool :=
  match l with
  | [] => true
  | [_] => true
  | y :: r => negb (y =? "") && inner_nonempty r
  end.

(** What [split(/\s+/)] returns, also after pieces were filtered out or the
    last one dropped: pieces without whitespace, none of them empty except
    possibly the first and the last. *)
Definition well_formed (l : list string) : bool :=
  forallb no_space l && inner_nonempty (tl l).

(** Prepend a text without separator to the first piece. *)
Definition prepend (x : string) (pieces : list string) : list string :=
  match pieces with
  | [] => [x]
  | t :: ts => (x ++ t) :: ts
  end.

(** A text made of well-formed pieces joined by single spaces. *)
Definition normal (q : string) : Prop :=
  exists l, l <> [] /\ well_formed l = true /\ q = join " " l.

End Pieces.

(** ** Notions used to state the properties of [diffEqualities] *)

Module DiffEqualitiesFacts.
Import DiffEqualities.

(** A stored company whose goals and equalities differ, and a job that
    proposes the stored equalities again. *)
Definition storedGoals : value :=
  VArr [VObj [("description", VStr "Net zero by 2030")]].

Definition storedEqualities : value :=
  VArr [VObj [("goals", VArr [VObj [("description", VStr "Equal pay")]])]].

Definition resubmission : value :=
  VObj [("url", VStr "https://example.com/report.pdf");
        ("companyName", VStr "Acme");
        ("existingCompany",
          VObj [("goals", storedGoals); ("equalities", storedEqualities)]);
        ("wikidata", VObj [("node", VStr "Q1")]);
        ("equalities", storedEqualities)].

(** Modelled from the spec: [diffChanges] is in [lib/saveUtils], which is not
    among the sources.  Section 3 of the specification gives its result the
    invariant "requiresApproval: true whenever changes is non-empty". *)
Definition consistent (r : DiffResult) : Prop :=
  truthy (diff r) = true -> requiresApproval r = VBool true.

(** The keys that the save payload sets itself (lines 166-172). *)
Definition payloadKeys : list string :=
  ["body"; "diff"; "requiresApproval"; "apiSubEndpoint"; "equalities"].

End DiffEqualitiesFacts.

(** ** Notions used to state the properties of the schemas *)

Module ZodFacts.
Import Zod.

Section Fields.
Variable newDate : value -> option Z.

(** The fields of an object schema, parsed one after the other: the inner
    loop of [parse] on [object]. *)
Fixpoint parse_fields (v : value) (o : obj) (sh : list (string * schema))
  : option obj :=
  match sh with
  | [] => Some []
  | (k, sk) :: rest =>
      match parse newDate sk (get k v), parse_fields v o rest with
      | Some x, Some r =>
          Some (if has_key k o || negb match x with VUndefined => true | _ => false end
                then (k, x) :: r else r)
      | _, _ => None
      end
  end.

(** The items of an array schema: the inner loop of [parse] on [array]. *)
Fixpoint parse_items (item : schema) (l : list value) : option (list value) :=
  match l with
  | [] => Some []
  | x :: r =>
      match parse newDate item x, parse_items item r with
      | Some x', Some r' => Some (x' :: r')
      | _, _ => None
      end
  end.
End Fields.

End ZodFacts.

(** ** Notions used to state the properties of the routes *)

Module RoutesFacts.
Import Zod Async Routes.

(** The gateway calls among the entries of an array, in order. *)
Fixpoint calls_of (es : list entry) : list call :=
  match es with
  | [] => []
  | plain _ :: rest => calls_of rest
  | pending c :: rest => c :: calls_of rest
  end.

(** Whatever the history before it, [m] only adds calls, all of which
    satisfy [P]. *)
Definition adds {A : Type} (P : call -> Prop) (m : promise A) : Prop :=
  forall h, exists added, snd (m h) = (h ++ added)%list /\ Forall P added.

(** The calls a promise adds to the history [h]. *)
Definition added {A : Type} (m : promise A) (h : history) : list call :=
  skipn (List.length h) (snd (m h)).

(** The three upserts that open a reporting-period save (lines 536-558). *)
Definition opening (f : operation) : bool :=
  match f with
  | upsertReportingPeriod | upsertEmissions | upsertEconomy => true
  | _ => false
  end.

(** The gateway fulfils the opening upserts. *)
Definition opens (gateway : history -> call -> settled value) : Prop :=
  forall h c, opening (fn c) = true -> exists v, gateway h c = fulfilled v.

(** Lines 529-530. *)
Definition emissionsOf (period : value) : value :=
  orDefault (get "emissions" period) (VObj []).

Definition economyOf (period : value) : value :=
  orDefault (get "economy" period) (VObj []).

(** The nullable field groups of a reporting period, with their upsert. *)
Definition emissionsGroups : list (string * operation) :=
  [("scope1", upsertScope1); ("scope2", upsertScope2);
   ("biogenic", upsertBiogenic);
   ("statedTotalEmissions", upsertStatedTotalEmissions);
   ("scope1And2", upsertScope1And2)].

Definition economyGroups : list (string * operation) :=
  [("turnover", upsertTurnover); ("employees", upsertEmployees)].

(** A gateway that fulfils every call. *)
Definition fulfilling : history -> call -> settled value :=
  fun _ _ => fulfilled (VObj [("id", VNum 1)]).

(** A gateway that rejects the scope 1 upsert and fulfils every other call. *)
Definition rejectingScope1 : history -> call -> settled value :=
  fun _ c =>
    match fn c with
    | upsertScope1 => rejected (VStr "P2025")
    | _ => fulfilled (VObj [("id", VNum 1)])
    end.

(** Dates given as numbers of milliseconds. *)
Definition dateOfNumber (v : value) : option Z :=
  match v with VNum q => Some (Qnum q / Zpos (Qden q))%Z | _ => None end.

(** An entry that is a call satisfies [P]. *)
Definition entry_ok (P : call -> Prop) (e : entry) : Prop :=
  match e with plain _ => True | pending c => P c end.

(** The first call of a reporting-period save (lines 536-545). *)
Definition openingCall (yearOf : Z -> string) (company metadata period : value)
    (t : Z) : call :=
  {| fn := upsertReportingPeriod;
     args := [company; metadata;
              VObj [("startDate", get "startDate" period);
                    ("endDate", get "endDate" period);
                    ("reportURL", get "reportURL" period);
                    ("year", VStr (yearOf t))]] |}.

(** A request to the per-year economy handler with a turnover in [" sek "],
    its validated body and the locals of the response. *)
Definition sekRequest : request :=
  {| params := VObj [("wikidataId", VStr "Q1"); ("year", VStr "2023")];
     body := VObj [("economy",
                     VObj [("turnover",
                             VObj [("value", VNum (inject_Z 1000));
                                   ("currency", VStr " sek ")])])] |}.

Definition sekLocals : value :=
  VObj [("metadata", VObj [("source", VStr "report")]);
        ("economy", VObj [("id", VNum 7)])].

(** The nullable group [g], upserted by [op], has the value [submitted] in
    the reporting period [period] (of the request, or validated). *)
Definition submittedAs (period : value) (g : string) (op : operation)
    (submitted : value) : Prop :=
  (In (g, op) emissionsGroups /\ get g (emissionsOf period) = submitted) \/
  (In (g, op) economyGroups /\ get g (economyOf period) = submitted).

(** A reporting period that clears its scope 1 and its turnover and says
    nothing of the other groups, and the period that validation makes of it. *)
Definition clearingPeriod : value :=
  VObj [("startDate", VNum (inject_Z 1672531200000));
        ("endDate", VNum (inject_Z 1704067199000));
        ("emissions", VObj [("scope1", VNull)]);
        ("economy", VObj [("turnover", VNull)])].

Definition clearingPeriodValidated : value :=
  VObj [("startDate", VDate 1672531200000);
        ("endDate", VDate 1704067199000);
        ("emissions", VObj [("scope1", VNull)]);
        ("economy", VObj [("turnover", VNull)])].

(** A request to the per-year emissions handler with scope 1 and biogenic
    emissions, and the locals of the response. *)
Definition emissionsRequest : request :=
  {| params := VObj [("wikidataId", VStr "Q1"); ("year", VStr "2023")];
     body := VObj [("emissions",
                     VObj [("scope1", VObj [("total", VNum (inject_Z 12))]);
                           ("biogenic", VObj [("total", VNum (inject_Z 3))])])] |}.

Definition emissionsLocals : value :=
  VObj [("metadata", VObj [("source", VStr "report")]);
        ("emissions", VObj [("id", VNum 5)])].

End RoutesFacts.

(** ** Notions used to state further properties of the routes *)

Module RoutesMore.
Import Zod Async Routes RoutesFacts.

Definition is_upsertReportingPeriod (c : call) : bool :=
  match fn c with upsertReportingPeriod => true | _ => false end.

(** The opening call of a validated period (its end date is a date). *)
Definition periodCall (yearOf : Z -> string) (company metadata period : value)
  : call :=
  match get "endDate" period with
  | VDate t => openingCall yearOf company metadata period t
  | _ => {| fn := upsertReportingPeriod; args := [] |}
  end.

(** The create call of a collection route (lines 134, 211, 300). *)
Definition createCall (create : operation) (field : string) (req : request)
    (locals : value) : call :=
  {| fn := create;
     args := [get "wikidataId" (params req); get field (body req);
              get "metadata" locals] |}.

End RoutesMore.

(** ** Sample requests and gateways *)

Module Samples.
Import Zod Async Routes RoutesFacts.

(** What [toLowerCase] does to Latin-1 text: besides A-Z, the letters U+00C0
    to U+00DE but the sign U+00D7 are mapped to the letter 32 places on. *)
Definition latin1LowerCase : string -> string :=
  map_string
    (fun c =>
       if ((192 <=? c) && (c <=? 222) && negb (c =? 215))%N then (c + 32)%N
       else lower_char c).

(** A gateway that rejects every call. *)
Definition rejecting : history -> call -> settled value :=
  fun _ _ => rejected (VStr "connection lost").

(** A gateway that rejects [upsertEconomy] and fulfils every other call. *)
Definition rejectingEconomy : history -> call -> settled value :=
  fun _ c =>
    match fn c with
    | upsertEconomy => rejected (VStr "connection lost")
    | _ => fulfilled (VObj [("id", VNum 1)])
    end.

(** Two reporting periods, 2023 and 2022, as sent and as validated. *)
Definition period2023 : value :=
  VObj [("startDate", VNum (inject_Z 1672531200000));
        ("endDate", VNum (inject_Z 1704067199000))].

Definition period2022 : value :=
  VObj [("startDate", VNum (inject_Z 1640995200000));
        ("endDate", VNum (inject_Z 1672531199000))].

Definition validated2023 : value :=
  VObj [("startDate", VDate 1672531200000); ("endDate", VDate 1704067199000)].

Definition validated2022 : value :=
  VObj [("startDate", VDate 1640995200000); ("endDate", VDate 1672531199000)].

Definition twoPeriodsRequest : request :=
  {| params := VObj [("wikidataId", VStr "Q1")];
     body := VObj [("reportingPeriods", VArr [period2023; period2022])] |}.

Definition companyLocals : value :=
  VObj [("metadata", VObj [("source", VStr "report")]);
        ("company", VObj [("wikidataId", VStr "Q1")])].

End Samples.

(** ** Emissions that validation refuses *)

Module Refusal.
Import Zod Async Routes.

(** Both handlers that take emissions reject a body that carries the
    emissions [e], before any call: the per-year handler for a body whose
    emissions are [e], the handler of the reporting periods for a body one of
    whose periods has the emissions [e]. *)
Definition refused (newDate : value -> option Z) (e : value) : Prop :=
  forall (toUpperCase : string -> string) (yearOf : Z -> string)
         (gateway : history -> call -> settled value)
         (req : request) (locals : value) (h : history),
    (get "emissions" (body req) = e ->
     postEmissions newDate gateway req locals h = (rejected ZodError, h)) /\
    (forall raws raw,
        get "reportingPeriods" (body req) = VArr raws -> In raw raws ->
        get "emissions" raw = e ->
        postReportingPeriods toUpperCase newDate yearOf gateway req locals h
        = (rejected ZodError, h)).

End Refusal.

(** ** The routes that write a single record *)

Module Records.
Import Zod.

(** The operations of [../lib/prisma] and of the prisma client that these
    routes call.  As for the other routes, each is taken to return a
    promise. *)
Inductive operation : Type :=
| findFirstCompany | findFirstIndustry | upsertCompany
| updateGoal | deleteGoal | updateInitiative | deleteInitiative
| updateEquality | deleteEquality
| updateIndustry | createIndustry | updateReportingPeriodReportURL.

(** A call of the gateway and what it settled to. *)
Record event : Type :=
  { fn : operation; args : list value; outcome : Async.settled value }.

(** The calls made so far, oldest first. *)
Definition log : Type := list event.

Definition promise (A : Type) : Type := log -> Async.settled A * log.

Definition ret {A : Type} (a : A) : promise A := fun h => (Async.fulfilled a, h).

Definition throw {A : Type} (reason : value) : promise A :=
  fun h => (Async.rejected reason, h).

(** [await m], then [k]. *)
Definition bind {A B : Type} (m : promise A) (k : A -> promise B) : promise B :=
  fun h =>
    match m h with
    | (Async.fulfilled a, h') => k a h'
    | (Async.rejected e, h') => (Async.rejected e, h')
    end.

(** [m.catch(handler)] and [try { await m } catch (error) { handler }]. *)
Definition catch {A : Type} (m : promise A) (handler : value -> promise A)
  : promise A :=
  fun h =>
    match m h with
    | (Async.fulfilled a, h') => (Async.fulfilled a, h')
    | (Async.rejected e, h') => handler e h'
    end.

Definition succeeded (ev : event) : bool :=
  match outcome ev with Async.fulfilled _ => true | Async.rejected _ => false end.

(** [new GarboAPIError(message, options)], with the options of the call
    site. *)
Definition apiError (message : string) (options : obj) : value :=
  VObj (("name", VStr "GarboAPIError") :: ("message", VStr message) :: options).

(** Lines 355-359. *)
Definition industrySchema : schema :=
  object [("industry", object [("subIndustryCode", string_)])].

Section Handlers.
(** [gateway] is the behaviour of [../lib/prisma]; [isKnownRequestError] is
    [error instanceof Prisma.PrismaClientKnownRequestError]; [newDate] is the
    runtime's; [wikidataIdSchema] is the schema of [./companySchemas] and
    [isURL] the check of [z.string().url()]. *)
Variable gateway : log -> operation -> list value -> Async.settled value.
Variable isKnownRequestError : value -> bool.
Variable newDate : value -> option Z.
Variable wikidataIdSchema : schema.
Variable isURL : value -> bool.

Definition invoke (f : operation) (a : list value) : promise value :=
  fun h =>
    let r := gateway h f a in
    (r, (h ++ [{| fn := f; args := a; outcome := r |}])%list).

(** Lines 53-60. *)
Definition upsertCompanyBodySchema : schema :=
  object [("wikidataId", wikidataIdSchema);
          ("name", string_);
          ("description", optional string_);
          ("url", optional (refine string_ isURL));
          ("internalComment", optional string_);
          ("tags", optional (array string_))].

(** Lines 64-87; the answer is the company that the gateway returned. *)
Definition handleCompanyUpsert (req : Routes.request) (locals : value)
  : promise value :=
  match parse newDate upsertCompanyBodySchema (Routes.body req) with
  | None => throw Routes.ZodError
  | Some parsed =>
      catch
        (invoke upsertCompany
           [VObj [("wikidataId", get "wikidataId" parsed);
                  ("name", get "name" parsed);
                  ("description", get "description" parsed);
                  ("url", get "url" parsed);
                  ("internalComment", get "internalComment" parsed);
                  ("tags", get "tags" parsed)]])
        (fun error =>
           throw (apiError "Failed to upsert company" [("original", error)]))
  end.



(** Lines 151-154 and alike. *)
Definition recordNotFound (error : value) : bool :=
  isKnownRequestError error &&
  match get "code" error with
  | VStr code => code =? "P2025"
  | _ => false
  end.

(** Lines 150-161 and alike: [.catch((error) => { ... })]. *)
Definition orNotFound (message : string) (m : promise value) : promise value :=
  catch m
    (fun error =>
       if recordNotFound error then
         throw (apiError message
                  [("statusCode", VNum (inject_Z 404)); ("original", error)])
       else throw error).

(** Lines 146-163. *)
Definition patchGoal (req : Routes.request) (locals : value) : promise value :=
  bind
    (orNotFound "Goal not found"
       (invoke updateGoal
          [get "id" (Routes.params req); get "goal" (Routes.body req);
           get "metadata" locals]))
    (fun _ => ret Routes.ok).

(** Lines 171-186. *)
Definition deleteGoalRoute (req : Routes.request) (locals : value)
  : promise value :=
  bind
    (orNotFound "Goal not found"
       (invoke deleteGoal [get "id" (Routes.params req)]))
    (fun _ => ret Routes.ok).

(** Lines 223-240. *)
Definition patchInitiative (req : Routes.request) (locals : value)
  : promise value :=
  bind
    (orNotFound "Initiative not found"
       (invoke updateInitiative
          [get "id" (Routes.params req); get "initiative" (Routes.body req);
           get "metadata" locals]))
    (fun _ => ret Routes.ok).

(** Lines 248-263. *)
Definition deleteInitiativeRoute (req : Routes.request) (locals : value)
  : promise value :=
  bind
    (orNotFound "Initiative not found"
       (invoke deleteInitiative [get "id" (Routes.params req)]))
    (fun _ => ret Routes.ok).

(** Lines 312-329. *)
Definition patchEquality (req : Routes.request) (locals : value)
  : promise value :=
  bind
    (orNotFound "Equality not found"
       (invoke updateEquality
          [get "id" (Routes.params req); get "equality" (Routes.body req);
           get "metadata" locals]))
    (fun _ => ret Routes.ok).

(** Lines 337-352. *)
Definition deleteEqualityRoute (req : Routes.request) (locals : value)
  : promise value :=
  bind
    (orNotFound "Equality not found"
       (invoke deleteEquality [get "id" (Routes.params req)]))
    (fun _ => ret Routes.ok).

(** Lines 364-403. *)
Definition postIndustry (req : Routes.request) (locals : value) : promise value :=
  let industry := get "industry" (Routes.body req) in
  let subIndustryCode := get "subIndustryCode" industry in
  if negb (truthy subIndustryCode) then
    throw (apiError "Unable to update industry" [])
  else
    let wikidataId := get "wikidataId" (Routes.params req) in
    let metadata := get "metadata" locals in
    bind
      (invoke findFirstIndustry
         [VObj [("where", VObj [("companyWikidataId", wikidataId)])]])
      (fun current =>
         bind
           (if truthy current then
              catch
                (invoke updateIndustry
                   [wikidataId; VObj [("subIndustryCode", subIndustryCode)];
                    metadata])
                (fun error =>
                   throw (Routes.GarboAPIError "Failed to update industry" error))
            else
              catch
                (invoke createIndustry
                   [wikidataId; VObj [("subIndustryCode", subIndustryCode)];
                    metadata])
                (fun error =>
                   throw (Routes.GarboAPIError "Failed to create industry" error)))
           (fun _ => ret Routes.ok)).

(** Lines 621-644. *)
Definition patchReportURL (req : Routes.request) (locals : value)
  : promise value :=
  let reportURL := get "reportURL" (Routes.body req) in
  let year := get "year" (Routes.body req) in
  let company := get "company" locals in
  catch
    (bind (invoke updateReportingPeriodReportURL [company; year; reportURL])
       (fun updatedPeriod =>
          ret (VObj [("ok", VBool true);
                     ("message",
                       VStr (if truthy updatedPeriod
                             then "Sucessfully updated reportUrl"
                             else " No reporting period found"))])))
    (fun error => throw (Routes.GarboAPIError "Failed to update reportUrl" error)).

(** The handlers of this part. *)
Definition routes : list (Routes.request -> value -> promise value) :=
  [handleCompanyUpsert; patchGoal; deleteGoalRoute; patchInitiative;
   deleteInitiativeRoute; patchEquality; deleteEqualityRoute; postIndustry;
   patchReportURL].
End Handlers.

(** *** Sample gateways and requests *)

Definition sampleKnownRequestError (error : value) : bool :=
  match get "name" error with
  | VStr name => name =? "PrismaClientKnownRequestError"
  | _ => false
  end.

(** A gateway that finds no record. *)
Definition missing : log -> operation -> list value -> Async.settled value :=
  fun _ f _ =>
    match f with
    | findFirstCompany | findFirstIndustry => Async.fulfilled VNull
    | _ => Async.rejected (VObj [("name", VStr "PrismaClientKnownRequestError");
                                 ("code", VStr "P2025")])
    end.

Definition goalRequest : Routes.request :=
  {| Routes.params := VObj [("wikidataId", VStr "Q1"); ("id", VNum (inject_Z 7))];
     Routes.body := VObj [("goal", VObj [("description", VStr "Net zero")])] |}.

Definition industryRequest (code : string) : Routes.request :=
  {| Routes.params := VObj [("wikidataId", VStr "Q1")];
     Routes.body := VObj [("industry", VObj [("subIndustryCode", VStr code)])] |}.

Definition reportURLRequest : Routes.request :=
  {| Routes.params := VObj [("wikidataId", VStr "Q1")];
     Routes.body := VObj [("year", VStr "2023");
                          ("reportURL", VStr "https://example.com/2023.pdf")] |}.

End Records.

(** * Properties *)

(** ** Strings *)

Section StringFacts.
Lemma string_eqb_refl (s : string) : (s =? s) = true.
Proof.
  induction s as [|c s IH]; [reflexivity|]. simpl. now rewrite N.eqb_refl, IH.
Qed.

Lemma string_eqb_eq (s t : string) : (s =? t) = true <-> s = t.
Proof.
  split; [|intros ->; apply string_eqb_refl].
  revert t. induction s as [|c s IH]; intros [|d t] H; try discriminate;
    [reflexivity|].
  simpl in H. apply andb_prop in H as [Hc Hs].
  apply N.eqb_eq in Hc. apply IH in Hs. now subst.
Qed.

Lemma string_eqb_neq (s t : string) : (s =? t) = false <-> s <> t.
Proof.
  rewrite <- string_eqb_eq. destruct (s =? t); intuition congruence.
Qed.
End StringFacts.


(** ** Objects *)

Section ObjectFacts.
Lemma lookup_set_same k v o : lookup k (set k v o) = Some v.
Proof.
  induction o as [|[k' v'] o IH]; simpl.
  - now rewrite string_eqb_refl.
  - destruct (k =? k') eqn:E; simpl.
    + now rewrite string_eqb_refl.
    + now rewrite E.
Qed.

Lemma lookup_set_other k k' v o : k' <> k -> lookup k' (set k v o) = lookup k' o.
Proof.
  intros Hne. induction o as [|[k0 v0] o IH]; simpl.
  - apply string_eqb_neq in Hne. now rewrite Hne.
  - destruct (k =? k0) eqn:E; simpl.
    + apply string_eqb_eq in E. subst k0.
      apply string_eqb_neq in Hne. now rewrite Hne.
    + destruct (k' =? k0); [reflexivity | exact IH].
Qed.

Lemma get_set_same k v o : get k (VObj (set k v o)) = v.
Proof. unfold get. now rewrite lookup_set_same. Qed.

Lemma get_set_other k k' v o :
  k' <> k -> get k' (VObj (set k v o)) = get k' (VObj o).
Proof. intros H. unfold get. now rewrite lookup_set_other. Qed.

Lemma get_spread k v : get k (VObj (spread v)) = get k v.
Proof. destruct v; reflexivity. Qed.
End ObjectFacts.

(** ** Ranking of the candidates *)

Section Ranking.
Import GuessWikidata.

Lemma insert_signalled x l :
  hasEmissions x = true -> insert_sorted byEmissions x l = x :: l.
Proof.
  intros Hx. destruct l as [|y r]; [reflexivity|].
  simpl. unfold byEmissions. rewrite Hx.
  destruct (hasEmissions y); reflexivity.
Qed.

Lemma insert_unsignalled x front back :
  hasEmissions x = false ->
  Forall (fun y => hasEmissions y = true) front ->
  Forall (fun y => hasEmissions y = false) back ->
  insert_sorted byEmissions x (front ++ back)%list = (front ++ x :: back)%list.
Proof.
  intros Hx Hfront Hback.
  induction Hfront as [|y front Hy _ IH]; simpl.
  - destruct Hback as [|z back Hz _]; [reflexivity|].
    simpl. unfold byEmissions. now rewrite Hx, Hz.
  - unfold byEmissions at 1. rewrite Hx, Hy. simpl. now rewrite IH.
Qed.

Lemma filter_all {A} (f : A -> bool) l : Forall (fun y => f y = true) (filter f l).
Proof.
  apply Forall_forall. intros y Hy. now apply filter_In in Hy.
Qed.

(** [toSorted] rearranges its argument, whatever the comparator. *)
Lemma toSorted_permutation {A} (cmp : A -> A -> Z) l :
  Permutation (toSorted cmp l) l.
Proof.
  assert (Hins : forall x m, Permutation (insert_sorted cmp x m) (x :: m)).
  { intros x m. induction m as [|y m IH]; simpl; [reflexivity|].
    destruct (cmp x y <=? 0)%Z; [reflexivity|].
    rewrite IH. apply perm_swap. }
  induction l as [|x l IH]; simpl; [constructor|].
  rewrite Hins. now constructor.
Qed.

(** A stable sort on the key "has no P5991 claim" is a stable partition. *)
Lemma toSorted_byEmissions results :
  toSorted byEmissions results =
  (filter hasEmissions results
     ++ filter (fun e => negb (hasEmissions e)) results)%list.
Proof.
  induction results as [|x l IH]; [reflexivity|].
  simpl. rewrite IH. destruct (hasEmissions x) eqn:Hx; simpl.
  - now apply insert_signalled.
  - apply insert_unsignalled; [exact Hx | apply filter_all |].
    apply Forall_forall. intros y Hy. apply filter_In in Hy.
    now apply negb_true_iff.
Qed.

Lemma withoutClaims_claims e : get "claims" (withoutClaims e) = VUndefined.
Proof. unfold withoutClaims. apply get_set_same. Qed.

End Ranking.

(** C5.  The candidates handed to the Extraction Service are the fetched
    records with the ones that have a P5991 claim first, then the others,
    each group in its original order, and every one of them has its [claims]
    field set to [undefined]. *)
Theorem orderedResults_stable_partition (results : list value) :
  GuessWikidata.orderedResults results =
    map GuessWikidata.withoutClaims
      (filter GuessWikidata.hasEmissions results
         ++ filter (fun e => negb (GuessWikidata.hasEmissions e)) results)%list
  /\ Forall (fun e => get "claims" e = VUndefined)
       (GuessWikidata.orderedResults results).
Proof.
  unfold GuessWikidata.orderedResults. split.
  - now rewrite toSorted_byEmissions.
  - apply Forall_forall. intros e He. apply in_map_iff in He.
    destruct He as (e0 & <- & _). apply withoutClaims_claims.
Qed.

(** ** The request to the Extraction Service *)

Section Request.
Import GuessWikidata.
Variable wikidata_prompt : string.
Variable JSON_stringify : value -> string.

Lemma length_pos_nonempty s : (0 <? Str.length s)%nat = negb (s =? "").
Proof. destruct s; reflexivity. Qed.

Lemma join_newline_empty lines :
  join newline lines = "" <-> lines = [] \/ lines = [""].
Proof.
  split.
  - destruct lines as [|x [|y r]]; simpl; intros H.
    + now left.
    + right. now subst.
    + destruct x; discriminate.
  - intros [-> | ->]; reflexivity.
Qed.

Lemma present_app ms ms' :
  present (ms ++ ms') = (present ms ++ present ms')%list.
Proof.
  induction ms as [|[t|] ms IH]; simpl; [reflexivity | | exact IH].
  destruct (0 <? Str.length (content t))%nat; simpl; now rewrite IH.
Qed.

Lemma askMessages_stacktrace companyName ordered lines :
  askMessages wikidata_prompt JSON_stringify companyName ordered (Some lines) =
  (askMessages wikidata_prompt JSON_stringify companyName ordered None
     ++ (if join newline lines =? "" then [] else [stacktraceTurn lines]))%list.
Proof.
  unfold askMessages.
  set (base := firstn 4 (turns wikidata_prompt JSON_stringify companyName ordered None)).
  change (turns wikidata_prompt JSON_stringify companyName ordered (Some lines))
    with (base ++ [Some (stacktraceTurn lines)])%list.
  change (turns wikidata_prompt JSON_stringify companyName ordered None)
    with (base ++ [None])%list.
  rewrite !present_app. f_equal; [now rewrite app_nil_r|].
  cbn [present keepTurn]. rewrite length_pos_nonempty.
  cbn [content stacktraceTurn]. now destruct (join newline lines =? "").
Qed.
End Request.

(** C7, as the code has it.  When the stacktrace is an array whose messages
    joined by newlines give a non-empty text (every array but the empty one
    and the one holding a single empty message), the request has one more
    turn than without a stacktrace: a last turn of role user whose content
    is that text.  Without a stacktrace, or with one whose joined text is empty,
    the request is the one without that turn. *)
Theorem askMessages_retry_context (wikidata_prompt : string)
    (JSON_stringify : value -> string) (companyName : string)
    (ordered : list value) :
  let request := GuessWikidata.askMessages wikidata_prompt JSON_stringify
                   companyName ordered in
  (forall lines, lines <> [] -> lines <> [""] ->
     request (Some lines)
     = (request None ++ [GuessWikidata.stacktraceTurn lines])%list) /\
  request (Some []) = request None /\
  request (Some [""]) = request None.
Proof.
  cbv zeta. split; [|split].
  - intros lines Hne Hne'. rewrite askMessages_stacktrace.
    destruct (join GuessWikidata.newline lines =? "") eqn:E; [|reflexivity].
    apply string_eqb_eq, join_newline_empty in E. tauto.
  - rewrite askMessages_stacktrace. simpl. now rewrite app_nil_r.
  - rewrite askMessages_stacktrace. simpl. now rewrite app_nil_r.
Qed.

Lemma askMessages_retry_context_witness :
  GuessWikidata.askMessages "prompt" (fun _ => "[]") "Acme" []
    (Some ["timeout"; "could not parse"])
  = (GuessWikidata.askMessages "prompt" (fun _ => "[]") "Acme" [] None
       ++ [GuessWikidata.stacktraceTurn ["timeout"; "could not parse"]])%list.
Proof.
  apply (proj1 (askMessages_retry_context "prompt" (fun _ => "[]") "Acme" []));
    discriminate.
Defined.

(** A stacktrace holding one empty message is a non-empty array, yet the
    request has no turn for it: it is the request of a job without stacktrace. *)
Lemma askMessages_single_empty_message :
  let request := GuessWikidata.askMessages "prompt" (fun _ => "[]") "Acme" [] in
  [""] <> @nil string /\
  request (Some [""]) = request None /\
  request (Some [""])
    <> (request None ++ [GuessWikidata.stacktraceTurn [""]])%list /\
  ~ In (GuessWikidata.stacktraceTurn [""]) (request (Some [""])).
Proof.
  cbv zeta. split; [discriminate|]. split; [reflexivity|]. split.
  - vm_compute. discriminate.
  - vm_compute. intuition discriminate.
Qed.

(** ** The diffEqualities worker *)

Section DiffEqualitiesProofs.
Import DiffEqualities DiffEqualitiesFacts.
Variable defaultMetadata : value -> value.
Variable diffChanges : DiffArgs -> DiffResult.
Variable ToString : value -> string.

Lemma savePayload_fields data r :
  let payload := savePayload defaultMetadata data r in
  get "diff" payload = diff r /\
  get "requiresApproval" payload = requiresApproval r /\
  get "body" payload = body defaultMetadata data /\
  get "apiSubEndpoint" payload = VStr "equalities" /\
  get "equalities" payload = VUndefined.
Proof.
  cbv zeta. unfold savePayload.
  repeat split;
    repeat first [ apply get_set_same
                 | rewrite get_set_other by discriminate ].
Qed.

Lemma savePayload_frame data r k :
  ~ In k payloadKeys ->
  get k (savePayload defaultMetadata data r) = get k data.
Proof.
  intros Hk. unfold savePayload.
  rewrite !get_set_other; [apply get_spread | | | | |];
    intros ->; apply Hk; simpl; tauto.
Qed.
End DiffEqualitiesProofs.

(** C1, evaluated on the code.  For a job that proposes again the equalities
    already stored, the [before] fragment handed to [diffChanges] is the
    company's stored goals, which is not its stored equalities, while [after]
    is equal to the stored equalities; a diff engine that echoes the
    [before] fragment it was given returns the goals. *)
Theorem diffEqualities_before_is_goals :
  let args := DiffEqualities.diffArgs DiffEqualitiesFacts.resubmission in
  DiffEqualities.before args = DiffEqualitiesFacts.storedGoals /\
  DiffEqualities.before args
    <> get "equalities" (DiffEqualities.existingCompany args) /\
  DiffEqualities.after args
    = get "equalities" (DiffEqualities.existingCompany args) /\
  get "diff"
    (DiffEqualities.returned
       (DiffEqualities.diffEqualities (fun _ => VNull)
          (fun a => {| DiffEqualities.diff := DiffEqualities.before a;
                       DiffEqualities.requiresApproval := VBool true |})
          (fun _ => "") DiffEqualitiesFacts.resubmission))
    = DiffEqualitiesFacts.storedGoals.
Proof.
  cbv zeta. split; [reflexivity|]. split; [discriminate|].
  split; reflexivity.
Qed.

(** C2.  The worker enqueues nothing when the diff is empty (falsy) and
    exactly one save job when it is not; that job carries the diff, the
    approval flag, a body holding the proposed equalities and the metadata
    made from the job's url, the sub-endpoint name, [equalities] set to
    [undefined], and every other field of the job's data unchanged.  A diff result that obeys
    the specification's invariant and has [requiresApproval = false]
    enqueues nothing. *)
Theorem diffEqualities_enqueues_iff_diff
    (defaultMetadata : value -> value)
    (diffChanges : DiffEqualities.DiffArgs -> DiffEqualities.DiffResult)
    (ToString : value -> string) (data : value) :
  let r := diffChanges (DiffEqualities.diffArgs data) in
  let out := DiffEqualities.diffEqualities defaultMetadata diffChanges ToString data in
  (truthy (DiffEqualities.diff r) = false -> DiffEqualities.enqueued out = []) /\
  (truthy (DiffEqualities.diff r) = true ->
     exists job,
       DiffEqualities.enqueued out = [job] /\
       get "diff" (DiffEqualities.jobData job) = DiffEqualities.diff r /\
       get "requiresApproval" (DiffEqualities.jobData job)
         = DiffEqualities.requiresApproval r /\
       get "body" (DiffEqualities.jobData job)
         = VObj [("equalities", get "equalities" data);
                 ("metadata", defaultMetadata (get "url" data))] /\
       get "apiSubEndpoint" (DiffEqualities.jobData job) = VStr "equalities" /\
       get "equalities" (DiffEqualities.jobData job) = VUndefined /\
       forall k, ~ In k DiffEqualitiesFacts.payloadKeys ->
         get k (DiffEqualities.jobData job) = get k data) /\
  (DiffEqualitiesFacts.consistent r ->
   DiffEqualities.requiresApproval r = VBool false ->
   DiffEqualities.enqueued out = []).
Proof.
  cbv zeta. unfold DiffEqualities.diffEqualities. cbn [DiffEqualities.enqueued].
  set (r := diffChanges (DiffEqualities.diffArgs data)).
  split; [|split].
  - intros ->. reflexivity.
  - intros ->. eexists. split; [reflexivity|]. cbn [DiffEqualities.jobData].
    destruct (savePayload_fields defaultMetadata data r) as (H1 & H2 & H3 & H4 & H5).
    repeat split; try assumption.
    intros k Hk. now apply savePayload_frame.
  - intros Hinv Hfalse. destruct (truthy (DiffEqualities.diff r)) eqn:E; [|reflexivity].
    apply Hinv in E. congruence.
Qed.

Lemma diffEqualities_enqueues_iff_diff_witness :
  DiffEqualities.enqueued
    (DiffEqualities.diffEqualities (fun url => VObj [("source", url)])
       (fun _ => {| DiffEqualities.diff := VStr "";
                    DiffEqualities.requiresApproval := VBool false |})
       (fun _ => "") DiffEqualitiesFacts.resubmission) = [].
Proof.
  apply (proj1 (diffEqualities_enqueues_iff_diff (fun url => VObj [("source", url)])
           (fun _ => {| DiffEqualities.diff := VStr "";
                        DiffEqualities.requiresApproval := VBool false |})
           (fun _ => "") DiffEqualitiesFacts.resubmission)).
  reflexivity.
Defined.

Section PiecesFacts.
Import GuessWikidata.
Import Pieces.

Lemma append_empty s : s ++ "" = s.
Proof. induction s as [|c s IH]; simpl; [reflexivity | now rewrite IH]. Qed.

Lemma split_whitespace_nonempty s : split_whitespace s <> [].
Proof.
  induction s as [|c s IH]; simpl; [discriminate|].
  destruct (is_space c).
  - destruct (starts_with_space s); [exact IH | discriminate].
  - destruct (split_whitespace s); discriminate.
Qed.

Lemma split_char_nonempty sep s : split_char sep s <> [].
Proof.
  induction s as [|c s IH]; simpl; [discriminate|].
  destruct ((c =? sep)%N); [discriminate|].
  destruct (split_char sep s); discriminate.
Qed.

(** A text without whitespace in front of [s] only lengthens the first
    piece of [s]. *)
Lemma split_whitespace_prepend x s :
  no_space x = true ->
  split_whitespace (x ++ s) = prepend x (split_whitespace s).
Proof.
  intros Hx. induction x as [|c x IH]; simpl in *.
  - pose proof (split_whitespace_nonempty s).
    destruct (split_whitespace s); [congruence | reflexivity].
  - apply andb_prop in Hx as [Hc Hx]. apply negb_true_iff in Hc.
    rewrite Hc, (IH Hx).
    pose proof (split_whitespace_nonempty s). destruct (split_whitespace s); [congruence|].
    reflexivity.
Qed.

Lemma space_is_space : is_space 32 = true.
Proof. reflexivity. Qed.

Lemma no_space_not_blank c x :
  no_space (String c x) = true -> (c =? 32)%N = false.
Proof.
  simpl. intros H. apply andb_prop in H as [Hc _]. apply negb_true_iff in Hc.
  destruct ((c =? 32)%N) eqn:E; [|reflexivity].
  apply N.eqb_eq in E. subst c. discriminate.
Qed.

Lemma split_char_prepend x s :
  no_space x = true ->
  split_char 32 (x ++ s) = prepend x (split_char 32 s).
Proof.
  intros Hx. induction x as [|c x IH]; simpl in *.
  - pose proof (split_char_nonempty 32 s).
    destruct (split_char 32 s); [congruence | reflexivity].
  - rewrite (no_space_not_blank c x) by exact Hx.
    apply andb_prop in Hx as [_ Hx]. rewrite (IH Hx).
    pose proof (split_char_nonempty 32 s). destruct (split_char 32 s); [congruence|].
    reflexivity.
Qed.

Lemma join_cons x y r : join " " (x :: y :: r) = x ++ String 32 (join " " (y :: r)).
Proof. reflexivity. Qed.

Lemma starts_with_space_append x s :
  no_space x = true -> x <> "" -> starts_with_space (x ++ s) = false.
Proof.
  destruct x as [|c x]; [congruence|]. simpl. intros H _.
  apply andb_prop in H as [Hc _]. now apply negb_true_iff.
Qed.

Lemma starts_with_space_no_space x : no_space x = true -> starts_with_space x = false.
Proof.
  destruct x as [|c x]; [reflexivity|]. simpl. intros H.
  apply andb_prop in H as [Hc _]. now apply negb_true_iff.
Qed.

Lemma inner_nonempty_cons y z r :
  inner_nonempty (y :: z :: r) = negb (y =? "") && inner_nonempty (z :: r).
Proof. reflexivity. Qed.

Lemma inner_nonempty_tail y r : inner_nonempty (y :: r) = true -> inner_nonempty r = true.
Proof.
  destruct r as [|z r]; [reflexivity|]. cbn [inner_nonempty].
  intros H. now apply andb_prop in H.
Qed.

Lemma well_formed_tail x l : well_formed (x :: l) = true -> well_formed l = true.
Proof.
  unfold well_formed. simpl. intros H.
  apply andb_prop in H as [H1 H2]. apply andb_prop in H1 as [_ H1].
  rewrite H1. simpl. destruct l as [|y r]; [reflexivity|]. simpl.
  now apply inner_nonempty_tail in H2.
Qed.

Lemma join_starts_without_space y r :
  well_formed (y :: r) = true ->
  forallb no_space (y :: r) = true ->
  inner_nonempty (y :: r) = true ->
  starts_with_space (join " " (y :: r)) = false.
Proof.
  intros _ Hall Hinner. simpl in Hall. apply andb_prop in Hall as [Hy _].
  destruct r as [|z r].
  - simpl. now apply starts_with_space_no_space.
  - rewrite join_cons. cbn [inner_nonempty] in Hinner.
    apply andb_prop in Hinner as [Hne _]. apply negb_true_iff in Hne.
    apply starts_with_space_append; [exact Hy|].
    intros ->. discriminate.
Qed.

(** Joining well-formed pieces with single spaces and splitting again on
    whitespace gives the pieces back. *)
Lemma split_whitespace_join l :
  l <> [] -> well_formed l = true -> split_whitespace (join " " l) = l.
Proof.
  induction l as [|x l IH]; [congruence|]. intros _ Hwf.
  destruct l as [|y r].
  - simpl. unfold well_formed in Hwf. simpl in Hwf.
    rewrite andb_true_r in Hwf. apply andb_prop in Hwf as [Hx _].
    rewrite <- (append_empty x) at 1.
    rewrite split_whitespace_prepend by exact Hx. simpl. now rewrite append_empty.
  - rewrite join_cons.
    pose proof (well_formed_tail _ _ Hwf) as Hwf'.
    unfold well_formed in Hwf. cbn [tl] in Hwf.
    apply andb_prop in Hwf as [Hall Hinner].
    assert (Hx : no_space x = true).
    { simpl in Hall. now apply andb_prop in Hall as [Hx _]. }
    rewrite split_whitespace_prepend by exact Hx.
    cbn [split_whitespace]. rewrite space_is_space.
    rewrite join_starts_without_space; [| exact Hwf' | | exact Hinner].
    2:{ simpl in Hall. apply andb_prop in Hall as [_ Hall]. exact Hall. }
    rewrite IH by (try discriminate; exact Hwf').
    simpl. now rewrite append_empty.
Qed.

(** The same for the split on single spaces of line 51. *)
Lemma split_char_join l :
  l <> [] -> forallb no_space l = true -> split_char 32 (join " " l) = l.
Proof.
  induction l as [|x l IH]; [congruence|]. intros _ Hall.
  simpl in Hall. apply andb_prop in Hall as [Hx Hall].
  destruct l as [|y r].
  - simpl. rewrite <- (append_empty x) at 1.
    rewrite split_char_prepend by exact Hx. simpl. now rewrite append_empty.
  - rewrite join_cons, split_char_prepend by exact Hx.
    cbn [split_char]. rewrite N.eqb_refl.
    rewrite IH by (try discriminate; exact Hall).
    simpl. now rewrite append_empty.
Qed.

Lemma inner_nonempty_filter (f : string -> bool) l :
  inner_nonempty l = true -> inner_nonempty (filter f l) = true.
Proof.
  induction l as [|y r IH]; [reflexivity|]. intros H.
  pose proof (inner_nonempty_tail _ _ H) as Hr. specialize (IH Hr).
  simpl. destruct (f y); [|exact IH].
  destruct r as [|z r]; [reflexivity|].
  cbn [inner_nonempty] in H. apply andb_prop in H as [Hy _].
  destruct (filter f (z :: r)) eqn:E; [reflexivity|].
  now rewrite inner_nonempty_cons, Hy, IH.
Qed.

Lemma forallb_filter (p f : string -> bool) l :
  forallb p l = true -> forallb p (filter f l) = true.
Proof.
  rewrite !forallb_forall. intros H x Hx. apply filter_In in Hx. now apply H.
Qed.

Lemma well_formed_filter (f : string -> bool) l :
  well_formed l = true -> well_formed (filter f l) = true.
Proof.
  unfold well_formed. intros H. apply andb_prop in H as [Hall Hinner].
  rewrite (forallb_filter _ _ _ Hall). simpl.
  destruct l as [|x r]; [reflexivity|]. simpl in *.
  apply (inner_nonempty_filter f) in Hinner.
  destruct (f x); [exact Hinner|].
  destruct (filter f r) as [|y r']; [reflexivity|].
  now apply inner_nonempty_tail in Hinner.
Qed.

Lemma inner_nonempty_removelast l :
  inner_nonempty l = true -> inner_nonempty (removelast l) = true.
Proof.
  induction l as [|y r IH]; [reflexivity|]. intros H.
  pose proof (inner_nonempty_tail _ _ H) as Hr. specialize (IH Hr).
  destruct r as [|z r]; [reflexivity|].
  cbn [inner_nonempty] in H. apply andb_prop in H as [Hy _].
  change (removelast (y :: z :: r)) with (y :: removelast (z :: r)).
  destruct (removelast (z :: r)) eqn:E; [reflexivity|].
  now rewrite inner_nonempty_cons, Hy, IH.
Qed.

Lemma forallb_removelast (p : string -> bool) l :
  forallb p l = true -> forallb p (removelast l) = true.
Proof.
  induction l as [|y r IH]; [reflexivity|]. intros H.
  simpl in H. apply andb_prop in H as [Hy Hr].
  destruct r as [|z r]; [reflexivity|].
  change (removelast (y :: z :: r)) with (y :: removelast (z :: r)).
  simpl forallb. rewrite Hy. simpl. now apply IH.
Qed.

Lemma well_formed_removelast l :
  well_formed l = true -> well_formed (removelast l) = true.
Proof.
  unfold well_formed. intros H. apply andb_prop in H as [Hall Hinner].
  rewrite (forallb_removelast _ _ Hall). simpl.
  destruct l as [|x [|y r]]; [reflexivity | reflexivity |].
  change (removelast (x :: y :: r)) with (x :: removelast (y :: r)).
  cbn [tl] in *. now apply inner_nonempty_removelast.
Qed.

Lemma no_space_cons_char c l :
  is_space c = false -> forallb no_space l = true ->
  forallb no_space (cons_char c l) = true.
Proof.
  intros Hc H. destruct l as [|t ts]; simpl in *; rewrite Hc; simpl.
  - reflexivity.
  - exact H.
Qed.

Lemma split_whitespace_shape s :
  forallb no_space (split_whitespace s) = true /\
  inner_nonempty (tl (split_whitespace s)) = true /\
  (starts_with_space s = false -> s <> "" ->
   hd "" (split_whitespace s) <> "").
Proof.
  induction s as [|c s (Hall & Hinner & Hhd)]; [simpl; intuition congruence|].
  cbn [split_whitespace starts_with_space]. destruct (is_space c) eqn:Hc.
  - destruct (starts_with_space s) eqn:Hs.
    + repeat split; try assumption. discriminate.
    + repeat split; try discriminate.
      * simpl. exact Hall.
      * cbn [tl]. destruct s as [|c' s']; [reflexivity|].
        specialize (Hhd eq_refl ltac:(discriminate)).
        pose proof (split_whitespace_nonempty (String c' s')) as Hne.
        destruct (split_whitespace (String c' s')) as [|y r]; [congruence|].
        cbn [tl hd] in *. destruct r as [|z r]; [reflexivity|].
        rewrite inner_nonempty_cons, Hinner.
        destruct y; [congruence | reflexivity].
  - repeat split.
    + now apply no_space_cons_char.
    + destruct (split_whitespace s); [reflexivity | exact Hinner].
    + intros _ _. destruct (split_whitespace s); discriminate.
Qed.

Lemma split_whitespace_well_formed s : well_formed (split_whitespace s) = true.
Proof.
  unfold well_formed. destruct (split_whitespace_shape s) as (H1 & H2 & _).
  now rewrite H1, H2.
Qed.
End PiecesFacts.

(** ** The search retry loop *)

Section SearchLoop.
Import GuessWikidata Pieces.
Variable toLowerCase : string -> string.
Variable searchCompany : string -> list value.

Local Abbreviation search := (getWikidataSearchResults toLowerCase searchCompany).

(** The body of the loop, lines 29-57. *)
Lemma search_unfold name retry :
  search name retry =
  if (3 <? retry)%nat then ([], []) else
  match searchCompany name with
  | (_ :: _) as results => ([name], results)
  | [] =>
      if (retry =? 0)%nat then
        let '(queries, results) := search (simplify toLowerCase name) (retry + 1) in
        (name :: queries, results)
      else
        if negb (dropLastWord name =? "") then
          let '(queries, results) := search (dropLastWord name) (retry + 1) in
          (name :: queries, results)
        else ([name], [])
  end.
Proof.
  rewrite (getWikidataSearchResults_equation_1 toLowerCase searchCompany name retry).
  destruct (le_lt_dec retry 3) as [H|H]; simpl.
  - apply Nat.ltb_ge in H. now rewrite H.
  - apply Nat.ltb_lt in H. now rewrite H.
Qed.

(** Induction along the calls of the loop. *)
Lemma search_ind (P : string -> nat -> list string * list value -> Prop) :
  (forall name retry, 3 < retry -> P name retry ([], [])) ->
  (forall name retry results,
      retry <= 3 -> searchCompany name = results -> results <> [] ->
      P name retry ([name], results)) ->
  (forall name queries results,
      searchCompany name = [] ->
      search (simplify toLowerCase name) 1 = (queries, results) ->
      P (simplify toLowerCase name) 1 (queries, results) ->
      P name 0 (name :: queries, results)) ->
  (forall name retry queries results,
      1 <= retry <= 3 -> searchCompany name = [] ->
      dropLastWord name <> "" ->
      search (dropLastWord name) (retry + 1) = (queries, results) ->
      P (dropLastWord name) (retry + 1) (queries, results) ->
      P name retry (name :: queries, results)) ->
  (forall name retry,
      1 <= retry <= 3 -> searchCompany name = [] ->
      dropLastWord name = "" ->
      P name retry ([name], [])) ->
  forall name retry, P name retry (search name retry).
Proof.
  intros Hstop Hhit Hfirst Hnext Hempty name retry.
  remember (4 - retry) as budget eqn:Hb.
  revert name retry Hb.
  induction budget as [|budget IH]; intros name retry Hb;
    rewrite search_unfold.
  - assert (H : (3 <? retry)%nat = true) by (apply Nat.ltb_lt; lia).
    rewrite H. apply Hstop. lia.
  - assert (H : (3 <? retry)%nat = false) by (apply Nat.ltb_ge; lia).
    rewrite H. destruct (searchCompany name) as [|r rs] eqn:Hs.
    + destruct (retry =? 0)%nat eqn:H0.
      * apply Nat.eqb_eq in H0. subst retry. simpl.
        destruct (search (simplify toLowerCase name) 1) as [queries results] eqn:E.
        apply Hfirst; [exact Hs | exact E |].
        rewrite <- E. apply IH. lia.
      * apply Nat.eqb_neq in H0.
        destruct (dropLastWord name =? "") eqn:Hd; simpl.
        -- apply string_eqb_eq in Hd. apply Hempty; [lia | exact Hs | exact Hd].
        -- apply string_eqb_neq in Hd.
           destruct (search (dropLastWord name) (retry + 1))
             as [queries results] eqn:E.
           apply Hnext; [lia | exact Hs | exact Hd | exact E |].
           rewrite <- E. apply IH. lia.
    + apply Hhit; [lia | exact Hs | discriminate].
Qed.

Lemma search_exhausted name retry : 3 < retry -> search name retry = ([], []).
Proof.
  intros H. rewrite search_unfold. apply Nat.ltb_lt in H. now rewrite H.
Qed.

(** At most [4 - retry] searches are made, the first with the given name. *)
Lemma search_bounded name retry :
  List.length (fst (search name retry)) <= 4 - retry /\
  (retry <= 3 -> hd_error (fst (search name retry)) = Some name).
Proof.
  apply (search_ind (fun name retry out =>
    List.length (fst out) <= 4 - retry /\
    (retry <= 3 -> hd_error (fst out) = Some name)));
    cbn [fst List.length hd_error].
  - intros; split; [lia | intros; lia].
  - intros; split; [lia | reflexivity].
  - intros n queries results _ _ [IH _]. split; [lia | reflexivity].
  - intros n r queries results Hr _ _ _ [IH _]. split; [lia | reflexivity].
  - intros; split; [lia | reflexivity].
Qed.

Lemma search_head name retry queries results :
  retry <= 3 -> search name retry = (queries, results) ->
  exists rest, queries = name :: rest.
Proof.
  intros Hr E. destruct (search_bounded name retry) as [_ H].
  rewrite E in H. specialize (H Hr). destruct queries as [|q rest]; [discriminate|].
  simpl in H. inversion H. now exists rest.
Qed.

(** Each query is made from the one before it: by [simplify] after the
    first attempt, by [dropLastWord] after the later ones. *)
Lemma search_chain name retry k q q' :
  nth_error (fst (search name retry)) k = Some q ->
  nth_error (fst (search name retry)) (S k) = Some q' ->
  q' = if (retry + k =? 0)%nat then simplify toLowerCase q else dropLastWord q.
Proof.
  revert k q q'.
  apply (search_ind (fun name retry out => forall k q q',
    nth_error (fst out) k = Some q ->
    nth_error (fst out) (S k) = Some q' ->
    q' = if (retry + k =? 0)%nat then simplify toLowerCase q else dropLastWord q));
    simpl.
  - intros n r _ k q q' H. destruct k; discriminate.
  - intros n r results _ _ _ k q q' _ H. destruct k; discriminate.
  - intros n queries results _ E IH k q q' Hq Hq'.
    destruct (search_head _ 1 _ _ ltac:(lia) E) as [rest ->].
    destruct k as [|k]; simpl in *.
    + congruence.
    + exact (IH k q q' Hq Hq').
  - intros n r queries results Hr _ _ E IH k q q' Hq Hq'.
    destruct (Nat.eq_dec r 3) as [-> | Hr3].
    { rewrite search_exhausted in E by lia. inversion E; subst.
      destruct k; discriminate. }
    destruct (search_head _ (r + 1) _ _ ltac:(lia) E) as [rest ->].
    replace (r + k =? 0)%nat with false by (symmetry; apply Nat.eqb_neq; lia).
    destruct k as [|k]; simpl in *.
    + congruence.
    + specialize (IH k q q' Hq Hq').
      replace (r + 1 + k =? 0)%nat with false in IH
        by (symmetry; apply Nat.eqb_neq; lia).
      exact IH.
  - intros n r _ _ _ k q q' _ H. destruct k; discriminate.
Qed.

Lemma simplify_normal name : normal (simplify toLowerCase name).
Proof.
  unfold simplify.
  set (l := filter _ _).
  destruct l as [|x r] eqn:E.
  - exists [""]. split; [discriminate|]. split; reflexivity.
  - exists (x :: r). split; [discriminate|]. split; [|reflexivity].
    rewrite <- E. apply well_formed_filter, split_whitespace_well_formed.
Qed.

Lemma well_formed_no_space l : well_formed l = true -> forallb no_space l = true.
Proof. unfold well_formed. intros H. now apply andb_prop in H. Qed.

(** On such a query, dropping the last piece of the split on single
    spaces drops the last whitespace-delimited piece. *)
Lemma dropLastWord_normal q :
  normal q ->
  dropLastWord q = join " " (removelast (split_whitespace q)) /\
  normal (dropLastWord q).
Proof.
  intros (l & Hne & Hwf & ->). unfold dropLastWord, slice_0_m1.
  rewrite split_char_join by (try exact Hne; now apply well_formed_no_space).
  rewrite split_whitespace_join by assumption.
  split; [reflexivity|].
  destruct (removelast l) as [|x r] eqn:E.
  - exists [""]. split; [discriminate|]. split; reflexivity.
  - exists (x :: r). split; [discriminate|]. split; [|reflexivity].
    rewrite <- E. now apply well_formed_removelast.
Qed.

Lemma search_normal name retry :
  (1 <= retry -> normal name) ->
  Forall normal (tl (fst (search name retry))) /\
  (1 <= retry -> Forall normal (fst (search name retry))).
Proof.
  apply (search_ind (fun name retry out =>
    (1 <= retry -> normal name) ->
    Forall normal (tl (fst out)) /\ (1 <= retry -> Forall normal (fst out))));
    simpl.
  - intros; split; constructor.
  - intros n r results _ _ _ Hn. split; [constructor|].
    intros Hr. constructor; [auto | constructor].
  - intros n queries results _ _ IH _.
    destruct (IH (fun _ => simplify_normal n)) as [_ H].
    split; [apply H; lia | intros; lia].
  - intros n r queries results Hr _ _ _ IH Hn.
    specialize (Hn ltac:(lia)).
    destruct (IH (fun _ => proj2 (dropLastWord_normal n Hn))) as [_ H].
    specialize (H ltac:(lia)). split; [exact H | intros _; now constructor].
  - intros n r Hr _ _ Hn. split; [constructor|].
    intros _. constructor; [apply Hn; lia | constructor].
Qed.

(** How the loop ends: every query but the last found nothing; the last
    one either found the results returned, or found nothing, and then the
    result is empty and either four searches were made or dropping the
    last word of the last query left the empty name. *)
Lemma search_outcome name retry :
  retry <= 3 ->
  let out := search name retry in
  Forall (fun q => searchCompany q = []) (removelast (fst out)) /\
  (searchCompany (last (fst out) "") <> [] ->
   snd out = searchCompany (last (fst out) "")) /\
  (searchCompany (last (fst out) "") = [] ->
   snd out = [] /\
   (List.length (fst out) = 4 - retry \/
    (1 <= retry + (List.length (fst out) - 1) /\
     dropLastWord (last (fst out) "") = ""))).
Proof.
  cbv zeta.
  apply (search_ind (fun name retry out =>
    retry <= 3 ->
    Forall (fun q => searchCompany q = []) (removelast (fst out)) /\
    (searchCompany (last (fst out) "") <> [] ->
     snd out = searchCompany (last (fst out) "")) /\
    (searchCompany (last (fst out) "") = [] ->
     snd out = [] /\
     (List.length (fst out) = 4 - retry \/
      (1 <= retry + (List.length (fst out) - 1) /\
       dropLastWord (last (fst out) "") = ""))))).
  - intros; lia.
  - intros n r results _ Hs Hne _. cbn [fst snd removelast last]. rewrite Hs.
    split; [constructor|]. split; [reflexivity | intros H; contradiction].
  - intros n queries results Hs E IH _.
    destruct (search_head _ 1 _ _ ltac:(lia) E) as [rest ->].
    destruct (IH ltac:(lia)) as (IH1 & IH2 & IH3).
    cbn [fst snd] in *.
    change (removelast (n :: simplify toLowerCase n :: rest))
      with (n :: removelast (simplify toLowerCase n :: rest)).
    change (last (n :: simplify toLowerCase n :: rest) "")
      with (last (simplify toLowerCase n :: rest) "").
    split; [now constructor|]. split; [exact IH2|].
    intros H. destruct (IH3 H) as (-> & Hend). split; [reflexivity|].
    simpl List.length in *. destruct Hend as [Hend | [_ Hend]].
    + left. lia.
    + right. split; [lia | exact Hend].
  - intros n r queries results Hr Hs Hd E IH _.
    destruct (Nat.eq_dec r 3) as [-> | Hr3].
    + rewrite search_exhausted in E by lia. inversion E; subst.
      cbn [fst snd removelast last List.length]. rewrite Hs.
      split; [constructor|]. split; [intros H; contradiction|].
      intros _. split; [reflexivity | now left].
    + destruct (search_head _ (r + 1) _ _ ltac:(lia) E) as [rest ->].
      destruct (IH ltac:(lia)) as (IH1 & IH2 & IH3).
      cbn [fst snd] in *.
      change (removelast (n :: dropLastWord n :: rest))
        with (n :: removelast (dropLastWord n :: rest)).
      change (last (n :: dropLastWord n :: rest) "")
        with (last (dropLastWord n :: rest) "").
      split; [now constructor|]. split; [exact IH2|].
      intros H. destruct (IH3 H) as (-> & Hend). split; [reflexivity|].
      simpl List.length in *. destruct Hend as [Hend | [_ Hend]].
      * left. lia.
      * right. split; [lia | exact Hend].
  - intros n r Hr Hs Hd _. cbn [fst snd removelast last List.length]. rewrite Hs.
    split; [constructor|]. split; [intros H; contradiction|].
    intros _. split; [reflexivity|]. right. split; [lia | exact Hd].
Qed.
End SearchLoop.

Section SearchQueries.
Import GuessWikidata Pieces.

Lemma nth_error_tl {A} (l : list A) k q :
  nth_error l (S k) = Some q -> In q (tl l).
Proof.
  destruct l as [|x r]; [discriminate|]. simpl. apply nth_error_In.
Qed.

Lemma last_in_tl {A} (l : list A) d : 2 <= List.length l -> In (last l d) (tl l).
Proof.
  destruct l as [|x [|y r]]; simpl; try lia. intros _.
  assert (H : forall (z : A) (m : list A), In (last (z :: m) d) (z :: m)).
  { intros z m. revert z. induction m as [|w m IH]; intros z.
    - now left.
    - right. apply IH. }
  apply H.
Qed.
End SearchQueries.

(** C3.  For every name, every search service and whatever the lower-casing
    of the runtime yields, the loop makes between one and four searches.
    The first query is the name as given; the query of the first retry is
    the lower-cased name split on whitespace, without the insignificant words,
    joined by single spaces; the query of every later retry is the previous
    query without its last whitespace-delimited piece.  Every search but the
    last found nothing.  When the last search found something, that is the
    result; when it found nothing, the result is empty, and then either four
    searches were made or dropping the last piece of the last query left the
    empty name.  Whitespace is that of the class [\s], Unicode whitespace
    included. *)
Theorem getWikidataSearchResults_retries
    (toLowerCase : string -> string)
    (searchCompany : string -> list value) (companyName : string) :
  let out :=
    GuessWikidata.getWikidataSearchResults toLowerCase searchCompany
      companyName 0 in
  let queries := fst out in
  let results := snd out in
  1 <= List.length queries <= 4 /\
  nth_error queries 0 = Some companyName /\
  (forall q, nth_error queries 1 = Some q ->
     q = join " "
           (filter (fun word =>
                      negb (GuessWikidata.has GuessWikidata.insignificantWords word))
              (split_whitespace (toLowerCase companyName)))) /\
  (forall k q q', 1 <= k ->
     nth_error queries k = Some q -> nth_error queries (S k) = Some q' ->
     q' = join " " (removelast (split_whitespace q))) /\
  Forall (fun q => searchCompany q = []) (removelast queries) /\
  (searchCompany (last queries "") <> [] ->
     results = searchCompany (last queries "")) /\
  (searchCompany (last queries "") = [] ->
     results = [] /\
     (List.length queries = 4 \/
      (2 <= List.length queries /\
       join " " (removelast (split_whitespace (last queries ""))) = ""))).
Proof.
  cbv zeta.
  destruct (search_bounded toLowerCase searchCompany companyName 0) as [Hlen Hhd].
  specialize (Hhd ltac:(lia)).
  destruct (search_normal toLowerCase searchCompany companyName 0 ltac:(lia)) as [Hnormal _].
  destruct (search_outcome toLowerCase searchCompany companyName 0 ltac:(lia))
    as (Hmiss & Hhit & Hend).
  pose proof (search_chain toLowerCase searchCompany companyName 0) as Hchain.
  set (out := GuessWikidata.getWikidataSearchResults toLowerCase searchCompany
                companyName 0) in *.
  destruct (fst out) as [|q0 rest]; [discriminate|].
  simpl in Hhd. inversion Hhd; subst q0. clear Hhd.
  cbn [tl] in Hnormal. rewrite Forall_forall in Hnormal.
  assert (Hnorm : forall k q, nth_error (companyName :: rest) (S k) = Some q ->
                              Pieces.normal q).
  { intros k q Hq. apply nth_error_tl in Hq. now apply Hnormal. }
  split; [simpl List.length in *; lia|].
  split; [reflexivity|].
  split.
  { intros q Hq. exact (Hchain 0%nat companyName q eq_refl Hq). }
  split.
  { intros k q q' Hk Hq Hq'. destruct k as [|k]; [lia|].
    rewrite (Hchain (S k) q q' Hq Hq'). cbn [Nat.add Nat.eqb].
    apply (dropLastWord_normal q (Hnorm k q Hq)). }
  split; [exact Hmiss|]. split; [exact Hhit|].
  intros Hlast. destruct (Hend Hlast) as [Hres Hstop]. split; [exact Hres|].
  destruct Hstop as [Hfour | [Hmore Hempty]]; [left; exact Hfour|].
  right. split; [lia|].
  assert (Hn : Pieces.normal (last (companyName :: rest) "")).
  { apply Hnormal. apply (last_in_tl (companyName :: rest)).
    simpl List.length in *. lia. }
  rewrite <- (proj1 (dropLastWord_normal _ Hn)). exact Hempty.
Qed.

(** The queries made when no search finds anything, for a runtime that
    lower-cases the letters A-Z: the scenario of the comment at line 50, a
    name with a trailing space (the empty last piece is dropped first), and a
    name made of insignificant words only (the empty name is searched once, as
    first retry). *)
Example queries_of_Telia_Group :
  fst (GuessWikidata.getWikidataSearchResults asciiLowerCase (fun _ => [])
         "Telia Group" 0)
  = ["Telia Group"; "telia group"; "telia"].
Proof. reflexivity. Qed.

Example queries_with_trailing_space :
  fst (GuessWikidata.getWikidataSearchResults asciiLowerCase (fun _ => [])
         "Telia Group " 0)
  = ["Telia Group "; "telia group "; "telia group"; "telia"].
Proof. reflexivity. Qed.

Example queries_of_insignificant_words :
  fst (GuessWikidata.getWikidataSearchResults asciiLowerCase (fun _ => [])
         "The Co AB" 0)
  = ["The Co AB"; ""].
Proof. reflexivity. Qed.

(** A no-break space (U+00A0) between two words separates them in the first
    retry, as every whitespace of the class [\s] does: three searches. *)
Example queries_with_no_break_space :
  fst (GuessWikidata.getWikidataSearchResults asciiLowerCase (fun _ => [])
         ("Telia" ++ String 160 "Group AB") 0)
  = ["Telia" ++ String 160 "Group AB"; "telia group"; "telia"].
Proof. reflexivity. Qed.

(** A name with letters outside ASCII, for a runtime that lower-cases the
    letters of Latin-1: U+00C5 becomes U+00E5, and U+00E9 is kept. *)
Example queries_of_Ahlens :
  fst (GuessWikidata.getWikidataSearchResults Samples.latin1LowerCase
         (fun _ => []) (String 197 "hl" ++ String 233 "ns AB") 0)
  = [String 197 "hl" ++ String 233 "ns AB"; String 229 "hl" ++ String 233 "ns"].
Proof. reflexivity. Qed.

Lemma getWikidataSearchResults_retries_witness :
  snd (GuessWikidata.getWikidataSearchResults asciiLowerCase (fun _ => [])
         "Telia Group AB" 0) = [].
Proof.
  apply (proj2 (proj2 (proj2 (proj2 (proj2 (proj2
           (getWikidataSearchResults_retries asciiLowerCase (fun _ => [])
              "Telia Group AB"))))))).
  reflexivity.
Defined.

(** ** Schemas *)

Section SchemaFacts.
Import Zod ZodFacts.
Variable newDate : value -> option Z.

Lemma parse_object shape o :
  parse newDate (object shape) (VObj o)
  = option_map VObj (parse_fields newDate (VObj o) o shape).
Proof.
  cbn [parse]. f_equal.
  induction shape as [|[k sk] rest IH]; [reflexivity|].
  cbn [parse_fields]. rewrite <- IH. reflexivity.
Qed.

Lemma parse_object_inv shape v v' :
  parse newDate (object shape) v = Some v' ->
  exists o o', v = VObj o /\ v' = VObj o' /\
               parse_fields newDate v o shape = Some o'.
Proof.
  destruct v; try discriminate. rewrite parse_object.
  destruct (parse_fields newDate (VObj props) props shape) as [o'|] eqn:E;
    [|discriminate].
  intros H. inversion H. now exists props, o'.
Qed.

Lemma parse_array item l :
  parse newDate (array item) (VArr l)
  = option_map VArr (parse_items newDate item l).
Proof.
  cbn [parse]. f_equal.
  induction l as [|x r IH]; [reflexivity|].
  cbn [parse_items]. rewrite <- IH. reflexivity.
Qed.

(** The keys of a parsed object are keys of the shape. *)
Lemma parse_fields_keys v o shape o' k :
  parse_fields newDate v o shape = Some o' ->
  ~ In k (map fst shape) -> lookup k o' = None.
Proof.
  revert o'. induction shape as [|[k0 sk] rest IH]; intros o' H Hk.
  - inversion H. reflexivity.
  - cbn [parse_fields] in H.
    destruct (parse newDate sk (get k0 v)) as [x|]; [|discriminate].
    destruct (parse_fields newDate v o rest) as [r|]; [|discriminate].
    inversion H; subst o'. clear H.
    assert (Hr : lookup k r = None).
    { apply IH; [reflexivity|]. intros Hin. apply Hk. now right. }
    destruct (has_key k0 o || _); [|exact Hr].
    simpl. destruct (k =? k0) eqn:E; [|exact Hr].
    apply string_eqb_eq in E. subst. exfalso. apply Hk. now left.
Qed.

(** Each field of a parsed object is the parsed field of the input. *)
Lemma parse_fields_get v o shape o' k sk :
  parse_fields newDate v o shape = Some o' ->
  NoDup (map fst shape) -> In (k, sk) shape ->
  parse newDate sk (get k v) = Some (get k (VObj o')).
Proof.
  revert o'. induction shape as [|[k0 s0] rest IH]; intros o' H Hnd Hin.
  - contradiction.
  - cbn [parse_fields] in H.
    destruct (parse newDate s0 (get k0 v)) as [x|] eqn:Ex; [|discriminate].
    destruct (parse_fields newDate v o rest) as [r|] eqn:Er; [|discriminate].
    inversion H; subst o'. clear H.
    inversion Hnd as [|? ? Hnotin Hnd']; subst.
    destruct Hin as [Hin | Hin].
    + inversion Hin; subst k0 s0. rewrite Ex. f_equal.
      destruct (has_key k o || _) eqn:Hkeep.
      * simpl. now rewrite string_eqb_refl.
      * apply orb_false_iff in Hkeep as [_ Hx].
        apply negb_false_iff in Hx.
        unfold get. rewrite (parse_fields_keys _ _ _ _ k Er Hnotin).
        destruct x; try discriminate. reflexivity.
    + rewrite (IH r eq_refl Hnd' Hin). f_equal.
      assert (Hne : k <> k0).
      { intros ->. apply Hnotin. now apply (in_map fst) in Hin. }
      destruct (has_key k0 o || _); [|reflexivity].
      unfold get. simpl. apply string_eqb_neq in Hne. now rewrite Hne.
Qed.

Lemma parse_object_get shape v v' k sk :
  parse newDate (object shape) v = Some v' ->
  NoDup (map fst shape) -> In (k, sk) shape ->
  parse newDate sk (get k v) = Some (get k v').
Proof.
  intros H Hnd Hin.
  destruct (parse_object_inv _ _ _ H) as (o & o' & -> & -> & Hf).
  now apply (parse_fields_get _ _ _ _ _ _ Hf).
Qed.

(** An array is accepted only if each of its items is. *)
Lemma parse_items_Forall2 item l l' :
  parse_items newDate item l = Some l' ->
  Forall2 (fun x x' => parse newDate item x = Some x') l l'.
Proof.
  revert l'. induction l as [|x r IH]; intros l' H.
  - inversion H. constructor.
  - cbn [parse_items] in H.
    destruct (parse newDate item x) as [x'|] eqn:Ex; [|discriminate].
    destruct (parse_items newDate item r) as [r'|] eqn:Er; [|discriminate].
    inversion H; subst. constructor; [exact Ex | now apply IH].
Qed.

End SchemaFacts.

(** ** Promises and the calls they make *)

Section PromiseFacts.
Import Async Routes RoutesFacts.
Variable gateway : history -> call -> settled value.

Lemma settle_all_cons {A} (p : promise A) ps h :
  settle_all (p :: ps) h
  = (fst (p h) :: fst (settle_all ps (snd (p h))),
     snd (settle_all ps (snd (p h)))).
Proof.
  simpl. destruct (p h) as [r h1]. simpl.
  now destruct (settle_all ps h1).
Qed.


(** Every call of the array is made, in order, and nothing else. *)
Lemma settle_all_run_calls es h :
  snd (settle_all (map (run gateway) es) h) = (h ++ calls_of es)%list.
Proof.
  revert h. induction es as [|e es IH]; intros h.
  - simpl. now rewrite app_nil_r.
  - cbn [map]. rewrite settle_all_cons. cbn [snd]. rewrite IH.
    destruct e as [v|[f a]]; simpl; [reflexivity|].
    now rewrite <- app_assoc.
Qed.



Lemma allSettled_run es h :
  allSettled (map (run gateway) es) h
  = (fulfilled (fst (settle_all (map (run gateway) es) h)),
     (h ++ calls_of es)%list).
Proof.
  unfold allSettled. rewrite <- settle_all_run_calls.
  now destruct (settle_all (map (run gateway) es) h).
Qed.

(** *** Calls added by a promise *)

Lemma adds_ret {A} P (a : A) : adds P (ret a).
Proof. intros h. exists []. simpl. now rewrite app_nil_r. Qed.

Lemma adds_throw {A} P e : adds P (@throw A e).
Proof. intros h. exists []. simpl. now rewrite app_nil_r. Qed.

Lemma adds_bind_result {A B} P (m : promise A) (k : A -> promise B) :
  adds P m ->
  (forall h a h', m h = (fulfilled a, h') -> adds P (k a)) ->
  adds P (bind m k).
Proof.
  intros Hm Hk h. unfold bind. destruct (Hm h) as (l & E & Hl).
  destruct (m h) as [[a|e] h1] eqn:Em; simpl in E; subst h1.
  - destruct (Hk h a _ Em (h ++ l)%list) as (l' & E' & Hl').
    exists (l ++ l')%list. rewrite E', app_assoc. split; [reflexivity|].
    now apply Forall_app.
  - exists l. now split.
Qed.

Lemma adds_bind {A B} P (m : promise A) (k : A -> promise B) :
  adds P m -> (forall a, adds P (k a)) -> adds P (bind m k).
Proof. intros Hm Hk. apply adds_bind_result; auto. Qed.

Lemma adds_try_catch {A} P (m : promise A) handler :
  adds P m -> (forall e, adds P (handler e)) -> adds P (try_catch m handler).
Proof.
  intros Hm Hk h. unfold try_catch. destruct (Hm h) as (l & E & Hl).
  destruct (m h) as [[a|e] h1]; simpl in E; subst h1.
  - exists l. now split.
  - destruct (Hk e (h ++ l)%list) as (l' & E' & Hl').
    exists (l ++ l')%list. rewrite E', app_assoc. split; [reflexivity|].
    now apply Forall_app.
Qed.

Lemma adds_invoke (P : call -> Prop) f a :
  P {| fn := f; args := a |} -> adds P (invoke gateway f a).
Proof.
  intros H h. exists [{| fn := f; args := a |}]. simpl. split; [reflexivity|].
  now constructor.
Qed.

Lemma adds_settle_all {A} P (ps : list (promise A)) :
  Forall (adds P) ps ->
  forall h, exists l, snd (settle_all ps h) = (h ++ l)%list /\ Forall P l.
Proof.
  induction 1 as [|p ps Hp _ IH]; intros h.
  - exists []. simpl. now rewrite app_nil_r.
  - rewrite settle_all_cons. cbn [snd].
    destruct (Hp h) as (l & E & Hl). rewrite E.
    destruct (IH (h ++ l)%list) as (l' & E' & Hl'). rewrite E'.
    exists (l ++ l')%list. rewrite app_assoc. split; [reflexivity|].
    now apply Forall_app.
Qed.

Lemma adds_allSettled {A} P (ps : list (promise A)) :
  Forall (adds P) ps -> adds P (allSettled ps).
Proof.
  intros H h. destruct (adds_settle_all P ps H h) as (l & E & Hl).
  exists l. unfold allSettled. destruct (settle_all ps h). now split.
Qed.

Lemma adds_all {A} P (ps : list (promise A)) :
  Forall (adds P) ps -> adds P (all ps).
Proof.
  intros H h. destruct (adds_settle_all P ps H h) as (l & E & Hl).
  exists l. unfold all. destruct (settle_all ps h). now split.
Qed.


Lemma added_app {A} (m : promise A) h l :
  snd (m h) = (h ++ l)%list -> added m h = l.
Proof.
  intros E. unfold added. rewrite E.
  rewrite skipn_app, skipn_all, Nat.sub_diag. reflexivity.
Qed.

Lemma adds_added {A} P (m : promise A) h : adds P m -> Forall P (added m h).
Proof.
  intros H. destruct (H h) as (l & E & Hl). now rewrite (added_app _ _ _ E).
Qed.
End PromiseFacts.

(** ** Validated reporting periods *)

Section Validated.
Import Zod ZodFacts Async Routes RoutesFacts.
Variable newDate : value -> option Z.

Lemma parse_optional_object shape v v' :
  parse newDate (optional (object shape)) v = Some v' ->
  (v = VUndefined /\ v' = VUndefined) \/
  (exists o', v' = VObj o' /\ parse newDate (object shape) v = Some v').
Proof.
  intros H.
  destruct v; try (cbn [parse] in H; discriminate).
  - left. cbn [parse] in H. inversion H. now split.
  - right. change (parse newDate (object shape) (VObj props) = Some v') in H.
    destruct (parse_object_inv _ _ _ _ H) as (o & o' & _ & -> & _).
    now exists o'.
Qed.

Lemma parse_nullable_optional_object shape v v' :
  parse newDate (nullable (optional (object shape))) v = Some v' ->
  (v = VUndefined /\ v' = VUndefined) \/ (v = VNull /\ v' = VNull) \/
  (exists o', v' = VObj o' /\ parse newDate (object shape) v = Some v').
Proof.
  intros H.
  destruct v; try (cbn [parse] in H; discriminate).
  - left. cbn [parse] in H. inversion H. now split.
  - right. left. cbn [parse] in H. inversion H. now split.
  - right. right.
    change (parse newDate (object shape) (VObj props) = Some v') in H.
    destruct (parse_object_inv _ _ _ _ H) as (o & o' & _ & -> & _).
    now exists o'.
Qed.

Lemma NoDup_reportingPeriodShape : NoDup (map fst reportingPeriodShape).
Proof. repeat constructor; simpl; intuition discriminate. Qed.

Lemma NoDup_emissionsShape : NoDup (map fst emissionsShape).
Proof. repeat constructor; simpl; intuition discriminate. Qed.

Lemma NoDup_economyShape : NoDup (map fst economyShape).
Proof. repeat constructor; simpl; intuition discriminate. Qed.

Section Period.
Variables raw period : value.
Hypothesis valid : parse newDate reportingPeriodSchema raw = Some period.

Lemma validated_object :
  parse newDate (object reportingPeriodShape) raw = Some period /\
  startsBeforeEnd period = true.
Proof.
  unfold reportingPeriodSchema in valid. cbn [parse] in valid.
  change (match parse newDate (object reportingPeriodShape) raw with
          | Some v' => if startsBeforeEnd v' then Some v' else None
          | None => None
          end = Some period) in valid.
  destruct (parse newDate (object reportingPeriodShape) raw) as [p|];
    [|discriminate].
  destruct (startsBeforeEnd p) eqn:E; [|discriminate].
  inversion valid; subst p. now split.
Qed.

Lemma validated_field k sk :
  In (k, sk) reportingPeriodShape ->
  parse newDate sk (get k raw) = Some (get k period).
Proof.
  intros Hin. destruct validated_object as [H _].
  exact (parse_object_get newDate _ _ _ _ _ H NoDup_reportingPeriodShape Hin).
Qed.

(** The dates of a validated period are the coerced dates of the
    request, and the start is strictly before the end. *)
Lemma validated_dates :
  exists s e,
    get "startDate" period = VDate s /\ get "endDate" period = VDate e /\
    newDate (get "startDate" raw) = Some s /\
    newDate (get "endDate" raw) = Some e /\ (s < e)%Z.
Proof.
  destruct validated_object as [_ Hcheck].
  pose proof (validated_field "startDate" coerce_date ltac:(simpl; tauto)) as Hs.
  pose proof (validated_field "endDate" coerce_date ltac:(simpl; tauto)) as He.
  cbn [parse] in Hs, He. unfold startsBeforeEnd in Hcheck.
  destruct (get "startDate" period) as [| | | | |s| |]; try discriminate.
  destruct (get "endDate" period) as [| | | | |e| |]; try discriminate.
  exists s, e. apply Z.ltb_lt in Hcheck.
  destruct (newDate (get "startDate" raw)); [|discriminate].
  destruct (newDate (get "endDate" raw)); [|discriminate].
  simpl in Hs, He. inversion Hs. inversion He. subst. repeat split; auto.
Qed.

(** Each field group of the validated emissions is the parsed field
    group of the request. *)
Lemma validated_emissions_group g sg :
  In (g, sg) emissionsShape ->
  parse newDate sg (get g (emissionsOf raw)) = Some (get g (emissionsOf period)).
Proof.
  intros Hin.
  pose proof (validated_field "emissions" emissionsSchema ltac:(simpl; tauto)) as H.
  unfold emissionsOf.
  destruct (parse_optional_object _ _ _ H) as [[-> ->] | (o' & E & Hobj)].
  - simpl orDefault.
    simpl in Hin.
    repeat (destruct Hin as [Hin | Hin]; [inversion Hin; subst; reflexivity|]).
    contradiction.
  - rewrite E in *.
    destruct (parse_object_inv _ _ _ _ Hobj) as (o & ? & Eraw & _ & _).
    rewrite Eraw in *. simpl orDefault.
    exact (parse_object_get newDate _ _ _ _ _ Hobj NoDup_emissionsShape Hin).
Qed.

Lemma validated_economy_group g sg :
  In (g, sg) economyShape ->
  parse newDate sg (get g (economyOf raw)) = Some (get g (economyOf period)).
Proof.
  intros Hin.
  pose proof (validated_field "economy" economySchema ltac:(simpl; tauto)) as H.
  unfold economyOf.
  destruct (parse_optional_object _ _ _ H) as [[-> ->] | (o' & E & Hobj)].
  - simpl orDefault.
    simpl in Hin.
    repeat (destruct Hin as [Hin | Hin]; [inversion Hin; subst; reflexivity|]).
    contradiction.
  - rewrite E in *.
    destruct (parse_object_inv _ _ _ _ Hobj) as (o & ? & Eraw & _ & _).
    rewrite Eraw in *. simpl orDefault.
    exact (parse_object_get newDate _ _ _ _ _ Hobj NoDup_economyShape Hin).
Qed.

(** The validated turnover is absent, null, or an object whose currency
    is absent or a string. *)
Lemma validated_turnover :
  let turnover := get "turnover" (economyOf period) in
  turnover = VUndefined \/ turnover = VNull \/
  (exists o, turnover = VObj o /\
     (get "currency" turnover = VUndefined \/
      exists c, get "currency" turnover = VStr c)).
Proof.
  cbv zeta.
  pose proof (validated_economy_group "turnover" turnoverSchema
                ltac:(simpl; tauto)) as H.
  destruct (parse_nullable_optional_object _ _ _ H)
    as [[_ ->] | [[_ ->] | (o' & E & Hobj)]]; [tauto | tauto |].
  right. right. exists o'. split; [exact E|].
  pose proof (parse_object_get newDate _ _ _ "currency" (optional string_)
                Hobj ltac:(repeat constructor; simpl; intuition discriminate)
                ltac:(simpl; tauto)) as Hc.
  cbn [parse] in Hc.
  destruct (get "currency" (get "turnover" (economyOf raw)));
    inversion Hc; eauto.
Qed.
End Period.
End Validated.

(** ** Saving reporting periods *)

Section Saving.
Import Zod ZodFacts Async Routes RoutesFacts.
Variable toUpperCase : string -> string.
Variable newDate : value -> option Z.
Variable yearOf : Z -> string.
Variable gateway : history -> call -> settled value.

Lemma Forall_calls_of P es : Forall (entry_ok P) es -> Forall P (calls_of es).
Proof.
  induction 1 as [|e es He _ IH]; [constructor|].
  destruct e as [v|c]; simpl; [exact IH | now constructor].
Qed.

Lemma entry_ok_whenDefined (P : call -> Prop) x f a :
  (is_undefined x = false -> P {| fn := f; args := a |}) ->
  entry_ok P (whenDefined x f a).
Proof.
  unfold whenDefined. destruct (is_undefined x); simpl; auto.
Qed.

Lemma entry_ok_whenTruthy (P : call -> Prop) x f a :
  (truthy x = true -> P {| fn := f; args := a |}) ->
  entry_ok P (whenTruthy x f a).
Proof.
  unfold whenTruthy. destruct (truthy x); simpl; auto.
Qed.

Lemma adds_entries P es :
  Forall P (calls_of es) -> adds P (allSettled (map (run gateway) es)).
Proof.
  intros H h. exists (calls_of es). rewrite allSettled_run. now split.
Qed.

Lemma normalisePeriodTurnover_history t h :
  snd (normalisePeriodTurnover toUpperCase t h) = h.
Proof.
  unfold normalisePeriodTurnover.
  destruct (truthy (get "currency" t)); [|reflexivity].
  destruct (get "currency" t); reflexivity.
Qed.

Lemma adds_normalisePeriodTurnover P t : adds P (normalisePeriodTurnover toUpperCase t).
Proof.
  intros h. exists []. rewrite normalisePeriodTurnover_history, app_nil_r.
  now split.
Qed.

Lemma savePeriod_adds (P : call -> Prop) company metadata period :
  (forall t, get "endDate" period = VDate t ->
             P (openingCall yearOf company metadata period t)) ->
  (forall a, P {| fn := upsertEmissions; args := a |}) ->
  (forall a, P {| fn := upsertEconomy; args := a |}) ->
  (forall dbEmissions dbEconomy turnover h h',
      normalisePeriodTurnover toUpperCase (get "turnover" (economyOf period)) h
        = (fulfilled turnover, h') ->
      Forall P (calls_of (periodFieldGroups dbEmissions dbEconomy
                            (emissionsOf period) (economyOf period)
                            turnover metadata))) ->
  adds P (savePeriod toUpperCase yearOf gateway company metadata period).
Proof.
  intros Hopen Hem Hec Hgroups. unfold savePeriod.
  destruct (get "endDate" period) eqn:E; try apply adds_throw.
  apply adds_bind.
  { apply adds_invoke. pose proof (Hopen t eq_refl) as H0.
    unfold openingCall in H0. now rewrite E in H0. }
  intros reportingPeriod. apply adds_bind.
  { apply adds_all. repeat constructor; apply adds_invoke; auto. }
  intros dbs. apply adds_bind_result; [apply adds_normalisePeriodTurnover|].
  intros h0 turnover h0' Hn. apply adds_bind; [|intros; apply adds_ret].
  apply adds_entries. exact (Hgroups _ _ _ _ _ Hn).
Qed.

Lemma Forall2_In_right {A B} (R : A -> B -> Prop) l l' y :
  Forall2 R l l' -> In y l' -> exists x, In x l /\ R x y.
Proof.
  induction 1 as [|x0 y0 l l' Hxy _ IH]; [contradiction|].
  intros [-> | Hin].
  - exists x0. split; [now left | exact Hxy].
  - destruct (IH Hin) as (x & Hx & Hr). exists x. split; [now right | exact Hr].
Qed.

Lemma Forall2_In_left {A B} (R : A -> B -> Prop) l l' x :
  Forall2 R l l' -> In x l -> exists y, In y l' /\ R x y.
Proof.
  induction 1 as [|x0 y0 l l' Hxy _ IH]; [contradiction|].
  intros [-> | Hin].
  - exists y0. split; [now left | exact Hxy].
  - destruct (IH Hin) as (y & Hy & Hr). exists y. split; [now right | exact Hr].
Qed.

(** The periods that the handler saves are validated periods of the
    request, in order. *)
Lemma validated_periods body parsed :
  parse newDate postReportingPeriodsSchema body = Some parsed ->
  exists raws periods,
    get "reportingPeriods" body = VArr raws /\
    get "reportingPeriods" parsed = VArr periods /\
    Forall2 (fun raw period =>
               parse newDate reportingPeriodSchema raw = Some period)
      raws periods.
Proof.
  intros H.
  pose proof (parse_object_get newDate _ _ _ "reportingPeriods"
                (array reportingPeriodSchema) H
                ltac:(repeat constructor; simpl; tauto)
                ltac:(simpl; tauto)) as Hget.
  destruct (get "reportingPeriods" body) as [| | | | | |raws|];
    try (cbn [parse] in Hget; discriminate).
  rewrite parse_array in Hget.
  destruct (parse_items newDate reportingPeriodSchema raws) as [periods|] eqn:E;
    [|discriminate].
  simpl in Hget. inversion Hget as [Hp].
  exists raws, periods. repeat split. now apply parse_items_Forall2.
Qed.

Lemma postReportingPeriods_adds (P : call -> Prop) req locals :
  (forall raw period,
      parse newDate reportingPeriodSchema raw = Some period ->
      adds P (savePeriod toUpperCase yearOf gateway (get "company" locals)
                (get "metadata" locals) period)) ->
  adds P (postReportingPeriods toUpperCase newDate yearOf gateway req locals).
Proof.
  intros Hsave. unfold postReportingPeriods.
  destruct (parse newDate postReportingPeriodsSchema (body req)) as [parsed|] eqn:E;
    [|apply adds_throw].
  destruct (validated_periods _ _ E) as (raws & periods & _ & -> & Hall).
  apply adds_bind; [|intros; apply adds_ret].
  apply adds_try_catch; [|intros; apply adds_throw].
  apply adds_bind; [|intros; apply adds_ret].
  apply adds_allSettled. apply Forall_forall. intros m Hm.
  apply in_map_iff in Hm as (period & <- & Hin).
  destruct (Forall2_In_right _ _ _ _ Hall Hin) as (raw & _ & Hraw).
  exact (Hsave raw period Hraw).
Qed.

Lemma In_calls_of c es : In (pending c) es -> In c (calls_of es).
Proof.
  induction es as [|e es IH]; [contradiction|].
  intros [-> | Hin]; [now left|].
  destruct e; simpl; auto.
Qed.

(** What lines 570-573 leave of the turnover.  The empty currency is
    falsy and is left as it is, which is its upper case. *)
Lemma normalisePeriodTurnover_result t h turnover h' :
  normalisePeriodTurnover toUpperCase t h = (fulfilled turnover, h') ->
  h' = h /\
  (t = VUndefined -> turnover = VUndefined) /\
  (t = VNull -> turnover = VNull) /\
  (toUpperCase "" = "" ->
   forall c, get "currency" t = VStr c ->
     get "currency" turnover = VStr (toUpperCase (trim c)) /\
     forall k, k <> "currency" -> get k turnover = get k t).
Proof.
  unfold normalisePeriodTurnover.
  destruct (truthy (get "currency" t)) eqn:Ht.
  - destruct (get "currency" t) eqn:Ec; try discriminate.
    intros H. inversion H; subst. clear H.
    split; [reflexivity|].
    split; [intros ->; discriminate|]. split; [intros ->; discriminate|].
    intros _ c Hc. inversion Hc; subst c. split.
    + apply get_set_same.
    + intros k Hk. rewrite get_set_other by exact Hk. apply get_spread.
  - intros H. inversion H; subst. clear H.
    split; [reflexivity|]. split; [auto|]. split; [auto|].
    intros Hempty c Hc. rewrite Hc in Ht. simpl in Ht.
    apply negb_false_iff, string_eqb_eq in Ht. subst c.
    change (trim "") with "". rewrite Hempty.
    split; [exact Hc | reflexivity].
Qed.

Lemma normalisePeriodTurnover_validated raw period :
  parse newDate reportingPeriodSchema raw = Some period ->
  exists turnover, forall h,
    normalisePeriodTurnover toUpperCase (get "turnover" (economyOf period)) h
    = (fulfilled turnover, h).
Proof.
  intros Hv. unfold normalisePeriodTurnover.
  destruct (validated_turnover newDate raw period Hv)
    as [-> | [-> | (o & Ho & [Hc | (c & Hc)])]].
  - exists VUndefined. intros h. reflexivity.
  - exists VNull. intros h. reflexivity.
  - rewrite Hc. simpl. eexists. intros h. reflexivity.
  - rewrite Hc. destruct (truthy (VStr c)); eexists; intros h; reflexivity.
Qed.

(** With a gateway that fulfils the opening upserts, a validated period
    gets its three opening calls and then the calls of its field groups. *)
Lemma savePeriod_opens company metadata raw period h :
  opens gateway ->
  parse newDate reportingPeriodSchema raw = Some period ->
  exists opened dbEmissions dbEconomy turnover,
    (forall h', normalisePeriodTurnover toUpperCase (get "turnover" (economyOf period)) h'
                = (fulfilled turnover, h')) /\
    Forall (fun c => opening (fn c) = true) opened /\
    savePeriod toUpperCase yearOf gateway company metadata period h
    = (fulfilled VUndefined,
       (h ++ opened
          ++ calls_of (periodFieldGroups dbEmissions dbEconomy
                         (emissionsOf period) (economyOf period)
                         turnover metadata))%list).
Proof.
  intros Hopens Hv.
  destruct (validated_dates newDate raw period Hv) as (s & e & _ & He & _).
  destruct (normalisePeriodTurnover_validated raw period Hv) as (turnover & Hn).
  unfold savePeriod. rewrite He. unfold bind at 1. unfold invoke at 1.
  match goal with
  | |- context [gateway h ?c] =>
      destruct (Hopens h c eq_refl) as (rp & ->); set (c1 := c)
  end.
  unfold bind at 1. unfold all, invoke. cbn [settle_all].
  match goal with
  | |- context [gateway (h ++ [c1])%list ?c] =>
      destruct (Hopens (h ++ [c1])%list c eq_refl) as (dbEm & ->); set (c2 := c)
  end.
  match goal with
  | |- context [gateway ((h ++ [c1]) ++ [c2])%list ?c] =>
      destruct (Hopens ((h ++ [c1]) ++ [c2])%list c eq_refl) as (dbEc & ->);
      set (c3 := c)
  end.
  cbn [first_rejection nth].
  unfold bind at 1. fold (economyOf period). rewrite Hn.
  unfold bind at 1. fold (emissionsOf period). rewrite allSettled_run.
  exists [c1; c2; c3], dbEm, dbEc, turnover.
  split; [exact Hn|]. split; [repeat constructor|].
  cbn [ret]. rewrite <- !app_assoc. reflexivity.
Qed.
End Saving.

(** ** Empty collections *)

(** C9.  A POST of an empty array of goals, initiatives or equalities makes
    no call to the gateway, so that nothing stored changes, and is answered
    with [{ ok: true }]. *)
Theorem post_empty_collection_makes_no_call
    (gateway : Async.history -> Async.call -> Async.settled value)
    (req : Routes.request) (locals : value) (h : Async.history) :
  (get "goals" (Routes.body req) = VArr [] ->
   Routes.postGoals gateway req locals h = (Async.fulfilled Routes.ok, h)) /\
  (get "initiatives" (Routes.body req) = VArr [] ->
   Routes.postInitiatives gateway req locals h = (Async.fulfilled Routes.ok, h)) /\
  (get "equalities" (Routes.body req) = VArr [] ->
   Routes.postEqualities gateway req locals h = (Async.fulfilled Routes.ok, h)).
Proof.
  unfold Routes.postGoals, Routes.postInitiatives, Routes.postEqualities,
    Routes.postCollection.
  repeat split; intros ->; reflexivity.
Qed.

Lemma post_empty_collection_makes_no_call_witness :
  Routes.postGoals RoutesFacts.fulfilling
    {| Routes.params := VObj [("wikidataId", VStr "Q1")];
       Routes.body := VObj [("goals", VArr [])] |}
    (VObj [("metadata", VObj [("source", VStr "report")])]) []
  = (Async.fulfilled Routes.ok, []).
Proof.
  apply (proj1 (post_empty_collection_makes_no_call RoutesFacts.fulfilling
           {| Routes.params := VObj [("wikidataId", VStr "Q1")];
              Routes.body := VObj [("goals", VArr [])] |}
           (VObj [("metadata", VObj [("source", VStr "report")])]) [])).
  reflexivity.
Defined.

(** ** Field groups joined by allSettled *)

Section FieldGroups.
Import Async Routes RoutesFacts.
Variable gateway : history -> call -> settled value.

End FieldGroups.

(** ** Dates of the reporting periods *)

Section Dates.
Import Zod ZodFacts Async Routes RoutesFacts.
Variable toUpperCase : string -> string.
Variable newDate : value -> option Z.
Variable yearOf : Z -> string.
Variable gateway : history -> call -> settled value.

Lemma postReportingPeriods_invalid req locals h :
  parse newDate postReportingPeriodsSchema (body req) = None ->
  postReportingPeriods toUpperCase newDate yearOf gateway req locals h
  = (rejected ZodError, h).
Proof. intros H. unfold postReportingPeriods. now rewrite H. Qed.

Lemma period_out_of_order_rejected body raws raw s e :
  get "reportingPeriods" body = VArr raws -> In raw raws ->
  newDate (get "startDate" raw) = Some s ->
  newDate (get "endDate" raw) = Some e -> (e <= s)%Z ->
  parse newDate postReportingPeriodsSchema body = None.
Proof.
  intros Hraws Hin Hs He Hle.
  destruct (parse newDate postReportingPeriodsSchema body) as [parsed|] eqn:E;
    [|reflexivity].
  destruct (validated_periods newDate _ _ E) as (raws' & periods & Hr & _ & Hall).
  rewrite Hraws in Hr. inversion Hr; subst raws'.
  destruct (Forall2_In_left _ _ _ _ Hall Hin) as (period & _ & Hv).
  destruct (validated_dates newDate raw period Hv)
    as (s' & e' & _ & _ & Hs' & He' & Hlt).
  rewrite Hs in Hs'. rewrite He in He'. inversion Hs'. inversion He'. lia.
Qed.

(** The field-group calls are not calls of [f] when [f] is none of their
    operations. *)
Lemma periodFieldGroups_other (P : call -> Prop) dbEmissions dbEconomy
    emissions economy turnover metadata :
  (forall c, opening (fn c) = false -> P c) ->
  Forall P (calls_of (periodFieldGroups dbEmissions dbEconomy emissions
                        economy turnover metadata)).
Proof.
  intros H. unfold periodFieldGroups. apply Forall_calls_of.
  repeat constructor;
    first [apply entry_ok_whenDefined | apply entry_ok_whenTruthy];
    intros _; apply H; reflexivity.
Qed.
End Dates.

(** C10.  A POST of reporting periods in which some period has a start date
    that is not strictly before its end date is rejected by the validation at
    the head of the handler, before any call to the gateway; and every
    [upsertReportingPeriod] call that the handler makes carries a start date
    strictly before the end date. *)
Theorem reportingPeriods_start_before_end
    (toUpperCase : string -> string)
    (newDate : value -> option Z) (yearOf : Z -> string)
    (gateway : Async.history -> Async.call -> Async.settled value)
    (req : Routes.request) (locals : value) (h : Async.history) :
  (forall raws raw s e,
      get "reportingPeriods" (Routes.body req) = VArr raws -> In raw raws ->
      newDate (get "startDate" raw) = Some s ->
      newDate (get "endDate" raw) = Some e -> (e <= s)%Z ->
      Routes.postReportingPeriods toUpperCase newDate yearOf gateway req locals h
      = (Async.rejected Routes.ZodError, h)) /\
  Forall (fun c =>
            Async.fn c = Async.upsertReportingPeriod ->
            exists company metadata s e reportURL year,
              Async.args c
              = [company; metadata;
                 VObj [("startDate", VDate s); ("endDate", VDate e);
                       ("reportURL", reportURL); ("year", year)]] /\
              (s < e)%Z)
    (RoutesFacts.added
       (Routes.postReportingPeriods toUpperCase newDate yearOf gateway req locals) h).
Proof.
  split.
  - intros raws raw s e Hraws Hin Hs He Hle.
    apply postReportingPeriods_invalid.
    exact (period_out_of_order_rejected newDate _ _ _ _ _ Hraws Hin Hs He Hle).
  - apply adds_added. apply postReportingPeriods_adds.
    intros raw period Hv.
    destruct (validated_dates newDate raw period Hv) as (s & e & Hs & He & _ & _ & Hlt).
    apply savePeriod_adds.
    + intros t Ht _. unfold RoutesFacts.openingCall. rewrite Hs, He.
      cbn [Async.args]. eauto 10.
    + intros a H. discriminate H.
    + intros a H. discriminate H.
    + intros. apply periodFieldGroups_other.
      intros c Hc Hfn. rewrite Hfn in Hc. discriminate Hc.
Qed.

Lemma reportingPeriods_start_before_end_witness :
  Routes.postReportingPeriods asciiUpperCase RoutesFacts.dateOfNumber (fun _ => "2023")
    RoutesFacts.fulfilling
    {| Routes.params := VObj [("wikidataId", VStr "Q1")];
       Routes.body :=
         VObj [("reportingPeriods",
                 VArr [VObj [("startDate", VNum (inject_Z 1704067200000));
                             ("endDate", VNum (inject_Z 1672531200000))]])] |}
    (VObj [("metadata", VStr "m"); ("company", VObj [("wikidataId", VStr "Q1")])])
    []
  = (Async.rejected Routes.ZodError, []).
Proof.
  apply (proj1 (reportingPeriods_start_before_end asciiUpperCase RoutesFacts.dateOfNumber
                  (fun _ => "2023") RoutesFacts.fulfilling _ _ [])
           [VObj [("startDate", VNum (inject_Z 1704067200000));
                  ("endDate", VNum (inject_Z 1672531200000))]]
           (VObj [("startDate", VNum (inject_Z 1704067200000));
                  ("endDate", VNum (inject_Z 1672531200000))])
           1704067200000%Z 1672531200000%Z).
  - reflexivity.
  - left. reflexivity.
  - reflexivity.
  - reflexivity.
  - lia.
Defined.

(** ** Currency of the turnover *)

Section Currency.
Import Zod ZodFacts Async Routes RoutesFacts.
Variable toUpperCase : string -> string.
Variable newDate : value -> option Z.
Variable yearOf : Z -> string.
Variable gateway : history -> call -> settled value.

(** What lines 723-726 leave of a turnover that has a currency. *)
Lemma normaliseEconomyTurnover_result t c :
  get "currency" t = VStr c ->
  exists turnover,
    (forall h, normaliseEconomyTurnover toUpperCase t h = (fulfilled turnover, h)) /\
    is_undefined turnover = false /\
    get "currency" turnover = VStr (toUpperCase (trim c)) /\
    forall k, k <> "currency" -> get k turnover = get k t.
Proof.
  intros Hc. unfold normaliseEconomyTurnover. rewrite Hc.
  destruct t; try discriminate. cbn [truthy spread].
  eexists. split; [intros h; reflexivity|]. split; [reflexivity|]. split.
  - apply get_set_same.
  - intros k Hk. now rewrite get_set_other.
Qed.

(** The per-year economy handler, on a body that passes validation. *)
Lemma postEconomy_calls req locals parsedBody turnover h :
  parse newDate postEconomyBodySchema (body req) = Some parsedBody ->
  (forall h', normaliseEconomyTurnover toUpperCase
                (get "turnover" (nullish (get "economy" parsedBody) (VObj []))) h'
              = (fulfilled turnover, h')) ->
  postEconomy toUpperCase newDate gateway req locals h
  = (fulfilled ok,
     (h ++ calls_of
             (economyFieldGroups (get "economy" locals) turnover
                (get "employees" (nullish (get "economy" parsedBody) (VObj [])))
                (get "metadata" locals)))%list).
Proof.
  intros Hp Hn. unfold postEconomy. rewrite Hp.
  unfold bind at 1. rewrite Hn.
  unfold bind at 1. unfold try_catch. unfold bind at 1.
  rewrite allSettled_run. reflexivity.
Qed.

(** The per-year emissions handler, on a body that passes validation. *)
Lemma postEmissions_calls req locals parsed h :
  parse newDate postEmissionsBodySchema (body req) = Some parsed ->
  postEmissions newDate gateway req locals h
  = (fulfilled ok,
     (h ++ calls_of
             (emissionsFieldGroups (get "emissions" locals)
                (orDefault (get "emissions" parsed) (VObj []))
                (get "metadata" locals)))%list).
Proof.
  intros Hp. unfold postEmissions. rewrite Hp.
  unfold bind at 1. unfold try_catch. unfold bind at 1.
  rewrite allSettled_run. reflexivity.
Qed.
End Currency.

(** C4.  When the validated turnover of a submission has the currency [c],
    every call of [upsertTurnover] made for it is given that turnover with
    its currency replaced by [c], trimmed and upper-cased, and its other
    fields unchanged: in the save of a reporting period, where the call is
    made as soon as the opening upserts are fulfilled, and in the per-year
    economy handler, where it is always made.  This holds for every currency
    string, with the whitespace that [trim] removes (Unicode whitespace
    included) and the upper case of the runtime, of which only that the
    empty string is its own upper case is used (the period handler leaves an
    empty currency as it is).  The currency [" sek "] is trimmed to ["sek"],
    of which ["SEK"] is the upper case. *)
Theorem turnover_currency_normalised
    (toUpperCase : string -> string)
    (newDate : value -> option Z) (yearOf : Z -> string)
    (gateway : Async.history -> Async.call -> Async.settled value)
    (h : Async.history) (c : string) :
  toUpperCase "" = "" ->
  let normalised (submitted metadata : value) (call : Async.call) : Prop :=
    Async.fn call = Async.upsertTurnover ->
    exists db turnover,
      Async.args call = [db; turnover; metadata] /\
      get "currency" turnover = VStr (toUpperCase (trim c)) /\
      forall k, k <> "currency" -> get k turnover = get k submitted in
  (forall company metadata raw period,
      Zod.parse newDate Routes.reportingPeriodSchema raw = Some period ->
      let submitted := get "turnover" (RoutesFacts.economyOf period) in
      get "currency" submitted = VStr c ->
      let calls :=
        RoutesFacts.added
          (Routes.savePeriod toUpperCase yearOf gateway company metadata period)
          h in
      Forall (normalised submitted metadata) calls /\
      (RoutesFacts.opens gateway ->
       exists call, In call calls /\ Async.fn call = Async.upsertTurnover)) /\
  (forall req locals parsedBody,
      Zod.parse newDate Routes.postEconomyBodySchema (Routes.body req)
        = Some parsedBody ->
      let submitted :=
        get "turnover" (Routes.nullish (get "economy" parsedBody) (VObj [])) in
      get "currency" submitted = VStr c ->
      let calls :=
        RoutesFacts.added
          (Routes.postEconomy toUpperCase newDate gateway req locals) h in
      Forall (normalised submitted (get "metadata" locals)) calls /\
      exists call, In call calls /\ Async.fn call = Async.upsertTurnover) /\
  trim " sek " = "sek" /\
  (toUpperCase "sek" = "SEK" -> toUpperCase (trim " sek ") = "SEK").
Proof.
  intros Hempty. cbv zeta.
  split; [|split; [|split; [reflexivity | intros Hsek; exact Hsek]]].
  - intros company metadata raw period Hv Hc. split.
    + apply adds_added. apply savePeriod_adds.
      * intros t _ H. discriminate H.
      * intros a H. discriminate H.
      * intros a H. discriminate H.
      * intros dbEmissions dbEconomy turnover h0 h0' Hn.
        destruct (normalisePeriodTurnover_result _ _ _ _ _ Hn) as (_ & _ & _ & Hcur).
        destruct (Hcur Hempty c Hc) as [Hcur1 Hcur2].
        unfold Routes.periodFieldGroups. apply Forall_calls_of.
        repeat constructor;
          first [apply entry_ok_whenDefined | apply entry_ok_whenTruthy];
          intros _ Hfn; try discriminate Hfn.
        exists dbEconomy, turnover. now repeat split.
    + intros Hopens.
      destruct (savePeriod_opens toUpperCase newDate yearOf gateway company metadata raw
                  period h Hopens Hv)
        as (opened & dbEmissions & dbEconomy & turnover & Hn & _ & Hsave).
      rewrite (added_app _ _ _ (f_equal snd Hsave)).
      destruct (normalisePeriodTurnover_result _ _ _ _ _ (Hn h)) as (_ & _ & _ & Hcur).
      destruct (Hcur Hempty c Hc) as [Hcur1 _].
      exists {| Async.fn := Async.upsertTurnover;
                Async.args := [dbEconomy; turnover; metadata] |}.
      split; [|reflexivity].
      apply in_or_app. right. apply In_calls_of.
      assert (Hdef : Routes.is_undefined turnover = false).
      { destruct turnover; try reflexivity. discriminate Hcur1. }
      match goal with
      | |- In _ (Routes.periodFieldGroups ?e ?d ?em ?ec ?t ?m) =>
          assert (Hin : In (Routes.whenDefined t Async.upsertTurnover [d; t; m])
                          (Routes.periodFieldGroups e d em ec t m))
            by (unfold Routes.periodFieldGroups; simpl; tauto)
      end.
      unfold Routes.whenDefined in Hin at 1. now rewrite Hdef in Hin.
  - intros req locals parsedBody Hp Hc.
    destruct (normaliseEconomyTurnover_result toUpperCase _ c Hc)
      as (turnover & Hn & Hdef & Hcur1 & Hcur2).
    rewrite (added_app _ _ _
               (f_equal snd (postEconomy_calls toUpperCase newDate gateway req locals
                               parsedBody turnover h Hp Hn))).
    unfold Routes.economyFieldGroups. split.
    + apply Forall_calls_of.
      repeat constructor; apply entry_ok_whenDefined;
        intros _ Hfn; try discriminate Hfn.
      exists (get "economy" locals), turnover. now repeat split.
    + exists {| Async.fn := Async.upsertTurnover;
                Async.args := [get "economy" locals; turnover; get "metadata" locals] |}.
      split; [|reflexivity].
      apply In_calls_of. unfold Routes.whenDefined at 1. rewrite Hdef. now left.
Qed.

Lemma turnover_currency_normalised_witness :
  exists call,
    In call (RoutesFacts.added
               (Routes.postEconomy asciiUpperCase RoutesFacts.dateOfNumber RoutesFacts.fulfilling
                  RoutesFacts.sekRequest RoutesFacts.sekLocals) [])
    /\ Async.fn call = Async.upsertTurnover.
Proof.
  apply (proj2 (proj1 (proj2 (turnover_currency_normalised asciiUpperCase
                                RoutesFacts.dateOfNumber (fun _ => "2023")
                                RoutesFacts.fulfilling [] " sek " eq_refl))
                  RoutesFacts.sekRequest RoutesFacts.sekLocals
                  (Routes.body RoutesFacts.sekRequest) eq_refl eq_refl)).
Defined.

(** The request above, run: the turnover reaches the gateway in ["SEK"]. *)
Example sek_is_persisted_as_SEK :
  Routes.postEconomy asciiUpperCase RoutesFacts.dateOfNumber RoutesFacts.fulfilling
    RoutesFacts.sekRequest RoutesFacts.sekLocals []
  = (Async.fulfilled Routes.ok,
     [ {| Async.fn := Async.upsertTurnover;
          Async.args := [VObj [("id", VNum 7)];
                         VObj [("value", VNum (inject_Z 1000));
                               ("currency", VStr "SEK")];
                         VObj [("source", VStr "report")]] |} ]).
Proof. reflexivity. Qed.

(** ** Omitted and null field groups *)

Section Groups.
Import Zod ZodFacts Async Routes RoutesFacts.
Variable toUpperCase : string -> string.
Variable newDate : value -> option Z.
Variable yearOf : Z -> string.
Variable gateway : history -> call -> settled value.

Ltac each_group H :=
  simpl in H;
  repeat (destruct H as [H | H]; [inversion H; subst; clear H|]);
  [.. | contradiction].

Lemma emissionsGroups_schemas g op :
  In (g, op) emissionsGroups ->
  exists sg, In (g, sg) emissionsShape /\
             parse newDate sg VNull = Some VNull /\
             parse newDate sg VUndefined = Some VUndefined.
Proof.
  intros H. each_group H;
    first [ exists totalSchema; split; [simpl; tauto | split; reflexivity]
          | exists scope2Schema; split; [simpl; tauto | split; reflexivity] ].
Qed.

Lemma economyGroups_schemas g op :
  In (g, op) economyGroups ->
  exists sg, In (g, sg) economyShape /\
             parse newDate sg VNull = Some VNull /\
             parse newDate sg VUndefined = Some VUndefined.
Proof.
  intros H. each_group H;
    first [ exists turnoverSchema; split; [simpl; tauto | split; reflexivity]
          | exists employeesSchema; split; [simpl; tauto | split; reflexivity] ].
Qed.

(** Validation keeps an omitted group omitted and a null group null. *)
Lemma validated_group raw period g op submitted :
  parse newDate reportingPeriodSchema raw = Some period ->
  submitted = VUndefined \/ submitted = VNull ->
  submittedAs raw g op submitted -> submittedAs period g op submitted.
Proof.
  intros Hv Hsub [[Hin Hg] | [Hin Hg]]; [left | right]; (split; [exact Hin|]).
  - destruct (emissionsGroups_schemas g op Hin) as (sg & Hsg & Hnull & Hundef).
    pose proof (validated_emissions_group newDate raw period Hv g sg Hsg) as H.
    rewrite Hg in H. destruct Hsub as [-> | ->]; congruence.
  - destruct (economyGroups_schemas g op Hin) as (sg & Hsg & Hnull & Hundef).
    pose proof (validated_economy_group newDate raw period Hv g sg Hsg) as H.
    rewrite Hg in H. destruct Hsub as [-> | ->]; congruence.
Qed.

Ltac entries :=
  unfold periodFieldGroups; cbv zeta; apply Forall_calls_of;
  repeat constructor;
  first [apply entry_ok_whenDefined | apply entry_ok_whenTruthy].

(** No upsert is called for a group that the period does not have. *)
Lemma savePeriod_group_omitted company metadata period g op :
  submittedAs period g op VUndefined ->
  adds (fun c => fn c <> op) (savePeriod toUpperCase yearOf gateway company metadata period).
Proof.
  intros [[Hin Hg] | [Hin Hg]]; each_group Hin;
    (apply savePeriod_adds;
     [ intros t _; discriminate
     | intros a; discriminate
     | intros a; discriminate
     | intros dbEmissions dbEconomy turnover h0 h0' Hn;
       destruct (normalisePeriodTurnover_result _ _ _ _ _ Hn) as (_ & Hu & _ & _);
       entries; intros Hdef; cbn [fn]; try discriminate;
       first [ rewrite Hg in Hdef; discriminate Hdef
             | rewrite (Hu Hg) in Hdef; discriminate Hdef ] ]).
Qed.

(** The upsert of a group that the period has as null is given null. *)
Lemma savePeriod_group_null company metadata period g op :
  submittedAs period g op VNull ->
  adds (fun c => fn c = op -> exists db, args c = [db; VNull; metadata])
    (savePeriod toUpperCase yearOf gateway company metadata period).
Proof.
  intros [[Hin Hg] | [Hin Hg]]; each_group Hin;
    (apply savePeriod_adds;
     [ intros t _ H; discriminate H
     | intros a H; discriminate H
     | intros a H; discriminate H
     | intros dbEmissions dbEconomy turnover h0 h0' Hn;
       destruct (normalisePeriodTurnover_result _ _ _ _ _ Hn) as (_ & _ & Hnl & _);
       entries; intros Hdef Hfn; try discriminate Hfn; cbn [args];
       first [ rewrite Hg | rewrite (Hnl Hg) ]; eexists; reflexivity ]).
Qed.

(** With the opening upserts fulfilled, that upsert is called. *)
Lemma savePeriod_group_null_called company metadata raw period h g op :
  opens gateway ->
  parse newDate reportingPeriodSchema raw = Some period ->
  submittedAs period g op VNull ->
  exists db,
    In {| fn := op; args := [db; VNull; metadata] |}
      (added (savePeriod toUpperCase yearOf gateway company metadata period) h).
Proof.
  intros Hopens Hv Hsub.
  destruct (savePeriod_opens toUpperCase newDate yearOf gateway company metadata raw
              period h Hopens Hv)
    as (opened & dbEmissions & dbEconomy & turnover & Hn & _ & Hsave).
  rewrite (added_app _ _ _ (f_equal snd Hsave)).
  destruct (normalisePeriodTurnover_result _ _ _ _ _ (Hn h)) as (_ & _ & Hnl & _).
  destruct Hsub as [[Hin Hg] | [Hin Hg]]; each_group Hin;
    eexists; apply in_or_app; right; apply In_calls_of;
    unfold periodFieldGroups; cbv zeta;
    first [ rewrite Hg | rewrite (Hnl Hg) ];
    unfold whenDefined; cbn [is_undefined];
    repeat first [ left; reflexivity | right ].
Qed.
End Groups.

(** C8.  In the save of a reporting period, for each of the nullable groups
    scope1, scope2, biogenic, statedTotalEmissions, scope1And2, turnover and
    employees: the schema of the group accepts [null] and gives it back as
    [null]; when the request omits the group, no call of its upsert is made;
    when the request has it as [null], every call of its upsert is given
    [null], and the call is made as soon as the opening upserts of the
    period are fulfilled. *)
Theorem nullable_group_omitted_or_null
    (toUpperCase : string -> string)
    (newDate : value -> option Z) (yearOf : Z -> string)
    (gateway : Async.history -> Async.call -> Async.settled value)
    (g : string) (op : Async.operation) :
  (In (g, op) RoutesFacts.emissionsGroups ->
   exists sg, In (g, sg) Routes.emissionsShape /\
              Zod.parse newDate sg VNull = Some VNull) /\
  (In (g, op) RoutesFacts.economyGroups ->
   exists sg, In (g, sg) Routes.economyShape /\
              Zod.parse newDate sg VNull = Some VNull) /\
  forall company metadata raw period h,
    Zod.parse newDate Routes.reportingPeriodSchema raw = Some period ->
    let calls :=
      RoutesFacts.added
        (Routes.savePeriod toUpperCase yearOf gateway company metadata period)
        h in
    (RoutesFacts.submittedAs raw g op VUndefined ->
     Forall (fun c => Async.fn c <> op) calls) /\
    (RoutesFacts.submittedAs raw g op VNull ->
     Forall (fun c => Async.fn c = op ->
                      exists db, Async.args c = [db; VNull; metadata]) calls /\
     (RoutesFacts.opens gateway ->
      exists db,
        In {| Async.fn := op; Async.args := [db; VNull; metadata] |} calls)).
Proof.
  split; [|split].
  - intros Hin. destruct (emissionsGroups_schemas newDate g op Hin)
      as (sg & Hsg & Hnull & _). now exists sg.
  - intros Hin. destruct (economyGroups_schemas newDate g op Hin)
      as (sg & Hsg & Hnull & _). now exists sg.
  - intros company metadata raw period h Hv. cbv zeta. split.
    + intros Hsub.
      apply (validated_group newDate raw period g op VUndefined Hv) in Hsub;
        [|now left].
      apply adds_added. eapply savePeriod_group_omitted. exact Hsub.
    + intros Hsub.
      apply (validated_group newDate raw period g op VNull Hv) in Hsub;
        [|now right].
      split.
      * apply adds_added. eapply savePeriod_group_null. exact Hsub.
      * intros Hopens.
        exact (savePeriod_group_null_called toUpperCase newDate yearOf gateway company
                 metadata raw period h g op Hopens Hv Hsub).
Qed.

Lemma nullable_group_omitted_or_null_witness :
  exists db,
    In {| Async.fn := Async.upsertTurnover;
          Async.args := [db; VNull; VObj [("source", VStr "report")]] |}
      (RoutesFacts.added
         (Routes.savePeriod asciiUpperCase (fun _ => "2023") RoutesFacts.fulfilling
            (VObj [("wikidataId", VStr "Q1")]) (VObj [("source", VStr "report")])
            RoutesFacts.clearingPeriodValidated) []).
Proof.
  destruct (proj2 (proj2
              (nullable_group_omitted_or_null asciiUpperCase RoutesFacts.dateOfNumber
                 (fun _ => "2023") RoutesFacts.fulfilling
                 "turnover" Async.upsertTurnover))
              (VObj [("wikidataId", VStr "Q1")]) (VObj [("source", VStr "report")])
              RoutesFacts.clearingPeriod RoutesFacts.clearingPeriodValidated []
              eq_refl) as [_ Hnull].
  destruct Hnull as [_ Hcalled].
  - right. split; [simpl; tauto | reflexivity].
  - apply Hcalled. intros h c _. eexists. reflexivity.
Defined.

(** The period above, saved: scope 1 and turnover are upserted with [null],
    and no other group is touched. *)
Example clearing_period_calls :
  map Async.fn
    (RoutesFacts.added
       (Routes.savePeriod asciiUpperCase (fun _ => "2023") RoutesFacts.fulfilling
          (VObj [("wikidataId", VStr "Q1")]) (VObj [("source", VStr "report")])
          RoutesFacts.clearingPeriodValidated) [])
  = [Async.upsertReportingPeriod; Async.upsertEmissions; Async.upsertEconomy;
     Async.upsertScope1; Async.upsertTurnover].
Proof. reflexivity. Qed.



(** The request above, with a gateway that rejects the scope 1 upsert: the
    rejection is the outcome kept for scope 1, the biogenic upsert is called
    all the same and fulfilled, and the handler answers [{ ok: true }]. *)
Example rejected_scope1_leaves_biogenic :
  let es := Routes.emissionsFieldGroups (VObj [("id", VNum 5)])
              (get "emissions" (Routes.body RoutesFacts.emissionsRequest))
              (VObj [("source", VStr "report")]) in
  fst (Async.settle_all (map (Routes.run RoutesFacts.rejectingScope1) es) [])
  = [Async.rejected (VStr "P2025"); Async.fulfilled (VBool false);
     Async.fulfilled VUndefined; Async.fulfilled (VBool false);
     Async.fulfilled (VBool false); Async.fulfilled (VObj [("id", VNum 1)])]
  /\ map Async.fn
       (snd (Routes.postEmissions RoutesFacts.dateOfNumber
               RoutesFacts.rejectingScope1 RoutesFacts.emissionsRequest
               RoutesFacts.emissionsLocals []))
     = [Async.upsertScope1; Async.upsertBiogenic]
  /\ fst (Routes.postEmissions RoutesFacts.dateOfNumber
            RoutesFacts.rejectingScope1 RoutesFacts.emissionsRequest
            RoutesFacts.emissionsLocals [])
     = Async.fulfilled Routes.ok.
Proof. repeat split. Qed.

(** ** Further properties of the write routes *)

Section RoutesMoreFacts.
Import Zod ZodFacts Async Routes RoutesFacts RoutesMore.
Variable toUpperCase : string -> string.
Variable newDate : value -> option Z.
Variable yearOf : Z -> string.
Variable gateway : history -> call -> settled value.

Lemma allSettled_fulfilled {A} (ps : list (promise A)) h :
  fst (allSettled ps h) = fulfilled (fst (settle_all ps h)).
Proof. unfold allSettled. now destruct (settle_all ps h). Qed.

Lemma postReportingPeriods_valid req locals h parsed :
  parse newDate postReportingPeriodsSchema (body req) = Some parsed ->
  fst (postReportingPeriods toUpperCase newDate yearOf gateway req locals h) = fulfilled ok.
Proof.
  intros Hp. unfold postReportingPeriods. rewrite Hp.
  destruct (validated_periods newDate _ _ Hp) as (raws & periods & _ & -> & _).
  unfold bind at 1. unfold try_catch. unfold bind at 1.
  match goal with |- context [allSettled ?ps h] =>
    pose proof (allSettled_fulfilled ps h) as H; destruct (allSettled ps h) as [r h']
  end.
  simpl in H. subst r. reflexivity.
Qed.

(** The turnover of a validated economy is absent, null, or an object whose
    currency is absent or a string. *)
Lemma parsed_economy_turnover e e' :
  parse newDate economySchema e = Some e' ->
  let turnover := get "turnover" (nullish e' (VObj [])) in
  turnover = VUndefined \/ turnover = VNull \/
  (exists o, turnover = VObj o /\
     (get "currency" turnover = VUndefined \/
      exists c, get "currency" turnover = VStr c)).
Proof.
  intros H. cbv zeta.
  destruct (parse_optional_object newDate _ _ _ H) as [[-> ->] | (o' & -> & Hobj)].
  - now left.
  - cbn [nullish].
    pose proof (parse_object_get newDate _ _ _ "turnover" turnoverSchema Hobj
                  NoDup_economyShape ltac:(simpl; tauto)) as Ht.
    destruct (parse_nullable_optional_object newDate _ _ _ Ht)
      as [[_ ->] | [[_ ->] | (t' & E & Htobj)]]; [tauto | tauto |].
    right. right. exists t'. split; [exact E|].
    pose proof (parse_object_get newDate _ _ _ "currency" (optional string_)
                  Htobj ltac:(repeat constructor; simpl; intuition discriminate)
                  ltac:(simpl; tauto)) as Hc.
    cbn [parse] in Hc.
    destruct (get "currency" (get "turnover" e)); inversion Hc; eauto.
Qed.

Lemma postEconomy_body req parsedBody :
  parse newDate postEconomyBodySchema (body req) = Some parsedBody ->
  parse newDate economySchema (get "economy" (body req))
  = Some (get "economy" parsedBody).
Proof.
  intros H.
  exact (parse_object_get newDate _ _ _ "economy" economySchema H
           ltac:(repeat constructor; simpl; tauto) ltac:(simpl; tauto)).
Qed.

Lemma normaliseEconomyTurnover_validated req parsedBody :
  parse newDate postEconomyBodySchema (body req) = Some parsedBody ->
  exists turnover, forall h,
    normaliseEconomyTurnover toUpperCase
      (get "turnover" (nullish (get "economy" parsedBody) (VObj []))) h
    = (fulfilled turnover, h).
Proof.
  intros Hp. unfold normaliseEconomyTurnover.
  destruct (parsed_economy_turnover _ _ (postEconomy_body _ _ Hp))
    as [-> | [-> | (o & -> & [Hc | (c & Hc)])]].
  - exists VUndefined. intros h. reflexivity.
  - exists VNull. intros h. reflexivity.
  - rewrite Hc. eexists. intros h. reflexivity.
  - rewrite Hc. eexists. intros h. reflexivity.
Qed.

Lemma postEconomy_valid req locals h parsedBody :
  parse newDate postEconomyBodySchema (body req) = Some parsedBody ->
  fst (postEconomy toUpperCase newDate gateway req locals h) = fulfilled ok.
Proof.
  intros Hp.
  destruct (normaliseEconomyTurnover_validated _ _ Hp) as (turnover & Hn).
  now rewrite (postEconomy_calls toUpperCase newDate gateway req locals parsedBody turnover h Hp Hn).
Qed.
End RoutesMoreFacts.

(** X1.  What the three handlers that join their upserts answer depends on
    the validation of the body only: a body that passes is answered with
    [{ ok: true }] whatever the gateway does with the upserts, and a body that
    does not is rejected with the ZodError before any call.  The error of the
    [catch] around the join is never the answer. *)
Theorem joined_upserts_answer
    (toUpperCase : string -> string)
    (newDate : value -> option Z) (yearOf : Z -> string)
    (gateway : Async.history -> Async.call -> Async.settled value)
    (req : Routes.request) (locals : value) (h : Async.history) :
  (match Zod.parse newDate Routes.postReportingPeriodsSchema (Routes.body req) with
   | Some _ =>
       fst (Routes.postReportingPeriods toUpperCase newDate yearOf gateway req locals h)
       = Async.fulfilled Routes.ok
   | None =>
       Routes.postReportingPeriods toUpperCase newDate yearOf gateway req locals h
       = (Async.rejected Routes.ZodError, h)
   end) /\
  (match Zod.parse newDate Routes.postEmissionsBodySchema (Routes.body req) with
   | Some _ =>
       fst (Routes.postEmissions newDate gateway req locals h)
       = Async.fulfilled Routes.ok
   | None =>
       Routes.postEmissions newDate gateway req locals h
       = (Async.rejected Routes.ZodError, h)
   end) /\
  (match Zod.parse newDate Routes.postEconomyBodySchema (Routes.body req) with
   | Some _ =>
       fst (Routes.postEconomy toUpperCase newDate gateway req locals h)
       = Async.fulfilled Routes.ok
   | None =>
       Routes.postEconomy toUpperCase newDate gateway req locals h
       = (Async.rejected Routes.ZodError, h)
   end).
Proof.
  split; [|split].
  - destruct (Zod.parse newDate Routes.postReportingPeriodsSchema (Routes.body req))
      as [parsed|] eqn:E.
    + exact (postReportingPeriods_valid toUpperCase newDate yearOf gateway req locals h parsed E).
    + now apply postReportingPeriods_invalid.
  - destruct (Zod.parse newDate Routes.postEmissionsBodySchema (Routes.body req))
      as [parsed|] eqn:E.
    + now rewrite (postEmissions_calls newDate gateway req locals parsed h E).
    + unfold Routes.postEmissions. now rewrite E.
  - destruct (Zod.parse newDate Routes.postEconomyBodySchema (Routes.body req))
      as [parsed|] eqn:E.
    + exact (postEconomy_valid toUpperCase newDate gateway req locals h parsed E).
    + unfold Routes.postEconomy. now rewrite E.
Qed.

Lemma nonempty_array_length_truthy (first : value) (others : list value) :
  truthy (length_of (VArr (first :: others))) = true.
Proof.
  cbn [length_of truthy]. apply negb_true_iff.
  destruct (Qeq_bool _ 0) eqn:E; [|reflexivity].
  apply Qeq_bool_eq in E. unfold Qeq in E. cbn [Qnum Qden inject_Z] in E.
  cbn [List.length] in E. lia.
Qed.

(** X2.  A POST of a non-empty array of goals, initiatives or equalities
    makes exactly one call, the create of that collection with the company
    id of the route, the array and the metadata; it is answered with
    [{ ok: true }] when the gateway fulfils the call and rejected with the
    gateway's own reason when it does not. *)
Theorem post_collection_creates_once
    (gateway : Async.history -> Async.call -> Async.settled value)
    (req : Routes.request) (locals : value) (h : Async.history)
    (field : string) (create : Async.operation) (first : value)
    (others : list value) :
  get field (Routes.body req) = VArr (first :: others) ->
  Routes.postCollection gateway field create req locals h
  = (match gateway h (RoutesMore.createCall create field req locals) with
     | Async.fulfilled _ => Async.fulfilled Routes.ok
     | Async.rejected reason => Async.rejected reason
     end,
     (h ++ [RoutesMore.createCall create field req locals])%list).
Proof.
  intros Hitems. unfold Routes.postCollection, RoutesMore.createCall.
  rewrite Hitems, nonempty_array_length_truthy. unfold Async.bind, Async.invoke.
  match goal with |- context [gateway h ?c] => destruct (gateway h c) end;
    reflexivity.
Qed.

Lemma post_collection_creates_once_witness :
  Routes.postGoals RoutesFacts.rejectingScope1
    {| Routes.params := VObj [("wikidataId", VStr "Q1")];
       Routes.body := VObj [("goals", VArr [VObj [("description", VStr "Net zero")]])] |}
    (VObj [("metadata", VStr "m")]) []
  = (Async.fulfilled Routes.ok,
     [ {| Async.fn := Async.createGoals;
          Async.args := [VStr "Q1"; VArr [VObj [("description", VStr "Net zero")]];
                         VStr "m"] |} ]).
Proof.
  apply (post_collection_creates_once RoutesFacts.rejectingScope1
           {| Routes.params := VObj [("wikidataId", VStr "Q1")];
              Routes.body :=
                VObj [("goals", VArr [VObj [("description", VStr "Net zero")]])] |}
           (VObj [("metadata", VStr "m")]) [] "goals" Async.createGoals
           (VObj [("description", VStr "Net zero")]) []).
  reflexivity.
Defined.

Section Periods.
Import Zod ZodFacts Async Routes RoutesFacts RoutesMore.
Variable toUpperCase : string -> string.
Variable newDate : value -> option Z.
Variable yearOf : Z -> string.
Variable gateway : history -> call -> settled value.

Lemma periodCall_validated company metadata raw period :
  parse newDate reportingPeriodSchema raw = Some period ->
  exists t, get "endDate" period = VDate t /\
            periodCall yearOf company metadata period
            = openingCall yearOf company metadata period t.
Proof.
  intros Hv.
  destruct (validated_dates newDate raw period Hv) as (s & e & _ & He & _).
  exists e. split; [exact He|]. unfold periodCall. now rewrite He.
Qed.

(** A validated period first calls [upsertReportingPeriod], and never again. *)
Lemma savePeriod_log company metadata raw period h :
  parse newDate reportingPeriodSchema raw = Some period ->
  exists l,
    snd (savePeriod toUpperCase yearOf gateway company metadata period h)
    = (h ++ periodCall yearOf company metadata period :: l)%list /\
    Forall (fun c => is_upsertReportingPeriod c = false) l.
Proof.
  intros Hv.
  destruct (periodCall_validated company metadata raw period Hv) as (t & He & ->).
  unfold savePeriod. rewrite He. unfold bind at 1. unfold invoke at 1.
  unfold openingCall. rewrite He.
  match goal with |- context [gateway h ?c] => destruct (gateway h c) as [rp|e] end.
  - match goal with
    | |- context [snd (?k (h ++ [?c1])%list)] =>
        assert (Hk : adds (fun x => is_upsertReportingPeriod x = false) k)
    end.
    { apply adds_bind.
      { apply adds_all. repeat constructor; apply adds_invoke; reflexivity. }
      intros dbs. apply adds_bind; [apply adds_normalisePeriodTurnover|].
      intros turnover. apply adds_bind; [|intros; apply adds_ret].
      apply adds_entries. apply periodFieldGroups_other.
      intros c Hc. unfold is_upsertReportingPeriod.
      destruct (fn c); try reflexivity; discriminate Hc. }
    match goal with
    | |- context [snd (?k (h ++ [?c1])%list)] =>
        destruct (Hk (h ++ [c1])%list) as (l & E & Hl)
    end.
    exists l. rewrite E, <- app_assoc. now split.
  - exists []. now split.
Qed.

Lemma savePeriods_log company metadata raws periods h :
  Forall2 (fun raw period => parse newDate reportingPeriodSchema raw = Some period)
    raws periods ->
  exists l,
    snd (settle_all (map (savePeriod toUpperCase yearOf gateway company metadata) periods) h)
    = (h ++ l)%list /\
    filter is_upsertReportingPeriod l
    = map (periodCall yearOf company metadata) periods.
Proof.
  intros Hall. revert h.
  induction Hall as [|raw period raws periods Hv _ IH]; intros h.
  - exists []. simpl. now rewrite app_nil_r.
  - cbn [map]. rewrite settle_all_cons. cbn [snd].
    destruct (savePeriod_log company metadata raw period h Hv) as (l & -> & Hl).
    destruct (IH (h ++ periodCall yearOf company metadata period :: l)%list)
      as (l' & -> & Hl').
    exists (periodCall yearOf company metadata period :: l ++ l')%list.
    split; [now rewrite <- app_assoc|].
    destruct (periodCall_validated company metadata raw period Hv) as (t & _ & E).
    assert (Hopen : is_upsertReportingPeriod
                      (periodCall yearOf company metadata period) = true)
      by (rewrite E; reflexivity).
    cbn [filter]. rewrite Hopen. f_equal. rewrite filter_app, Hl'.
    replace (filter is_upsertReportingPeriod l) with (@nil call); [reflexivity|].
    symmetry. clear - Hl. induction Hl as [|c l Hc _ IHl]; [reflexivity|].
    simpl. now rewrite Hc.
Qed.
End Periods.

(** X3.  On a body that passes validation, the handler of the reporting
    periods calls [upsertReportingPeriod] once for each period of the body,
    in their order and with the dates, report URL and year of that period,
    whatever the gateway answers: the failure of one period does not keep the
    others from being saved. *)
Theorem every_period_is_opened
    (toUpperCase : string -> string)
    (newDate : value -> option Z) (yearOf : Z -> string)
    (gateway : Async.history -> Async.call -> Async.settled value)
    (req : Routes.request) (locals : value) (h : Async.history)
    (parsed : value) (periods : list value) :
  Zod.parse newDate Routes.postReportingPeriodsSchema (Routes.body req)
    = Some parsed ->
  get "reportingPeriods" parsed = VArr periods ->
  filter RoutesMore.is_upsertReportingPeriod
    (RoutesFacts.added
       (Routes.postReportingPeriods toUpperCase newDate yearOf gateway req locals) h)
  = map (RoutesMore.periodCall yearOf (get "company" locals) (get "metadata" locals))
      periods.
Proof.
  intros Hp Hperiods.
  destruct (validated_periods newDate _ _ Hp) as (raws & periods' & _ & E & Hall).
  rewrite Hperiods in E. inversion E; subst periods'. clear E.
  destruct (savePeriods_log toUpperCase newDate yearOf gateway (get "company" locals)
              (get "metadata" locals) raws periods h Hall) as (l & Hl & Hfilter).
  rewrite <- Hfilter. f_equal. apply added_app.
  unfold Routes.postReportingPeriods. rewrite Hp, Hperiods.
  unfold Async.bind at 1. unfold Async.try_catch. unfold Async.bind at 1.
  unfold Async.allSettled.
  match goal with |- context [Async.settle_all ?ps h] =>
    destruct (Async.settle_all ps h) as [rs h'] end.
  cbn [fst snd Async.ret] in *. exact Hl.
Qed.

Lemma every_period_is_opened_witness :
  filter RoutesMore.is_upsertReportingPeriod
    (RoutesFacts.added
       (Routes.postReportingPeriods asciiUpperCase RoutesFacts.dateOfNumber (fun _ => "2023")
          Samples.rejecting Samples.twoPeriodsRequest Samples.companyLocals) [])
  = map (RoutesMore.periodCall (fun _ => "2023")
           (get "company" Samples.companyLocals)
           (get "metadata" Samples.companyLocals))
      [Samples.validated2023; Samples.validated2022].
Proof.
  apply (every_period_is_opened asciiUpperCase RoutesFacts.dateOfNumber (fun _ => "2023")
           Samples.rejecting Samples.twoPeriodsRequest Samples.companyLocals []
           (VObj [("reportingPeriods",
                    VArr [Samples.validated2023; Samples.validated2022])])
           [Samples.validated2023; Samples.validated2022]);
    reflexivity.
Defined.

Section PeriodFailure.
Import Zod ZodFacts Async Routes RoutesFacts RoutesMore.
Variable toUpperCase : string -> string.
Variable newDate : value -> option Z.
Variable yearOf : Z -> string.
Variable gateway : history -> call -> settled value.

(** How the save of a validated period ends. *)
Lemma savePeriod_outcome company metadata raw period h :
  parse newDate reportingPeriodSchema raw = Some period ->
  exists out l,
    savePeriod toUpperCase yearOf gateway company metadata period h = (out, (h ++ l)%list) /\
    ((out = fulfilled VUndefined /\
      exists opened rest,
        l = (opened ++ rest)%list /\ List.length opened = 3 /\
        Forall (fun c => opening (fn c) = true) opened /\
        Forall (fun c => opening (fn c) = false) rest) \/
     (exists reason,
        out = rejected reason /\
        Forall (fun c => opening (fn c) = true) l /\
        exists c h', In c l /\ gateway h' c = rejected reason)).
Proof.
  intros Hv.
  destruct (validated_dates newDate raw period Hv) as (s & e & _ & He & _).
  destruct (normalisePeriodTurnover_validated toUpperCase newDate raw period Hv) as (turnover & Hn).
  unfold savePeriod. rewrite He. unfold bind at 1. unfold invoke at 1.
  match goal with |- context [gateway h ?c] =>
    set (c1 := c); destruct (gateway h c1) as [rp|e1] eqn:E1 end.
  - unfold bind at 1. unfold all, invoke. cbn [settle_all].
    match goal with |- context [gateway (h ++ [c1])%list ?c] => set (c2 := c) end.
    match goal with |- context [gateway ((h ++ [c1]) ++ [c2])%list ?c] =>
      set (c3 := c) end.
    destruct (gateway (h ++ [c1])%list c2) as [dbEm|e2] eqn:E2;
      destruct (gateway ((h ++ [c1]) ++ [c2])%list c3) as [dbEc|e3] eqn:E3;
      cbn [first_rejection nth].
    + unfold bind at 1. fold (economyOf period). rewrite Hn.
      unfold bind at 1. fold (emissionsOf period). rewrite allSettled_run.
      cbn [ret]. eexists. eexists. split.
      { rewrite <- !app_assoc. reflexivity. }
      left. split; [reflexivity|].
      exists [c1; c2; c3]. eexists. split; [reflexivity|].
      split; [reflexivity|]. split; [repeat constructor|].
      apply periodFieldGroups_other. auto.
    + exists (rejected e3), [c1; c2; c3]. split.
      { rewrite <- !app_assoc. reflexivity. }
      right. exists e3. split; [reflexivity|]. split; [repeat constructor|].
      exists c3, ((h ++ [c1]) ++ [c2])%list. split; [simpl; tauto | exact E3].
    + exists (rejected e2), [c1; c2; c3]. split.
      { rewrite <- !app_assoc. reflexivity. }
      right. exists e2. split; [reflexivity|]. split; [repeat constructor|].
      exists c2, (h ++ [c1])%list. split; [simpl; tauto | exact E2].
    + exists (rejected e2), [c1; c2; c3]. split.
      { rewrite <- !app_assoc. reflexivity. }
      right. exists e2. split; [reflexivity|]. split; [repeat constructor|].
      exists c2, (h ++ [c1])%list. split; [simpl; tauto | exact E2].
  - exists (rejected e1), [c1]. split; [reflexivity|].
    right. exists e1. split; [reflexivity|]. split; [repeat constructor|].
    exists c1, h. split; [simpl; tauto | exact E1].
Qed.
End PeriodFailure.

(** X4.  The save of a validated reporting period is rejected only when the
    gateway rejects one of its three opening upserts: the reason is the
    gateway's own, and then only opening upserts were called, no field-group
    upsert.  When the three are fulfilled the save is fulfilled, whatever
    becomes of the field-group upserts that follow. *)
Theorem period_fails_only_when_opening
    (toUpperCase : string -> string)
    (newDate : value -> option Z) (yearOf : Z -> string)
    (gateway : Async.history -> Async.call -> Async.settled value)
    (company metadata raw period : value) (h : Async.history) :
  Zod.parse newDate Routes.reportingPeriodSchema raw = Some period ->
  let save :=
    Routes.savePeriod toUpperCase yearOf gateway company metadata period in
  (fst (save h) = Async.fulfilled VUndefined /\
   exists opened rest,
     RoutesFacts.added save h = (opened ++ rest)%list /\
     List.length opened = 3 /\
     Forall (fun c => RoutesFacts.opening (Async.fn c) = true) opened /\
     Forall (fun c => RoutesFacts.opening (Async.fn c) = false) rest) \/
  (exists reason,
     fst (save h) = Async.rejected reason /\
     Forall (fun c => RoutesFacts.opening (Async.fn c) = true)
       (RoutesFacts.added save h) /\
     exists c h', In c (RoutesFacts.added save h) /\
                  gateway h' c = Async.rejected reason).
Proof.
  intros Hv. cbv zeta.
  destruct (savePeriod_outcome toUpperCase newDate yearOf gateway company metadata raw period h Hv)
    as (out & l & Hrun & Hcases).
  rewrite (added_app _ _ _ (f_equal snd Hrun)). rewrite Hrun. cbn [fst].
  destruct Hcases as [(-> & opened & rest & -> & Hlen & Hopened & Hrest) | Hrej].
  - left. split; [reflexivity|]. exists opened, rest.
    split; [reflexivity|]. split; [exact Hlen|]. split; assumption.
  - right. exact Hrej.
Qed.

Lemma period_fails_only_when_opening_witness :
  exists reason,
    fst (Routes.savePeriod asciiUpperCase (fun _ => "2023") Samples.rejectingEconomy
           (VObj [("wikidataId", VStr "Q1")]) (VObj [("source", VStr "report")])
           RoutesFacts.clearingPeriodValidated []) = Async.rejected reason.
Proof.
  destruct (period_fails_only_when_opening asciiUpperCase RoutesFacts.dateOfNumber (fun _ => "2023")
              Samples.rejectingEconomy (VObj [("wikidataId", VStr "Q1")])
              (VObj [("source", VStr "report")]) RoutesFacts.clearingPeriod
              RoutesFacts.clearingPeriodValidated [] eq_refl)
    as [[Hok _] | (reason & Hrej & _)].
  - discriminate Hok.
  - exists reason. exact Hrej.
Defined.

(** ** What validation refuses *)

Section Refusals.
Import Zod ZodFacts Async Routes RoutesFacts Refusal.
Variable newDate : value -> option Z.

Lemma parse_fields_rejects v o shape k sk :
  In (k, sk) shape -> parse newDate sk (get k v) = None ->
  parse_fields newDate v o shape = None.
Proof.
  intros Hin Hk. induction shape as [|[k0 s0] rest IH]; [contradiction|].
  cbn [parse_fields]. destruct Hin as [Hin | Hin].
  - inversion Hin; subst. now rewrite Hk.
  - rewrite (IH Hin). now destruct (parse newDate s0 (get k0 v)).
Qed.

(** An object is refused as soon as one of its fields is. *)
Lemma parse_object_rejects shape v k sk :
  In (k, sk) shape -> parse newDate sk (get k v) = None ->
  parse newDate (object shape) v = None.
Proof.
  intros Hin Hk. destruct v; try reflexivity.
  rewrite parse_object. now rewrite (parse_fields_rejects _ _ _ _ _ Hin Hk).
Qed.

Lemma parse_items_rejects item l x :
  In x l -> parse newDate item x = None -> parse_items newDate item l = None.
Proof.
  intros Hin Hx. induction l as [|y r IH]; [contradiction|].
  cbn [parse_items]. destruct Hin as [-> | Hin].
  - now rewrite Hx.
  - rewrite (IH Hin). now destruct (parse newDate item y).
Qed.

Lemma parse_array_rejects item l x :
  In x l -> parse newDate item x = None ->
  parse newDate (array item) (VArr l) = None.
Proof.
  intros Hin Hx. rewrite parse_array.
  now rewrite (parse_items_rejects _ _ _ Hin Hx).
Qed.

(** An optional schema refuses what its inner schema refuses, [undefined]
    apart. *)
Lemma parse_optional_rejects inner v :
  v <> VUndefined -> parse newDate inner v = None ->
  parse newDate (optional inner) v = None.
Proof. intros Hv H. destruct v; try exact H. congruence. Qed.

Lemma parse_nullable_rejects inner v :
  v <> VNull -> parse newDate inner v = None ->
  parse newDate (nullable inner) v = None.
Proof. intros Hv H. destruct v; try exact H. congruence. Qed.

Lemma parse_refine_rejects inner check v :
  parse newDate inner v = None -> parse newDate (refine inner check) v = None.
Proof.
  intros H. cbn [parse].
  change (match parse newDate inner v with
          | Some v' => if check v' then Some v' else None
          | None => None
          end = None).
  now rewrite H.
Qed.

(** Emissions that have a field which its schema refuses are refused. *)
Lemma emissions_field_rejects e k sk :
  In (k, sk) emissionsShape -> parse newDate sk (get k e) = None ->
  parse newDate sk VUndefined <> None ->
  parse newDate emissionsSchema e = None.
Proof.
  intros Hin Hk Hundef. unfold emissionsSchema.
  apply parse_optional_rejects.
  - intros ->. apply Hundef. exact Hk.
  - exact (parse_object_rejects _ _ _ _ Hin Hk).
Qed.

(** Refused emissions make both handlers reject the body. *)
Lemma refused_of_parse e :
  parse newDate emissionsSchema e = None -> refused newDate e.
Proof.
  intros He toUpperCase yearOf gateway req locals h. split.
  - intros Hbody. unfold postEmissions.
    replace (parse newDate postEmissionsBodySchema (body req)) with (@None value);
      [reflexivity|].
    symmetry. apply (parse_object_rejects _ _ "emissions" emissionsSchema);
      [simpl; tauto | now rewrite Hbody].
  - intros raws raw Hraws Hin Hraw.
    apply postReportingPeriods_invalid.
    apply (parse_object_rejects _ _ "reportingPeriods" (array reportingPeriodSchema));
      [simpl; tauto|].
    rewrite Hraws. apply (parse_array_rejects _ _ raw Hin).
    apply parse_refine_rejects.
    apply (parse_object_rejects _ _ "emissions" emissionsSchema);
      [simpl; tauto | now rewrite Hraw].
Qed.
End Refusals.

(** X5.  Scope 3 cannot be cleared: emissions whose [scope3] is [null] are
    refused by validation in both handlers, unlike the other groups, for
    which [null] is accepted. *)
Theorem scope3_null_is_refused (newDate : value -> option Z) (e : value) :
  get "scope3" e = VNull -> Refusal.refused newDate e.
Proof.
  intros H. apply refused_of_parse.
  apply (emissions_field_rejects newDate e "scope3" Routes.scope3Schema);
    [simpl; tauto | now rewrite H | discriminate].
Qed.

Lemma scope3_null_is_refused_witness :
  Routes.postEmissions RoutesFacts.dateOfNumber RoutesFacts.fulfilling
    {| Routes.params := VObj [];
       Routes.body := VObj [("emissions", VObj [("scope3", VNull)])] |}
    RoutesFacts.emissionsLocals []
  = (Async.rejected Routes.ZodError, []).
Proof.
  apply (proj1 (scope3_null_is_refused RoutesFacts.dateOfNumber
                  (VObj [("scope3", VNull)]) eq_refl
                  asciiUpperCase (fun _ => "2023") RoutesFacts.fulfilling
                  {| Routes.params := VObj [];
                     Routes.body := VObj [("emissions", VObj [("scope3", VNull)])] |}
                  RoutesFacts.emissionsLocals [])).
  reflexivity.
Defined.

(** X6.  A scope 2 that is given but has none of [mb], [lb] and [unknown]
    is refused by validation in both handlers (the refinement of lines
    439-446); a [null] for one of the three counts as given. *)
Theorem scope2_without_value_is_refused
    (newDate : value -> option Z) (e : value) (fields : obj) :
  get "scope2" e = VObj fields ->
  (get "mb" (VObj fields) = VUndefined ->
   get "lb" (VObj fields) = VUndefined ->
   get "unknown" (VObj fields) = VUndefined ->
   Refusal.refused newDate e) /\
  (get "mb" (VObj fields) = VNull ->
   get "lb" (VObj fields) = VUndefined ->
   get "unknown" (VObj fields) = VUndefined ->
   exists scope2, Zod.parse newDate Routes.scope2Schema (VObj fields) = Some scope2
                  /\ get "mb" scope2 = VNull).
Proof.
  intros Hs. split.
  - intros Hmb Hlb Hun. apply refused_of_parse.
    apply (emissions_field_rejects newDate e "scope2" Routes.scope2Schema);
      [simpl; tauto | | discriminate].
    rewrite Hs. unfold Routes.scope2Schema.
    change (match Zod.parse newDate
                    (Zod.object [("mb", Zod.nullable (Zod.optional Zod.number));
                                 ("lb", Zod.nullable (Zod.optional Zod.number));
                                 ("unknown", Zod.nullable (Zod.optional Zod.number))])
                    (VObj fields) with
            | Some v' => if Routes.scope2Defined v' then Some v' else None
            | None => None
            end = None).
    rewrite parse_object. cbn [ZodFacts.parse_fields]. rewrite Hmb, Hlb, Hun.
    cbn [Zod.parse]. unfold get in Hmb, Hlb, Hun.
    unfold has_key.
    destruct (lookup "mb" fields) as [[]|]; try discriminate;
      destruct (lookup "lb" fields) as [[]|]; try discriminate;
      destruct (lookup "unknown" fields) as [[]|]; try discriminate;
      reflexivity.
  - intros Hmb Hlb Hun. unfold Routes.scope2Schema.
    change (exists scope2,
      match Zod.parse newDate
              (Zod.object [("mb", Zod.nullable (Zod.optional Zod.number));
                           ("lb", Zod.nullable (Zod.optional Zod.number));
                           ("unknown", Zod.nullable (Zod.optional Zod.number))])
              (VObj fields) with
      | Some v' => if Routes.scope2Defined v' then Some v' else None
      | None => None
      end = Some scope2 /\ get "mb" scope2 = VNull).
    rewrite parse_object. cbn [ZodFacts.parse_fields]. rewrite Hmb, Hlb, Hun.
    cbn [Zod.parse]. unfold get in Hmb, Hlb, Hun. unfold has_key.
    destruct (lookup "mb" fields) as [[]|]; try discriminate;
      destruct (lookup "lb" fields) as [[]|]; try discriminate;
      destruct (lookup "unknown" fields) as [[]|]; try discriminate;
      (eexists; split; reflexivity).
Qed.

Lemma scope2_without_value_is_refused_witness :
  Routes.postEmissions RoutesFacts.dateOfNumber RoutesFacts.fulfilling
    {| Routes.params := VObj [];
       Routes.body := VObj [("emissions", VObj [("scope2", VObj [])])] |}
    RoutesFacts.emissionsLocals []
  = (Async.rejected Routes.ZodError, []).
Proof.
  apply (proj1 (proj1 (scope2_without_value_is_refused RoutesFacts.dateOfNumber
                         (VObj [("scope2", VObj [])]) [] eq_refl)
                  eq_refl eq_refl eq_refl
                  asciiUpperCase (fun _ => "2023") RoutesFacts.fulfilling
                  {| Routes.params := VObj [];
                     Routes.body := VObj [("emissions", VObj [("scope2", VObj [])])] |}
                  RoutesFacts.emissionsLocals [])).
  reflexivity.
Defined.

Lemma integer_in_range (q : Q) (lo hi : Z) :
  Zod.is_integer q && Qle_bool (inject_Z lo) q && Qle_bool q (inject_Z hi) = true ->
  exists n : Z, (lo <= n <= hi)%Z /\ Qeq q (inject_Z n).
Proof.
  intros H. apply andb_prop in H as [H Hhi]. apply andb_prop in H as [Hint Hlo].
  unfold Zod.is_integer in Hint. apply Z.eqb_eq in Hint.
  apply Qle_bool_iff in Hlo, Hhi.
  exists (Qnum q / Zpos (Qden q))%Z.
  assert (Hq : Qeq q (inject_Z (Qnum q / Zpos (Qden q)))).
  { unfold Qeq. cbn [Qnum Qden inject_Z].
    rewrite Z.mul_1_r. rewrite Z.mul_comm. now apply Z.div_exact. }
  split; [|exact Hq].
  rewrite Hq in Hlo, Hhi. rewrite <- Zle_Qle in Hlo, Hhi. lia.
Qed.

(** X7.  A scope 3 category whose number is not an integer from 1 to 16 is
    refused by validation in both handlers. *)
Theorem scope3_category_out_of_range_is_refused
    (newDate : value -> option Z) (e : value) (categories : list value)
    (item : value) (q : Q) :
  get "categories" (get "scope3" e) = VArr categories ->
  In item categories ->
  get "category" item = VNum q ->
  (forall n : Z, (1 <= n <= 16)%Z -> ~ Qeq q (inject_Z n)) ->
  Refusal.refused newDate e.
Proof.
  intros Hcats Hin Hcat Hbad. apply refused_of_parse.
  apply (emissions_field_rejects newDate e "scope3" Routes.scope3Schema);
    [simpl; tauto | | discriminate].
  unfold Routes.scope3Schema. apply parse_optional_rejects.
  { intros E. rewrite E in Hcats. discriminate Hcats. }
  eapply (parse_object_rejects newDate _ _ "categories"); [simpl; left; reflexivity|].
  rewrite Hcats. apply parse_optional_rejects; [discriminate|].
  apply (parse_array_rejects newDate _ _ item Hin).
  eapply (parse_object_rejects newDate _ _ "category"); [simpl; left; reflexivity|].
  rewrite Hcat. cbn [Zod.parse].
  destruct (Zod.is_integer q && Qle_bool (inject_Z 1) q && Qle_bool q (inject_Z 16))
    eqn:E; [|reflexivity].
  destruct (integer_in_range q 1 16 E) as (n & Hn & Hq).
  exfalso. exact (Hbad n Hn Hq).
Qed.

Lemma scope3_category_out_of_range_is_refused_witness :
  Routes.postEmissions RoutesFacts.dateOfNumber RoutesFacts.fulfilling
    {| Routes.params := VObj [];
       Routes.body :=
         VObj [("emissions",
                 VObj [("scope3",
                         VObj [("categories",
                                 VArr [VObj [("category", VNum (inject_Z 17));
                                             ("total", VNum (inject_Z 5))]])])])] |}
    RoutesFacts.emissionsLocals []
  = (Async.rejected Routes.ZodError, []).
Proof.
  assert (Hbad : forall n : Z, (1 <= n <= 16)%Z -> ~ Qeq (inject_Z 17) (inject_Z n)).
  { intros n Hn Hq. unfold Qeq in Hq. cbn [Qnum Qden inject_Z] in Hq. lia. }
  apply (proj1 (scope3_category_out_of_range_is_refused RoutesFacts.dateOfNumber
                  (VObj [("scope3",
                           VObj [("categories",
                                   VArr [VObj [("category", VNum (inject_Z 17));
                                               ("total", VNum (inject_Z 5))]])])])
                  [VObj [("category", VNum (inject_Z 17)); ("total", VNum (inject_Z 5))]]
                  (VObj [("category", VNum (inject_Z 17)); ("total", VNum (inject_Z 5))])
                  (inject_Z 17) eq_refl (or_introl eq_refl) eq_refl Hbad
                  asciiUpperCase (fun _ => "2023") RoutesFacts.fulfilling
                  {| Routes.params := VObj [];
                     Routes.body :=
                       VObj [("emissions",
                               VObj [("scope3",
                                       VObj [("categories",
                                               VArr [VObj [("category", VNum (inject_Z 17));
                                                           ("total", VNum (inject_Z 5))]])])])] |}
                  RoutesFacts.emissionsLocals [])).
  reflexivity.
Defined.

(** ** Trimming and upper-casing *)

Section Normalisation.

Lemma is_space_range c : is_space c = true -> (c <= 32 \/ 160 <= c)%N.
Proof.
  unfold is_space. intros H.
  repeat (apply orb_prop in H; destruct H as [H | H]);
    try (apply andb_prop in H; destruct H as [H1 H2];
         apply N.leb_le in H1; apply N.leb_le in H2);
    try apply N.eqb_eq in H; lia.
Qed.

Lemma letter_not_space c : (65 <= c <= 122)%N -> is_space c = false.
Proof.
  intros Hc. destruct (is_space c) eqn:E; [|reflexivity].
  apply is_space_range in E. lia.
Qed.

Lemma upper_char_space c : is_space (upper_char c) = is_space c.
Proof.
  unfold upper_char.
  destruct ((97 <=? c) && (c <=? 122))%N eqn:E; [|reflexivity].
  apply andb_prop in E as [H1 H2]. apply N.leb_le in H1. apply N.leb_le in H2.
  rewrite !letter_not_space by lia. reflexivity.
Qed.

Lemma upper_char_idempotent c : upper_char (upper_char c) = upper_char c.
Proof.
  unfold upper_char.
  destruct ((97 <=? c) && (c <=? 122))%N eqn:E; [|now rewrite E].
  apply andb_prop in E as [H1 H2]. apply N.leb_le in H1. apply N.leb_le in H2.
  assert (H : (97 <=? c - 32)%N = false) by (apply N.leb_gt; lia).
  now rewrite H.
Qed.

Lemma upper_char_ascii c : (c <? 128)%N = true -> (upper_char c <? 128)%N = true.
Proof.
  unfold upper_char. intros H. apply N.ltb_lt in H.
  destruct ((97 <=? c) && (c <=? 122))%N; apply N.ltb_lt; lia.
Qed.

Lemma asciiUpperCase_idempotent s :
  asciiUpperCase (asciiUpperCase s) = asciiUpperCase s.
Proof.
  unfold asciiUpperCase. induction s as [|c s IH]; [reflexivity|].
  cbn [map_string]. now rewrite upper_char_idempotent, IH.
Qed.

Lemma trimStart_asciiUpperCase s :
  trimStart (asciiUpperCase s) = asciiUpperCase (trimStart s).
Proof.
  unfold asciiUpperCase. induction s as [|c s IH]; [reflexivity|].
  cbn [map_string trimStart]. rewrite upper_char_space.
  destruct (is_space c); [exact IH | reflexivity].
Qed.

Lemma trimEnd_asciiUpperCase s :
  trimEnd (asciiUpperCase s) = asciiUpperCase (trimEnd s).
Proof.
  unfold asciiUpperCase. induction s as [|c s IH]; [reflexivity|].
  cbn [map_string trimEnd]. rewrite IH, upper_char_space.
  destruct (trimEnd s); cbn [map_string]; [destruct (is_space c)|]; reflexivity.
Qed.

Lemma trimStart_no_space s : starts_with_space (trimStart s) = false.
Proof.
  induction s as [|c s IH]; [reflexivity|].
  cbn [trimStart]. destruct (is_space c) eqn:E; [exact IH | cbn; exact E].
Qed.

Lemma trimEnd_idempotent s : trimEnd (trimEnd s) = trimEnd s.
Proof.
  induction s as [|c s IH]; [reflexivity|].
  cbn [trimEnd]. destruct (trimEnd s) as [|c' r'] eqn:E.
  - destruct (is_space c) eqn:Ec; [reflexivity|]. cbn [trimEnd]. now rewrite Ec.
  - cbn [trimEnd]. cbn [trimEnd] in IH. rewrite IH. reflexivity.
Qed.

Lemma trimStart_trimEnd s :
  starts_with_space s = false -> trimStart (trimEnd s) = trimEnd s.
Proof.
  destruct s as [|c s]; [reflexivity|]. cbn [starts_with_space trimEnd]. intros Hc.
  destruct (trimEnd s); [rewrite Hc|]; cbn [trimStart]; now rewrite Hc.
Qed.

Lemma trim_idempotent s : trim (trim s) = trim s.
Proof.
  unfold trim. rewrite trimStart_trimEnd by apply trimStart_no_space.
  apply trimEnd_idempotent.
Qed.

Lemma trim_asciiUpperCase s : trim (asciiUpperCase s) = asciiUpperCase (trim s).
Proof. unfold trim. now rewrite trimStart_asciiUpperCase, trimEnd_asciiUpperCase. Qed.

Lemma isASCII_trimStart s : isASCII s = true -> isASCII (trimStart s) = true.
Proof.
  induction s as [|c s IH]; [reflexivity|]. intros H.
  cbn [trimStart]. destruct (is_space c); [|exact H].
  cbn [isASCII] in H. apply andb_prop in H as [_ H]. now apply IH.
Qed.

Lemma isASCII_trimEnd s : isASCII s = true -> isASCII (trimEnd s) = true.
Proof.
  induction s as [|c s IH]; [reflexivity|]. intros H.
  cbn [isASCII] in H. apply andb_prop in H as [Hc Hs]. specialize (IH Hs).
  cbn [trimEnd]. destruct (trimEnd s) as [|c' r'].
  - destruct (is_space c); [reflexivity|]. cbn [isASCII]. now rewrite Hc.
  - cbn [isASCII] in *. now rewrite Hc, IH.
Qed.

Lemma isASCII_trim s : isASCII s = true -> isASCII (trim s) = true.
Proof. intros H. unfold trim. now apply isASCII_trimEnd, isASCII_trimStart. Qed.

Lemma isASCII_asciiUpperCase s :
  isASCII s = true -> isASCII (asciiUpperCase s) = true.
Proof.
  unfold asciiUpperCase. induction s as [|c s IH]; [reflexivity|]. intros H.
  cbn [isASCII] in H. apply andb_prop in H as [Hc Hs].
  cbn [map_string isASCII]. now rewrite (upper_char_ascii c Hc), IH.
Qed.

Lemma set_set k v v' o : set k v (set k v' o) = set k v o.
Proof.
  induction o as [|[k0 v0] o IH]; cbn [set].
  - now rewrite string_eqb_refl.
  - destruct (k =? k0) eqn:E; cbn [set].
    + now rewrite string_eqb_refl.
    + now rewrite E, IH.
Qed.
End Normalisation.

(** X8.  On ASCII text, where the upper case of the runtime maps the
    letters a-z and keeps every other character, the currency that the
    handlers write is a fixed point of their normalisation: it has no
    surrounding whitespace and is its own upper case, and a turnover that
    went through lines 570-573 (or 723-726) comes back unchanged from a second
    pass, so that sending a stored turnover again changes nothing in it. *)
Theorem currency_normalisation_is_idempotent
    (toUpperCase : string -> string) (c : string) (turnover : value)
    (h : Async.history) :
  (forall s, isASCII s = true -> toUpperCase s = asciiUpperCase s) ->
  isASCII c = true ->
  let written := toUpperCase (trim c) in
  trim written = written /\
  toUpperCase written = written /\
  (get "currency" turnover = VStr c ->
   (forall once,
       Routes.normalisePeriodTurnover toUpperCase turnover h
       = (Async.fulfilled once, h) ->
       Routes.normalisePeriodTurnover toUpperCase once h
       = (Async.fulfilled once, h)) /\
   (forall once,
       Routes.normaliseEconomyTurnover toUpperCase turnover h
       = (Async.fulfilled once, h) ->
       Routes.normaliseEconomyTurnover toUpperCase once h
       = (Async.fulfilled once, h))).
Proof.
  intros Hupper Hascii. cbv zeta.
  assert (Hw : toUpperCase (trim c) = asciiUpperCase (trim c))
    by now apply Hupper, isASCII_trim.
  assert (Htrim : trim (toUpperCase (trim c)) = toUpperCase (trim c))
    by now rewrite Hw, trim_asciiUpperCase, trim_idempotent.
  assert (Hidem : toUpperCase (toUpperCase (trim c)) = toUpperCase (trim c)).
  { rewrite Hw. rewrite Hupper by now apply isASCII_asciiUpperCase, isASCII_trim.
    apply asciiUpperCase_idempotent. }
  split; [exact Htrim|]. split; [exact Hidem|].
  intros Hc. destruct turnover; try discriminate. split.
  - intros once. unfold Routes.normalisePeriodTurnover. rewrite Hc.
    destruct (truthy (VStr c)) eqn:Ht; intros H; inversion H; subst once; clear H.
    + rewrite get_set_same.
      destruct (truthy (VStr (toUpperCase (trim c)))); [|reflexivity].
      cbn [spread]. now rewrite Htrim, Hidem, set_set.
    + now rewrite Hc, Ht.
  - intros once. unfold Routes.normaliseEconomyTurnover. rewrite Hc.
    cbn [truthy]. intros H; inversion H; subst once; clear H.
    rewrite get_set_same. cbn [spread].
    now rewrite Htrim, Hidem, set_set.
Qed.

Lemma currency_normalisation_is_idempotent_witness :
  Routes.normalisePeriodTurnover asciiUpperCase
    (VObj [("value", VNum (inject_Z 1000)); ("currency", VStr "SEK")]) []
  = (Async.fulfilled
       (VObj [("value", VNum (inject_Z 1000)); ("currency", VStr "SEK")]), []).
Proof.
  apply (proj1 (proj2 (proj2
           (currency_normalisation_is_idempotent asciiUpperCase " sek "
              (VObj [("value", VNum (inject_Z 1000)); ("currency", VStr " sek ")])
              [] (fun s _ => eq_refl) eq_refl)) eq_refl)).
  reflexivity.
Defined.

(** ** Field groups of the per-year handlers *)

Section YearGroups.
Import Zod ZodFacts Async Routes RoutesFacts.
Variable newDate : value -> option Z.
Variable gateway : history -> call -> settled value.

Ltac each_group H :=
  simpl in H;
  repeat (destruct H as [H | H]; [inversion H; subst; clear H|]);
  [.. | contradiction].

(** Each field group of validated emissions is the parsed field group of
    the emissions sent. *)
Lemma parsed_emissions_group e e' g sg :
  parse newDate emissionsSchema e = Some e' ->
  In (g, sg) emissionsShape ->
  parse newDate sg (get g (orDefault e (VObj [])))
  = Some (get g (orDefault e' (VObj []))).
Proof.
  intros H Hin.
  destruct (parse_optional_object newDate _ _ _ H) as [[-> ->] | (o' & E & Hobj)].
  - simpl orDefault. simpl in Hin.
    repeat (destruct Hin as [Hin | Hin]; [inversion Hin; subst; reflexivity|]).
    contradiction.
  - rewrite E in *.
    destruct (parse_object_inv _ _ _ _ Hobj) as (o & ? & Eraw & _ & _).
    rewrite Eraw in *. simpl orDefault.
    exact (parse_object_get newDate _ _ _ _ _ Hobj NoDup_emissionsShape Hin).
Qed.

Lemma parsed_economy_group e e' g sg :
  parse newDate economySchema e = Some e' ->
  In (g, sg) economyShape ->
  parse newDate sg (get g (nullish e (VObj [])))
  = Some (get g (nullish e' (VObj []))).
Proof.
  intros H Hin.
  destruct (parse_optional_object newDate _ _ _ H) as [[-> ->] | (o' & E & Hobj)].
  - simpl nullish. simpl in Hin.
    repeat (destruct Hin as [Hin | Hin]; [inversion Hin; subst; reflexivity|]).
    contradiction.
  - rewrite E in *.
    destruct (parse_object_inv _ _ _ _ Hobj) as (o & ? & Eraw & _ & _).
    rewrite Eraw in *. simpl nullish.
    exact (parse_object_get newDate _ _ _ _ _ Hobj NoDup_economyShape Hin).
Qed.

Lemma postEmissions_group req parsed g op submitted :
  parse newDate postEmissionsBodySchema (body req) = Some parsed ->
  In (g, op) emissionsGroups ->
  submitted = VUndefined \/ submitted = VNull ->
  get g (orDefault (get "emissions" (body req)) (VObj [])) = submitted ->
  get g (orDefault (get "emissions" parsed) (VObj [])) = submitted.
Proof.
  intros Hp Hin Hsub Hg.
  pose proof (parse_object_get newDate _ _ _ "emissions" emissionsSchema Hp
                ltac:(repeat constructor; simpl; tauto) ltac:(simpl; tauto)) as He.
  destruct (emissionsGroups_schemas newDate g op Hin) as (sg & Hsg & Hnull & Hundef).
  pose proof (parsed_emissions_group _ _ g sg He Hsg) as H.
  rewrite Hg in H. destruct Hsub as [-> | ->]; congruence.
Qed.

Lemma postEconomy_group req parsedBody g op submitted :
  parse newDate postEconomyBodySchema (body req) = Some parsedBody ->
  In (g, op) economyGroups ->
  submitted = VUndefined \/ submitted = VNull ->
  get g (nullish (get "economy" (body req)) (VObj [])) = submitted ->
  get g (nullish (get "economy" parsedBody) (VObj [])) = submitted.
Proof.
  intros Hp Hin Hsub Hg.
  pose proof (postEconomy_body newDate _ _ Hp) as He.
  destruct (economyGroups_schemas newDate g op Hin) as (sg & Hsg & Hnull & Hundef).
  pose proof (parsed_economy_group _ _ g sg He Hsg) as H.
  rewrite Hg in H. destruct Hsub as [-> | ->]; congruence.
Qed.

Lemma postEmissions_omitted req locals h parsed g op :
  parse newDate postEmissionsBodySchema (body req) = Some parsed ->
  In (g, op) emissionsGroups ->
  get g (orDefault (get "emissions" (body req)) (VObj [])) = VUndefined ->
  Forall (fun c => fn c <> op) (added (postEmissions newDate gateway req locals) h).
Proof.
  intros Hp Hin Hg.
  pose proof (postEmissions_group req parsed g op VUndefined Hp Hin
                ltac:(now left) Hg) as Hg'.
  rewrite (added_app _ _ _
             (f_equal snd (postEmissions_calls newDate gateway req locals parsed h Hp))).
  each_group Hin;
    unfold emissionsFieldGroups; cbv zeta; apply Forall_calls_of;
    repeat constructor;
    first [apply entry_ok_whenDefined | apply entry_ok_whenTruthy];
    intros Hdef; cbn [fn]; try discriminate;
    rewrite Hg' in Hdef; discriminate Hdef.
Qed.

Lemma postEmissions_null req locals h parsed g op :
  parse newDate postEmissionsBodySchema (body req) = Some parsed ->
  In (g, op) emissionsGroups ->
  get g (orDefault (get "emissions" (body req)) (VObj [])) = VNull ->
  let c := {| fn := op;
              args := [get "emissions" locals; VNull; get "metadata" locals] |} in
  let calls := added (postEmissions newDate gateway req locals) h in
  In c calls /\ Forall (fun c' => fn c' = op -> c' = c) calls.
Proof.
  intros Hp Hin Hg. cbv zeta.
  pose proof (postEmissions_group req parsed g op VNull Hp Hin
                ltac:(now right) Hg) as Hg'.
  rewrite (added_app _ _ _
             (f_equal snd (postEmissions_calls newDate gateway req locals parsed h Hp))).
  split.
  - apply In_calls_of.
    each_group Hin; unfold emissionsFieldGroups; cbv zeta; rewrite Hg';
      unfold whenDefined; cbn [is_undefined];
      repeat first [ left; reflexivity | right ].
  - each_group Hin;
      unfold emissionsFieldGroups; cbv zeta; apply Forall_calls_of;
      repeat constructor;
      first [apply entry_ok_whenDefined | apply entry_ok_whenTruthy];
      intros Hdef Hfn; try discriminate Hfn; now rewrite Hg'.
Qed.

Variable toUpperCase : string -> string.

Lemma normaliseEconomyTurnover_result_absent t h turnover h' :
  normaliseEconomyTurnover toUpperCase t h = (fulfilled turnover, h') ->
  (t = VUndefined -> turnover = VUndefined) /\ (t = VNull -> turnover = VNull).
Proof.
  intros H. split; intros ->; cbn in H; now inversion H.
Qed.

Lemma postEconomy_omitted req locals h parsedBody g op :
  parse newDate postEconomyBodySchema (body req) = Some parsedBody ->
  In (g, op) economyGroups ->
  get g (nullish (get "economy" (body req)) (VObj [])) = VUndefined ->
  Forall (fun c => fn c <> op) (added (postEconomy toUpperCase newDate gateway req locals) h).
Proof.
  intros Hp Hin Hg.
  pose proof (postEconomy_group req parsedBody g op VUndefined Hp Hin
                ltac:(now left) Hg) as Hg'.
  destruct (normaliseEconomyTurnover_validated toUpperCase newDate _ _ Hp) as (turnover & Hn).
  destruct (normaliseEconomyTurnover_result_absent _ _ _ _ (Hn h)) as [Hu _].
  rewrite (added_app _ _ _
             (f_equal snd (postEconomy_calls toUpperCase newDate gateway req locals parsedBody
                             turnover h Hp Hn))).
  each_group Hin;
    unfold economyFieldGroups; apply Forall_calls_of;
    repeat constructor; apply entry_ok_whenDefined;
    intros Hdef; cbn [fn]; try discriminate;
    first [ rewrite Hg' in Hdef; discriminate Hdef
          | rewrite (Hu Hg') in Hdef; discriminate Hdef ].
Qed.

Lemma postEconomy_null req locals h parsedBody g op :
  parse newDate postEconomyBodySchema (body req) = Some parsedBody ->
  In (g, op) economyGroups ->
  get g (nullish (get "economy" (body req)) (VObj [])) = VNull ->
  let c := {| fn := op;
              args := [get "economy" locals; VNull; get "metadata" locals] |} in
  let calls := added (postEconomy toUpperCase newDate gateway req locals) h in
  In c calls /\ Forall (fun c' => fn c' = op -> c' = c) calls.
Proof.
  intros Hp Hin Hg. cbv zeta.
  pose proof (postEconomy_group req parsedBody g op VNull Hp Hin
                ltac:(now right) Hg) as Hg'.
  destruct (normaliseEconomyTurnover_validated toUpperCase newDate _ _ Hp) as (turnover & Hn).
  destruct (normaliseEconomyTurnover_result_absent _ _ _ _ (Hn h)) as [_ Hnl].
  rewrite (added_app _ _ _
             (f_equal snd (postEconomy_calls toUpperCase newDate gateway req locals parsedBody
                             turnover h Hp Hn))).
  split.
  - apply In_calls_of.
    each_group Hin; unfold economyFieldGroups;
      first [ rewrite Hg' | rewrite (Hnl Hg') ];
      unfold whenDefined; cbn [is_undefined];
      repeat first [ left; reflexivity | right ].
  - each_group Hin;
      unfold economyFieldGroups; apply Forall_calls_of;
      repeat constructor; apply entry_ok_whenDefined;
      intros Hdef Hfn; try discriminate Hfn;
      first [ now rewrite Hg' | now rewrite (Hnl Hg') ].
Qed.
End YearGroups.

(** X9.  In the per-year emissions handler, on a body that passes
    validation and for each of scope1, scope2, biogenic, statedTotalEmissions
    and scope1And2: when the body omits the group no call of its upsert is
    made; when the body has it as [null] its upsert is called, with the
    emissions record of the year, [null] and the metadata, and in no other
    way. *)
Theorem emissions_handler_omitted_or_null
    (newDate : value -> option Z)
    (gateway : Async.history -> Async.call -> Async.settled value)
    (req : Routes.request) (locals : value) (h : Async.history)
    (parsed : value) (g : string) (op : Async.operation) :
  Zod.parse newDate Routes.postEmissionsBodySchema (Routes.body req) = Some parsed ->
  In (g, op) RoutesFacts.emissionsGroups ->
  let submitted :=
    get g (Routes.orDefault (get "emissions" (Routes.body req)) (VObj [])) in
  let calls := RoutesFacts.added (Routes.postEmissions newDate gateway req locals) h in
  let upsert := {| Async.fn := op;
                   Async.args := [get "emissions" locals; VNull;
                                  get "metadata" locals] |} in
  (submitted = VUndefined -> Forall (fun c => Async.fn c <> op) calls) /\
  (submitted = VNull ->
   In upsert calls /\ Forall (fun c => Async.fn c = op -> c = upsert) calls).
Proof.
  intros Hp Hin. cbv zeta. split; intros Hg.
  - exact (postEmissions_omitted newDate gateway req locals h parsed g op Hp Hin Hg).
  - exact (postEmissions_null newDate gateway req locals h parsed g op Hp Hin Hg).
Qed.

Lemma emissions_handler_omitted_or_null_witness :
  In {| Async.fn := Async.upsertScope2;
        Async.args := [get "emissions" RoutesFacts.emissionsLocals; VNull;
                       get "metadata" RoutesFacts.emissionsLocals] |}
    (RoutesFacts.added
       (Routes.postEmissions RoutesFacts.dateOfNumber Samples.rejecting
          {| Routes.params := VObj [];
             Routes.body := VObj [("emissions", VObj [("scope2", VNull)])] |}
          RoutesFacts.emissionsLocals) []).
Proof.
  apply (proj2 (emissions_handler_omitted_or_null RoutesFacts.dateOfNumber
                  Samples.rejecting
                  {| Routes.params := VObj [];
                     Routes.body := VObj [("emissions", VObj [("scope2", VNull)])] |}
                  RoutesFacts.emissionsLocals []
                  (VObj [("emissions", VObj [("scope2", VNull)])])
                  "scope2" Async.upsertScope2 eq_refl
                  (or_intror (or_introl eq_refl)))).
  reflexivity.
Defined.

(** X10.  In the per-year economy handler, on a body that passes validation
    and for turnover and employees: when the body omits the group no call of
    its upsert is made; when the body has it as [null] its upsert is called,
    with the economy record of the year, [null] and the metadata, and in no
    other way. *)
Theorem economy_handler_omitted_or_null
    (toUpperCase : string -> string)
    (newDate : value -> option Z)
    (gateway : Async.history -> Async.call -> Async.settled value)
    (req : Routes.request) (locals : value) (h : Async.history)
    (parsedBody : value) (g : string) (op : Async.operation) :
  Zod.parse newDate Routes.postEconomyBodySchema (Routes.body req)
    = Some parsedBody ->
  In (g, op) RoutesFacts.economyGroups ->
  let submitted :=
    get g (Routes.nullish (get "economy" (Routes.body req)) (VObj [])) in
  let calls :=
    RoutesFacts.added
      (Routes.postEconomy toUpperCase newDate gateway req locals) h in
  let upsert := {| Async.fn := op;
                   Async.args := [get "economy" locals; VNull;
                                  get "metadata" locals] |} in
  (submitted = VUndefined -> Forall (fun c => Async.fn c <> op) calls) /\
  (submitted = VNull ->
   In upsert calls /\ Forall (fun c => Async.fn c = op -> c = upsert) calls).
Proof.
  intros Hp Hin. cbv zeta. split; intros Hg.
  - exact (postEconomy_omitted newDate gateway toUpperCase req locals h parsedBody g op Hp Hin Hg).
  - exact (postEconomy_null newDate gateway toUpperCase req locals h parsedBody g op Hp Hin Hg).
Qed.

Lemma economy_handler_omitted_or_null_witness :
  Forall (fun c => Async.fn c <> Async.upsertEmployees)
    (RoutesFacts.added
       (Routes.postEconomy asciiUpperCase RoutesFacts.dateOfNumber RoutesFacts.fulfilling
          RoutesFacts.sekRequest RoutesFacts.sekLocals) []).
Proof.
  apply (proj1 (economy_handler_omitted_or_null asciiUpperCase RoutesFacts.dateOfNumber
                  RoutesFacts.fulfilling RoutesFacts.sekRequest
                  RoutesFacts.sekLocals [] (Routes.body RoutesFacts.sekRequest)
                  "employees" Async.upsertEmployees eq_refl
                  (or_intror (or_introl eq_refl)))).
  reflexivity.
Defined.

(** ** Narrowing of the retry queries *)

Section Narrowing.
Import GuessWikidata Pieces.
Variable toLowerCase : string -> string.
Variable searchCompany : string -> list value.

Local Abbreviation search := (getWikidataSearchResults toLowerCase searchCompany).
Local Abbreviation significant :=
  (fun q => Forall (fun word => has insignificantWords word = false)
              (split_whitespace q)).

Lemma append_assoc (a b c : string) : (a ++ b) ++ c = a ++ b ++ c.
Proof. induction a as [|x a IH]; simpl; [reflexivity | now rewrite IH]. Qed.

Lemma length_append (a b : string) :
  Str.length (a ++ b) = Str.length a + Str.length b.
Proof. induction a as [|x a IH]; simpl; [reflexivity | now rewrite IH]. Qed.

Lemma join_snoc r w : r <> [] -> join " " (r ++ [w]) = join " " r ++ " " ++ w.
Proof.
  induction r as [|x r IH]; [congruence|]. intros _.
  destruct r as [|y r]; [reflexivity|].
  change ((x :: y :: r) ++ [w])%list with (x :: y :: (r ++ [w]))%list.
  rewrite !join_cons.
  change (y :: (r ++ [w]))%list with ((y :: r) ++ [w])%list.
  rewrite IH by discriminate.
  rewrite append_assoc. reflexivity.
Qed.

Lemma Forall_removelast {A} (P : A -> Prop) l : Forall P l -> Forall P (removelast l).
Proof.
  induction 1 as [|x l Hx Hl IH]; [constructor|].
  destruct l as [|y r]; [constructor|].
  change (removelast (x :: y :: r)) with (x :: removelast (y :: r)).
  now constructor.
Qed.

Lemma simplify_significant name : significant (simplify toLowerCase name).
Proof.
  cbv beta. unfold simplify.
  set (keep := fun word => negb (has insignificantWords word)).
  set (l := filter keep (split_whitespace (toLowerCase name))).
  assert (Hl : Forall (fun word => has insignificantWords word = false) l).
  { apply Forall_forall. intros w Hw. apply filter_In in Hw as [_ Hw].
    now apply negb_true_iff. }
  destruct l as [|x r] eqn:E.
  - repeat constructor.
  - rewrite split_whitespace_join; [exact Hl | discriminate |].
    rewrite <- E. apply well_formed_filter, split_whitespace_well_formed.
Qed.

Lemma dropLastWord_pieces q :
  normal q ->
  exists l, l <> [] /\ well_formed l = true /\ split_whitespace q = l /\
            q = join " " l /\ dropLastWord q = join " " (removelast l).
Proof.
  intros Hn. destruct (dropLastWord_normal q Hn) as [Hd _].
  destruct Hn as (l & Hne & Hwf & ->).
  rewrite split_whitespace_join in Hd by assumption.
  exists l. repeat split; try assumption.
  now apply split_whitespace_join.
Qed.

Lemma dropLastWord_significant q :
  normal q -> significant q -> significant (dropLastWord q).
Proof.
  intros Hn Hs. cbv beta in *.
  destruct (dropLastWord_pieces q Hn) as (l & Hne & Hwf & Hsplit & _ & ->).
  rewrite Hsplit in Hs.
  destruct (removelast l) as [|x r] eqn:E.
  - repeat constructor.
  - rewrite split_whitespace_join; [| discriminate |].
    + rewrite <- E. now apply Forall_removelast.
    + rewrite <- E. now apply well_formed_removelast.
Qed.

(** A query that is not empty after its last piece was dropped is that
    shorter query, a space, and the piece. *)
Lemma dropLastWord_prefix q :
  normal q -> dropLastWord q <> "" ->
  exists word, no_space word = true /\ q = dropLastWord q ++ " " ++ word.
Proof.
  intros Hn Hd.
  destruct (dropLastWord_pieces q Hn) as (l & Hne & Hwf & _ & -> & E).
  rewrite E in *.
  assert (Hr : removelast l <> []) by (intros H; rewrite H in Hd; now apply Hd).
  exists (last l ""). split.
  - apply well_formed_no_space in Hwf. rewrite forallb_forall in Hwf.
    apply Hwf. destruct l as [|x r]; [congruence|].
    apply (@exists_last _ (x :: r)) in Hne as (r' & w & Er).
    rewrite Er, last_last. apply in_or_app. right. now left.
  - rewrite <- join_snoc by exact Hr.
    f_equal. now apply app_removelast_last.
Qed.

Lemma nth_error_before {A} (l : list A) k x :
  nth_error l (S k) = Some x -> exists y, nth_error l k = Some y.
Proof.
  intros H. destruct (nth_error l k) as [y|] eqn:E; [now exists y|].
  apply nth_error_None in E.
  assert (Hk : nth_error l (S k) <> None) by congruence.
  apply nth_error_Some in Hk. lia.
Qed.

(** No retry after the first one queries the empty name. *)
Lemma search_later_nonempty name retry k q :
  nth_error (fst (search name retry)) (S k) = Some q -> 1 <= retry + k -> q <> "".
Proof.
  revert k q.
  apply (search_ind toLowerCase searchCompany (fun name retry out => forall k q,
    nth_error (fst out) (S k) = Some q -> 1 <= retry + k -> q <> ""));
    cbn [fst].
  - intros n r _ k q H. discriminate H.
  - intros n r results _ _ _ k q H. destruct k; discriminate H.
  - intros n queries results _ E IH k q H Hk.
    destruct k as [|k]; [lia|]. cbn [nth_error] in H.
    apply (IH k q H). lia.
  - intros n r queries results Hr _ Hd E IH k q H Hk.
    cbn [nth_error] in H. destruct k as [|k].
    + destruct (le_lt_dec (r + 1) 3) as [Hle | Hgt].
      * destruct (search_head toLowerCase searchCompany _ _ _ _ Hle E) as (rest & ->).
        simpl in H. inversion H. now subst q.
      * rewrite (search_exhausted toLowerCase searchCompany _ _ Hgt) in E.
        inversion E; subst. discriminate H.
    + apply (IH k q H). lia.
  - intros n r _ _ _ k q H. destruct k; discriminate H.
Qed.

Lemma retry_query_shape name k q :
  nth_error (fst (search name 0)) (S k) = Some q -> normal q /\ significant q.
Proof.
  revert q. induction k as [|k IH]; intros q H.
  - destruct (nth_error_before _ _ _ H) as (q0 & H0).
    rewrite (search_chain toLowerCase searchCompany name 0 0 q0 q H0 H). cbn [Nat.add Nat.eqb].
    split; [apply simplify_normal | apply simplify_significant].
  - destruct (nth_error_before _ _ _ H) as (q0 & H0).
    destruct (IH q0 H0) as [Hn Hs].
    rewrite (search_chain toLowerCase searchCompany name 0 (S k) q0 q H0 H).
    cbn [Nat.add Nat.eqb]. split.
    + now apply dropLastWord_normal.
    + now apply dropLastWord_significant.
Qed.
End Narrowing.

(** X11.  Whatever the search service answers and whatever the lower-casing
    of the runtime yields, for every name: no query after the first has
    an insignificant word among its whitespace-delimited pieces (whitespace
    is that of the class [\s], Unicode whitespace included); and every
    query after the first retry is not empty and is the query before it cut
    at its last space, that is, the query before it is this query, a space
    and a piece without whitespace, so that each later retry is strictly
    shorter than the one before. *)
Theorem retry_queries_narrow
    (toLowerCase : string -> string)
    (searchCompany : string -> list value) (companyName : string) :
  let queries :=
    fst (GuessWikidata.getWikidataSearchResults toLowerCase searchCompany
           companyName 0) in
  (forall k q, 1 <= k -> nth_error queries k = Some q ->
     Forall (fun word =>
               GuessWikidata.has GuessWikidata.insignificantWords word = false)
       (split_whitespace q)) /\
  (forall k q q', 1 <= k ->
     nth_error queries k = Some q -> nth_error queries (S k) = Some q' ->
     q' <> "" /\
     (exists word, Pieces.no_space word = true /\ q = q' ++ " " ++ word) /\
     Str.length q' < Str.length q).
Proof.
  cbv zeta. split.
  - intros k q Hk H. destruct k as [|k]; [lia|].
    exact (proj2 (retry_query_shape toLowerCase searchCompany companyName k q H)).
  - intros k q q' Hk H H'. destruct k as [|k]; [lia|].
    destruct (retry_query_shape toLowerCase searchCompany companyName k q H) as [Hn _].
    pose proof (search_later_nonempty toLowerCase searchCompany companyName 0 (S k) q' H'
                  ltac:(lia)) as Hne.
    pose proof (search_chain toLowerCase searchCompany companyName 0 (S k) q q' H H') as E.
    cbn [Nat.add Nat.eqb] in E. subst q'.
    destruct (dropLastWord_prefix q Hn Hne) as (word & Hw & Eq).
    split; [exact Hne|]. split; [now exists word|].
    rewrite Eq at 2. rewrite !length_append. simpl. lia.
Qed.

Lemma retry_queries_narrow_witness :
  "telia" <> "" /\
  (exists word, Pieces.no_space word = true /\
                "telia group" = "telia" ++ " " ++ word) /\
  Str.length "telia" < Str.length "telia group".
Proof.
  apply (proj2 (retry_queries_narrow asciiLowerCase (fun _ => []) "Telia Group AB")
           1 "telia group" "telia");
    [lia | reflexivity | reflexivity].
Defined.

(** X12.  The candidates offered to the Extraction Service are the fetched
    records, each one once: for every field but [claims], the values of the
    field over the offered candidates are a rearrangement of its values over
    the fetched records, and as many candidates are offered as were
    fetched. *)
Theorem orderedResults_keeps_candidates (results : list value) (k : string) :
  k <> "claims" ->
  Permutation (map (get k) (GuessWikidata.orderedResults results))
    (map (get k) results) /\
  List.length (GuessWikidata.orderedResults results) = List.length results.
Proof.
  intros Hk. unfold GuessWikidata.orderedResults.
  assert (Hperm : Permutation (toSorted GuessWikidata.byEmissions results) results)
    by apply toSorted_permutation.
  split.
  - rewrite map_map.
    rewrite (map_ext (fun e => get k (GuessWikidata.withoutClaims e)) (get k)).
    + now apply Permutation_map.
    + intros e. unfold GuessWikidata.withoutClaims.
      rewrite get_set_other by exact Hk. apply get_spread.
  - rewrite length_map. now apply Permutation_length.
Qed.

Lemma orderedResults_keeps_candidates_witness :
  Permutation
    (map (get "id")
       (GuessWikidata.orderedResults
          [VObj [("id", VStr "Q1")];
           VObj [("id", VStr "Q2"); ("claims", VObj [("P5991", VArr [])])]]))
    [VStr "Q1"; VStr "Q2"].
Proof.
  apply (proj1 (orderedResults_keeps_candidates
                  [VObj [("id", VStr "Q1")];
                   VObj [("id", VStr "Q2"); ("claims", VObj [("P5991", VArr [])])]]
                  "id" ltac:(discriminate))).
Defined.

(** ** The routes that write a single record *)

(** X13.  None of the handlers that write a single record (company upsert,
    PATCH and DELETE of a goal, an initiative and an equality, industry,
    report URL) hides a failure of the gateway.  A handler stops at the
    first call that is rejected; it answers only when it made a call and
    every call it made was fulfilled; and when it fails after a rejected
    call, the reason is the gateway's rejection itself or an error whose
    [original] is that rejection.  It fails without a rejected call only
    before its first call. *)
Theorem single_record_routes_keep_failures
    (gateway : Records.log -> Records.operation -> list value ->
               Async.settled value)
    (isKnownRequestError : value -> bool) (newDate : value -> option Z)
    (wikidataIdSchema : Zod.schema) (isURL : value -> bool)
    (handler : Routes.request -> value -> Records.promise value)
    (req : Routes.request) (locals : value) (h : Records.log) :
  In handler
    (Records.routes gateway isKnownRequestError newDate wikidataIdSchema isURL) ->
  exists events,
    snd (handler req locals h) = (h ++ events)%list /\
    forallb Records.succeeded (removelast events) = true /\
    match fst (handler req locals h) with
    | Async.fulfilled _ =>
        events <> [] /\ forallb Records.succeeded events = true
    | Async.rejected reason =>
        events = [] \/
        exists before ev e,
          events = (before ++ [ev])%list /\
          Records.outcome ev = Async.rejected e /\
          (reason = e \/ get "original" reason = e)
    end.
Proof.
  intros Hin. simpl in Hin.
  repeat (destruct Hin as [<- | Hin]); [.. | contradiction];
    unfold Records.handleCompanyUpsert, Records.patchGoal,
      Records.deleteGoalRoute, Records.patchInitiative,
      Records.deleteInitiativeRoute, Records.patchEquality,
      Records.deleteEqualityRoute, Records.postIndustry,
      Records.patchReportURL, Records.orNotFound, Records.bind, Records.catch,
      Records.invoke, Records.ret, Records.throw; cbv zeta;
    repeat match goal with
      | |- context [Zod.parse ?n ?s ?v] => destruct (Zod.parse n s v)
      | |- context [negb (truthy ?v)] => destruct (truthy v) eqn:?; cbn [negb]
      | |- context [gateway ?h0 ?f ?a] =>
          destruct (gateway h0 f a) as [?|?] eqn:?
      | |- context [Records.recordNotFound ?i ?e] =>
          destruct (Records.recordNotFound i e)
      | |- context [if truthy ?v then _ else _] => destruct (truthy v) eqn:?
      end;
    cbn [fst snd];
    first
      [ exists []; rewrite app_nil_r; split; [reflexivity|];
        split; [reflexivity|]; left; reflexivity
      | eexists [_]; split; [reflexivity|]; split; [reflexivity|];
        first [ split; [discriminate | reflexivity]
              | right; eexists [], _, _; split; [reflexivity|];
                split; [reflexivity|];
                first [left; reflexivity | right; reflexivity] ]
      | eexists [_; _]; split; [rewrite <- app_assoc; reflexivity|];
        split; [reflexivity|];
        first [ split; [discriminate | reflexivity]
              | right; eexists [_], _, _; split; [reflexivity|];
                split; [reflexivity|];
                first [left; reflexivity | right; reflexivity] ] ].
Qed.

Lemma single_record_routes_keep_failures_witness :
  exists events,
    snd (Records.patchGoal Records.missing Records.sampleKnownRequestError
           Records.goalRequest (VObj []) []) = ([] ++ events)%list /\
    forallb Records.succeeded (removelast events) = true /\
    match fst (Records.patchGoal Records.missing Records.sampleKnownRequestError
                 Records.goalRequest (VObj []) []) with
    | Async.fulfilled _ =>
        events <> [] /\ forallb Records.succeeded events = true
    | Async.rejected reason =>
        events = [] \/
        exists before ev e,
          events = (before ++ [ev])%list /\
          Records.outcome ev = Async.rejected e /\
          (reason = e \/ get "original" reason = e)
    end.
Proof.
  apply (single_record_routes_keep_failures Records.missing
           Records.sampleKnownRequestError (fun _ => None) Zod.string_
           (fun _ => true)
           (Records.patchGoal Records.missing Records.sampleKnownRequestError)
           Records.goalRequest (VObj []) []).
  simpl. right. left. reflexivity.
Defined.

(** What the goal route answers when the goal is missing. *)
Example missing_goal_is_not_found :
  Records.patchGoal Records.missing Records.sampleKnownRequestError
    Records.goalRequest (VObj []) []
  = (Async.rejected
       (Records.apiError "Goal not found"
          [("statusCode", VNum (inject_Z 404));
           ("original", VObj [("name", VStr "PrismaClientKnownRequestError");
                              ("code", VStr "P2025")])]),
     [{| Records.fn := Records.updateGoal;
         Records.args := [VNum (inject_Z 7);
                          VObj [("description", VStr "Net zero")]; VUndefined];
         Records.outcome :=
           Async.rejected (VObj [("name", VStr "PrismaClientKnownRequestError");
                                 ("code", VStr "P2025")]) |}]).
Proof. reflexivity. Qed.

Section Industry.
Import Zod Records.
Variable gateway : log -> operation -> list value -> Async.settled value.
Variable newDate : value -> option Z.

(** A body that passes the schema of the industry route has a string as
    its code, the same before and after validation. *)
Lemma industry_code raw parsed :
  parse newDate industrySchema raw = Some parsed ->
  exists code,
    get "subIndustryCode" (get "industry" raw) = VStr code /\
    get "subIndustryCode" (get "industry" parsed) = VStr code.
Proof.
  intros H.
  pose proof (parse_object_get newDate _ _ _ "industry"
                (object [("subIndustryCode", string_)]) H
                ltac:(repeat constructor; simpl; tauto) ltac:(simpl; tauto)) as Hi.
  pose proof (parse_object_get newDate _ _ _ "subIndustryCode" string_ Hi
                ltac:(repeat constructor; simpl; tauto) ltac:(simpl; tauto)) as Hc.
  cbn [parse] in Hc.
  destruct (get "subIndustryCode" (get "industry" raw)); try discriminate.
  inversion Hc. eexists. split; reflexivity.
Qed.

Lemma truthy_code code : truthy (VStr code) = false <-> VStr code = VStr "".
Proof.
  simpl. split.
  - intros H. apply negb_false_iff, string_eqb_eq in H. now subst.
  - intros H. inversion H. reflexivity.
Qed.
End Industry.

(** X14.  The industry route, on a body that passes its schema, whether the
    handler is given the body as sent or as validated.  The empty code, which
    the schema accepts, is refused before any call.  For every other code the
    first call looks up the industry of the company; when the lookup is
    rejected no write is made and the rejection is the outcome; when it is
    fulfilled exactly one write follows, [updateIndustry] when a record was
    found and [createIndustry] when none was, with the company's id, the code
    and the metadata; the answer is [{ok: true}] when the write is
    fulfilled, and an error of status 500 that names the write and carries
    the rejection when it is rejected. *)
Theorem industry_is_updated_or_created
    (gateway : Records.log -> Records.operation -> list value ->
               Async.settled value)
    (newDate : value -> option Z)
    (req : Routes.request) (locals : value) (h : Records.log)
    (raw parsed : value) :
  Zod.parse newDate Records.industrySchema raw = Some parsed ->
  Routes.body req = raw \/ Routes.body req = parsed ->
  let code := get "subIndustryCode" (get "industry" (Routes.body req)) in
  let wikidataId := get "wikidataId" (Routes.params req) in
  let query := [VObj [("where", VObj [("companyWikidataId", wikidataId)])]] in
  let lookup :=
    {| Records.fn := Records.findFirstIndustry; Records.args := query;
       Records.outcome := gateway h Records.findFirstIndustry query |} in
  let run := Records.postIndustry gateway req locals h in
  (code = VStr "" ->
   run = (Async.rejected (Records.apiError "Unable to update industry" []), h)) /\
  (code <> VStr "" ->
   match Records.outcome lookup with
   | Async.rejected e => run = (Async.rejected e, (h ++ [lookup])%list)
   | Async.fulfilled current =>
       let write :=
         if truthy current then Records.updateIndustry
         else Records.createIndustry in
       let record :=
         [wikidataId; VObj [("subIndustryCode", code)]; get "metadata" locals] in
       let written :=
         {| Records.fn := write; Records.args := record;
            Records.outcome := gateway (h ++ [lookup])%list write record |} in
       snd run = (h ++ [lookup; written])%list /\
       fst run =
         match Records.outcome written with
         | Async.fulfilled _ => Async.fulfilled Routes.ok
         | Async.rejected e =>
             Async.rejected
               (Routes.GarboAPIError
                  (if truthy current then "Failed to update industry"
                   else "Failed to create industry") e)
         end
   end).
Proof.
  intros Hp Hbody. cbv zeta.
  assert (Hc : exists code,
             get "subIndustryCode" (get "industry" (Routes.body req)) = VStr code).
  { destruct (industry_code newDate _ _ Hp) as (code & Hraw & Hparsed).
    exists code. destruct Hbody as [-> | ->]; assumption. }
  destruct Hc as (code & Hc).
  unfold Records.postIndustry. cbv zeta. rewrite Hc.
  split.
  - intros E. inversion E. subst code. reflexivity.
  - intros Hne.
    assert (Ht : truthy (VStr code) = true).
    { destruct (truthy (VStr code)) eqn:E; [reflexivity|].
      apply truthy_code in E. contradiction. }
    rewrite Ht. cbn [negb Records.outcome].
    unfold Records.bind, Records.catch, Records.invoke, Records.ret,
      Records.throw; cbv zeta.
    destruct (gateway h Records.findFirstIndustry _) as [current | e];
      [|reflexivity].
    destruct (truthy current);
      match goal with
      | |- context [gateway ?h0 ?f ?a] => destruct (gateway h0 f a)
      end; cbn [fst snd]; rewrite <- app_assoc; split; reflexivity.
Qed.

Lemma industry_is_updated_or_created_witness :
  Records.postIndustry Records.missing (Records.industryRequest "") (VObj []) []
  = (Async.rejected (Records.apiError "Unable to update industry" []), []).
Proof.
  apply (proj1 (industry_is_updated_or_created Records.missing (fun _ => None)
                  (Records.industryRequest "") (VObj []) []
                  (Routes.body (Records.industryRequest ""))
                  (Routes.body (Records.industryRequest ""))
                  eq_refl (or_introl eq_refl))).
  reflexivity.
Defined.


(** ** The groups that the per-year emissions handler saves *)

Section GivenGroups.
Import Zod ZodFacts Async Routes RoutesFacts.

(** No upsert occurs twice among the entries of lines 683-697. *)
Lemma emissionsFieldGroups_once dbEmissions emissions metadata :
  NoDup (map fn (calls_of (emissionsFieldGroups dbEmissions emissions metadata))).
Proof.
  unfold emissionsFieldGroups, whenDefined, whenTruthy. cbv zeta.
  destruct (is_undefined (get "scope1" emissions));
    destruct (is_undefined (get "scope2" emissions));
    destruct (truthy (get "scope3" emissions));
    destruct (is_undefined (get "scope1And2" emissions));
    destruct (is_undefined (get "statedTotalEmissions" emissions));
    destruct (is_undefined (get "biogenic" emissions));
    cbn [calls_of map fn];
    repeat constructor; simpl; intuition discriminate.
Qed.

Variable newDate : value -> option Z.

(** A validated scope 3 that is given is an object. *)
Lemma parsed_scope3 req parsed :
  parse newDate postEmissionsBodySchema (body req) = Some parsed ->
  let scope3 := get "scope3" (orDefault (get "emissions" parsed) (VObj [])) in
  scope3 = VUndefined \/ truthy scope3 = true.
Proof.
  intros Hp. cbv zeta.
  pose proof (parse_object_get newDate _ _ _ "emissions" emissionsSchema Hp
                ltac:(repeat constructor; simpl; tauto) ltac:(simpl; tauto)) as He.
  pose proof (parsed_emissions_group newDate _ _ "scope3" scope3Schema He
                ltac:(simpl; tauto)) as H.
  destruct (parse_optional_object newDate _ _ _ H) as [[_ ->] | (o' & -> & _)];
    [now left | now right].
Qed.

Lemma defined_not_undefined v : v <> VUndefined -> is_undefined v = false.
Proof. destruct v; intros H; [contradiction | ..]; reflexivity. Qed.
End GivenGroups.

(** X16.  In the per-year emissions handler, on a body that passes
    validation, no upsert is called twice, and for each of the six groups
    (scope1, scope2, scope3, scope1And2, statedTotalEmissions, biogenic) the
    upsert of the group is called exactly when the validated emissions have
    the group, with the emissions record of the year, the validated group and
    the metadata.  The guard of scope 3, which tests for a truthy value where
    the others test against [undefined], makes no difference on a validated
    body. *)
Theorem emissions_handler_saves_given_groups
    (newDate : value -> option Z)
    (gateway : Async.history -> Async.call -> Async.settled value)
    (req : Routes.request) (locals : value) (h : Async.history)
    (parsed : value) (g : string) (op : Async.operation) :
  Zod.parse newDate Routes.postEmissionsBodySchema (Routes.body req) = Some parsed ->
  In (g, op) (("scope3", Async.upsertScope3) :: RoutesFacts.emissionsGroups) ->
  let given := get g (Routes.orDefault (get "emissions" parsed) (VObj [])) in
  let calls := RoutesFacts.added (Routes.postEmissions newDate gateway req locals) h in
  let upsert := {| Async.fn := op;
                   Async.args := [get "emissions" locals; given;
                                  get "metadata" locals] |} in
  NoDup (map Async.fn calls) /\
  (given = VUndefined -> Forall (fun c => Async.fn c <> op) calls) /\
  (given <> VUndefined -> In upsert calls).
Proof.
  intros Hp Hin. cbv zeta.
  rewrite (added_app _ _ _
             (f_equal snd (postEmissions_calls newDate gateway req locals parsed h Hp))).
  pose proof (parsed_scope3 newDate req parsed Hp) as H3. cbv zeta in H3.
  split; [apply emissionsFieldGroups_once|].
  unfold RoutesFacts.emissionsGroups in Hin. simpl in Hin.
  repeat (destruct Hin as [Hin | Hin]; [inversion Hin; subst; clear Hin|]);
    [.. | contradiction]; (split; [intros Hg | intros Hg]);
    try (unfold Routes.emissionsFieldGroups; cbv zeta; apply Forall_calls_of;
         repeat constructor;
         first [apply entry_ok_whenDefined | apply entry_ok_whenTruthy];
         intros Hdef; cbn [Async.fn]; try discriminate;
         rewrite Hg in Hdef; discriminate Hdef);
    apply In_calls_of; unfold Routes.emissionsFieldGroups; cbv zeta;
    unfold Routes.whenDefined, Routes.whenTruthy;
    first [ rewrite (defined_not_undefined _ Hg)
          | destruct H3 as [H3 | H3]; [contradiction | rewrite H3] ];
    repeat first [ left; reflexivity | right ].
Qed.

Lemma emissions_handler_saves_given_groups_witness :
  In {| Async.fn := Async.upsertScope3;
        Async.args := [get "emissions" RoutesFacts.emissionsLocals;
                       VObj [("statedTotalEmissions", VNull)];
                       get "metadata" RoutesFacts.emissionsLocals] |}
    (RoutesFacts.added
       (Routes.postEmissions RoutesFacts.dateOfNumber Samples.rejecting
          {| Routes.params := VObj [];
             Routes.body :=
               VObj [("emissions",
                       VObj [("scope3", VObj [("statedTotalEmissions", VNull)])])] |}
          RoutesFacts.emissionsLocals) []).
Proof.
  apply (proj2 (proj2 (emissions_handler_saves_given_groups
                  RoutesFacts.dateOfNumber Samples.rejecting
                  {| Routes.params := VObj [];
                     Routes.body :=
                       VObj [("emissions",
                               VObj [("scope3",
                                       VObj [("statedTotalEmissions", VNull)])])] |}
                  RoutesFacts.emissionsLocals []
                  (VObj [("emissions",
                           VObj [("scope3", VObj [("statedTotalEmissions", VNull)])])])
                  "scope3" Async.upsertScope3 eq_refl (or_introl eq_refl)))).
  discriminate.
Defined.
